(** * BlenderForge bridge: framing, auth gate, dispatch and connection manager

    A shallow embedding of the request/response bridging layer of
    BlenderForge: the listener in [addon.py] ([BlenderForgeServer]) and the
    client in [server.py] ([BlenderConnection]).

    Python values that travel over the wire are JSON documents; text is a
    sequence of Unicode code points, the wire carries bytes.  The [json]
    module of the Python standard library is modelled on the fragment the
    bridge uses (default [dumps] options, default [loads] options; limits
    of the interpreter such as the recursion depth are not modelled).
    Python floats stay abstract: their carrier and their primitives (reading
    a literal, the text written for a float, [round(_, 2)], truth value and
    [str]) are section variables, and so are the handlers that call into
    the host application and the wording of the errors the interpreter
    raises by itself. *)

From Stdlib Require Import ZArith NArith List String Ascii Lia Bool Decimal DecimalN.
From Stdlib.Strings Require Import Byte.
From stdpp Require Import gmap strings list.

Local Open Scope N_scope.
Set Warnings "-register-all,-clear-no-such-hyp".
Set Default Proof Using "Type".

(** ** Text and bytes *)

(** A Python [str]: the sequence of its code points. *)
Definition pystr := list N.

(** A Python [bytes] object. *)
Definition pybytes := list byte.

Definition ch (a : ascii) : N := N_of_ascii a.

(** The double quote character. *)
Definition dquote : N := 34.

(** The [str] written as an ASCII literal. *)
Definition py (s : string) : pystr := map N_of_ascii (list_ascii_of_string s).

Definition is_surrogate (c : N) : bool := (0xD800 <=? c) && (c <=? 0xDFFF).

(** A code point that is a Unicode scalar value. *)
Definition scalar (c : N) : bool := (c <? 0x110000) && negb (is_surrogate c).

Definition byte_of (n : N) : byte :=
  match Byte.of_N n with Some b => b | None => x00 end.

(** [str.encode("utf-8")]: fails (UnicodeEncodeError) on a surrogate. *)
Definition utf8_encode_char (c : N) : option pybytes :=
  if c <? 0x80 then Some [byte_of c]
  else if c <? 0x800 then
    Some [byte_of (0xC0 + c / 64); byte_of (0x80 + c mod 64)]
  else if c <? 0x10000 then
    if is_surrogate c then None
    else Some [byte_of (0xE0 + c / 4096); byte_of (0x80 + (c / 64) mod 64);
               byte_of (0x80 + c mod 64)]
  else if c <? 0x110000 then
    Some [byte_of (0xF0 + c / 262144); byte_of (0x80 + (c / 4096) mod 64);
          byte_of (0x80 + (c / 64) mod 64); byte_of (0x80 + c mod 64)]
  else None.

Fixpoint utf8_encode (s : pystr) : option pybytes :=
  match s with
  | [] => Some []
  | c :: r =>
    match utf8_encode_char c, utf8_encode r with
    | Some bs, Some rs => Some (bs ++ rs)
    | _, _ => None
    end
  end.

Definition is_cont (b : N) : bool := (0x80 <=? b) && (b <=? 0xBF).

Definition in_range (lo hi b : N) : bool := (lo <=? b) && (b <=? hi).

(** [bytes.decode("utf-8")] in strict mode: [None] is UnicodeDecodeError.
    The well-formed byte sequences are those of the Unicode standard
    (no overlong forms, no surrogates, nothing above U+10FFFF). *)
Fixpoint utf8_decode_N (bs : list N) : option pystr :=
  match bs with
  | [] => Some []
  | b0 :: r0 =>
    if b0 <? 0x80 then cons b0 <$> utf8_decode_N r0
    else if in_range 0xC2 0xDF b0 then
      match r0 with
      | b1 :: r1 =>
        if is_cont b1
        then cons ((b0 - 0xC0) * 64 + (b1 - 0x80)) <$> utf8_decode_N r1
        else None
      | _ => None
      end
    else if in_range 0xE0 0xEF b0 then
      match r0 with
      | b1 :: b2 :: r2 =>
        if in_range (if b0 =? 0xE0 then 0xA0 else 0x80)
                    (if b0 =? 0xED then 0x9F else 0xBF) b1 && is_cont b2
        then cons ((b0 - 0xE0) * 4096 + (b1 - 0x80) * 64 + (b2 - 0x80))
               <$> utf8_decode_N r2
        else None
      | _ => None
      end
    else if in_range 0xF0 0xF4 b0 then
      match r0 with
      | b1 :: b2 :: b3 :: r3 =>
        if in_range (if b0 =? 0xF0 then 0x90 else 0x80)
                    (if b0 =? 0xF4 then 0x8F else 0xBF) b1
           && is_cont b2 && is_cont b3
        then cons ((b0 - 0xF0) * 262144 + (b1 - 0x80) * 4096
                   + (b2 - 0x80) * 64 + (b3 - 0x80))
               <$> utf8_decode_N r3
        else None
      | _ => None
      end
    else None
  end.

Definition utf8_decode (bs : pybytes) : option pystr :=
  utf8_decode_N (map Byte.to_N bs).

(** ** Decimal and hexadecimal digits *)

Definition is_digit (c : N) : bool := (48 <=? c) && (c <=? 57).

Fixpoint chars_of_uint (d : uint) : pystr :=
  match d with
  | Nil => []
  | D0 u => 48 :: chars_of_uint u
  | D1 u => 49 :: chars_of_uint u
  | D2 u => 50 :: chars_of_uint u
  | D3 u => 51 :: chars_of_uint u
  | D4 u => 52 :: chars_of_uint u
  | D5 u => 53 :: chars_of_uint u
  | D6 u => 54 :: chars_of_uint u
  | D7 u => 55 :: chars_of_uint u
  | D8 u => 56 :: chars_of_uint u
  | D9 u => 57 :: chars_of_uint u
  end.

Definition digit_cons (c : N) (u : uint) : uint :=
  match c - 48 with
  | 0 => D0 u | 1 => D1 u | 2 => D2 u | 3 => D3 u | 4 => D4 u
  | 5 => D5 u | 6 => D6 u | 7 => D7 u | 8 => D8 u | _ => D9 u
  end.

(** The longest run of decimal digits at the head of [s], and what follows. *)
Fixpoint span_digits (s : pystr) : pystr * pystr :=
  match s with
  | c :: r =>
    if is_digit c then let '(ds, r') := span_digits r in (c :: ds, r')
    else ([], s)
  | [] => ([], [])
  end.

Fixpoint uint_of_chars (ds : pystr) : uint :=
  match ds with
  | [] => Nil
  | c :: r => digit_cons c (uint_of_chars r)
  end.

(** [str(n)] for a Python [int]. *)
Definition str_of_int (z : Z) : pystr :=
  match z with
  | Z0 => [48]
  | Zpos p => chars_of_uint (N.to_uint (Npos p))
  | Zneg p => 45 :: chars_of_uint (N.to_uint (Npos p))
  end.

Definition hexdigit (n : N) : N := if n <? 10 then 48 + n else 87 + n.

(** ['{0:04x}'.format(n)] for [n < 0x10000]. *)
Definition hex4 (n : N) : pystr :=
  [hexdigit (n / 4096); hexdigit ((n / 256) mod 16);
   hexdigit ((n / 16) mod 16); hexdigit (n mod 16)].

Definition unhexdigit (c : N) : option N :=
  if is_digit c then Some (c - 48)
  else if (97 <=? c) && (c <=? 102) then Some (c - 87)
  else if (65 <=? c) && (c <=? 70) then Some (c - 55)
  else None.

Definition unhex4 (a b c d : N) : option N :=
  match unhexdigit a, unhexdigit b, unhexdigit c, unhexdigit d with
  | Some x, Some y, Some z, Some w => Some (((x * 16 + y) * 16 + z) * 16 + w)
  | _, _, _, _ => None
  end.

(** ** JSON documents and the standard [json] codec *)

Section Bridge.

(** Python floats: carrier and primitives are left abstract. *)
Variable pyfloat : Type.
(** [float(text)] on a JSON float literal, [NaN], [Infinity], [-Infinity]. *)
Variable float_of_literal : pystr -> pyfloat.
(** The text [json.dumps] writes for a float. *)
Variable floatstr : pyfloat -> pystr.
(** [round(x, 2)]. *)
Variable round2 : pyfloat -> pyfloat.

(** The Python values [json.loads] produces; a [dict] keeps its insertion
    order and has [str] keys. *)
Inductive json : Type :=
| JNull
| JBool (b : bool)
| JInt (z : Z)
| JFloat (f : pyfloat)
| JStr (s : pystr)
| JList (l : list json)
| JDict (d : list (pystr * json)).

Definition pydict := list (pystr * json).

(** [d.get(k)]: [None] of Python is [JNull]; absence is reported apart. *)
Fixpoint dict_lookup (k : pystr) (d : pydict) : option json :=
  match d with
  | [] => None
  | (k', v) :: d' => if decide (k' = k) then Some v else dict_lookup k d'
  end.

(** [d[k] = v]: an existing key keeps its position. *)
Fixpoint dict_set (k : pystr) (v : json) (d : pydict) : pydict :=
  match d with
  | [] => [(k, v)]
  | (k', v') :: d' =>
    if decide (k' = k) then (k, v) :: d' else (k', v') :: dict_set k v d'
  end.

(** [dict(pairs)]. *)
Definition dict_of_pairs (pairs : list (pystr * json)) : pydict :=
  fold_left (fun d kv => dict_set kv.1 kv.2 d) pairs [].

(** *** [json.dumps] with its default options *)

(** One character of [py_encode_basestring_ascii]. *)
Definition escape_char (c : N) : pystr :=
  if c =? dquote then [ch "\"; dquote]
  else if c =? ch "\" then py "\\"
  else if c =? 10 then py "\n"
  else if c =? 13 then py "\r"
  else if c =? 9 then py "\t"
  else if c =? 8 then py "\b"
  else if c =? 12 then py "\f"
  else if (32 <=? c) && (c <=? 126) then [c]
  else if c <? 0x10000 then py "\u" ++ hex4 c
  else
    let n := c - 0x10000 in
    let s1 := N.lor 0xD800 (N.land (N.shiftr n 10) 0x3FF) in
    let s2 := N.lor 0xDC00 (N.land n 0x3FF) in
    py "\u" ++ hex4 s1 ++ py "\u" ++ hex4 s2.

Definition escape_chars (s : pystr) : pystr := flat_map escape_char s.

Definition encode_basestring_ascii (s : pystr) : pystr :=
  dquote :: escape_chars s ++ [dquote].

Fixpoint dumps (v : json) : pystr :=
  match v with
  | JNull => py "null"
  | JBool true => py "true"
  | JBool false => py "false"
  | JInt z => str_of_int z
  | JFloat f => floatstr f
  | JStr s => encode_basestring_ascii s
  | JList [] => py "[]"
  | JList (x :: l) =>
    ch "[" :: dumps x
      ++ (fix items (l : list json) : pystr :=
            match l with
            | [] => []
            | y :: l' => py ", " ++ dumps y ++ items l'
            end) l
      ++ [ch "]"]
  | JDict [] => py "{}"
  | JDict ((k, x) :: d) =>
    ch "{" :: encode_basestring_ascii k ++ py ": " ++ dumps x
      ++ (fix pairs (d : list (pystr * json)) : pystr :=
            match d with
            | [] => []
            | (k', y) :: d' =>
              py ", " ++ encode_basestring_ascii k' ++ py ": " ++ dumps y
                ++ pairs d'
            end) d
      ++ [ch "}"]
  end.

(** *** [json.loads] with its default options *)

Definition is_ws (c : N) : bool :=
  (c =? 32) || (c =? 9) || (c =? 10) || (c =? 13).

Fixpoint skip_ws (s : pystr) : pystr :=
  match s with
  | c :: r => if is_ws c then skip_ws r else s
  | [] => []
  end.

(** The [BACKSLASH] table of the decoder. *)
Definition unescape (e : N) : option N :=
  if e =? dquote then Some (dquote)
  else if e =? ch "\" then Some (ch "\")
  else if e =? ch "/" then Some (ch "/")
  else if e =? ch "b" then Some 8
  else if e =? ch "f" then Some 12
  else if e =? ch "n" then Some 10
  else if e =? ch "r" then Some 13
  else if e =? ch "t" then Some 9
  else None.

Definition is_high (u : N) : bool := (0xD800 <=? u) && (u <=? 0xDBFF).
Definition is_low (u : N) : bool := (0xDC00 <=? u) && (u <=? 0xDFFF).

(** [scanstring] (strict), started after the opening quote: the decoded
    string and the text after the closing quote. *)
Fixpoint scanstring (s : pystr) : option (pystr * pystr) :=
  match s with
  | [] => None
  | c :: r =>
    if c =? dquote then Some ([], r)
    else if c =? ch "\" then
      match r with
      | [] => None
      | e :: r1 =>
        if e =? ch "u" then
          match r1 with
          | a :: b :: c' :: d :: r2 =>
            match unhex4 a b c' d with
            | None => None
            | Some uni =>
              let single :=
                match scanstring r2 with
                | Some (str, r') => Some (uni :: str, r')
                | None => None
                end in
              if is_high uni then
                match r2 with
                | b1 :: b2 :: r3 =>
                  if (b1 =? ch "\") && (b2 =? ch "u") then
                    match r3 with
                    | a2 :: b3 :: c2 :: d2 :: r4 =>
                      match unhex4 a2 b3 c2 d2 with
                      | None => None
                      | Some uni2 =>
                        if is_low uni2 then
                          match scanstring r4 with
                          | Some (str, r') =>
                            Some (0x10000
                                  + N.lor (N.shiftl (uni - 0xD800) 10)
                                          (uni2 - 0xDC00) :: str, r')
                          | None => None
                          end
                        else single
                      end
                    | _ => None
                    end
                  else single
                | _ => single
                end
              else single
            end
          | _ => None
          end
        else
          match unescape e with
          | None => None
          | Some c1 =>
            match scanstring r1 with
            | Some (str, r') => Some (c1 :: str, r')
            | None => None
            end
          end
      end
    else if c <? 32 then None
    else
      match scanstring r with
      | Some (str, r') => Some (c :: str, r')
      | None => None
      end
  end.

(** The three groups of [NUMBER_RE]: an integer part (optional minus sign,
    then a lone zero or a digit run with no leading zero), an optional
    fraction (a dot and at least one digit) and an optional exponent
    (e or E, an optional sign, at least one digit). *)
Definition lex_integer (s : pystr) : option (pystr * pystr) :=
  let '(sign, r) :=
    match s with
    | c :: r => if c =? ch "-" then ([c], r) else ([], s)
    | [] => ([], [])
    end in
  match r with
  | c :: r' =>
    if c =? 48 then Some (sign ++ [c], r')
    else if is_digit c then
      let '(ds, r'') := span_digits r' in Some (sign ++ c :: ds, r'')
    else None
  | [] => None
  end.

Definition lex_frac (s : pystr) : pystr * pystr :=
  match s with
  | c :: r =>
    if c =? ch "." then
      match span_digits r with
      | ([], _) => ([], s)
      | (ds, r') => (c :: ds, r')
      end
    else ([], s)
  | [] => ([], [])
  end.

Definition lex_exp (s : pystr) : pystr * pystr :=
  match s with
  | c :: r =>
    if (c =? ch "e") || (c =? ch "E") then
      let '(sign, r1) :=
        match r with
        | c1 :: r1 =>
          if (c1 =? ch "+") || (c1 =? ch "-") then ([c1], r1) else ([], r)
        | [] => ([], [])
        end in
      match span_digits r1 with
      | ([], _) => ([], s)
      | (ds, r2) => (c :: sign ++ ds, r2)
      end
    else ([], s)
  | [] => ([], [])
  end.

(** [int(text)] on the integer group. *)
Definition int_of_text (t : pystr) : Z :=
  match t with
  | c :: ds =>
    if c =? ch "-" then Z.opp (Z.of_N (N.of_uint (uint_of_chars ds)))
    else Z.of_N (N.of_uint (uint_of_chars t))
  | [] => 0%Z
  end.

Definition match_number (s : pystr) : option (json * pystr) :=
  match lex_integer s with
  | None => None
  | Some (integer, r) =>
    let '(frac, r1) := lex_frac r in
    let '(exp, r2) := lex_exp r1 in
    match frac, exp with
    | [], [] => Some (JInt (int_of_text integer), r2)
    | _, _ => Some (JFloat (float_of_literal (integer ++ frac ++ exp)), r2)
    end
  end.

(** [s] starts with the literal [lit]: what follows it. *)
Fixpoint strip_prefix (lit s : pystr) : option pystr :=
  match lit, s with
  | [], _ => Some s
  | a :: lit', c :: s' => if a =? c then strip_prefix lit' s' else None
  | _ :: _, [] => None
  end.

(** [scan_once], [JSONArray] after its first value position and [JSONObject]
    after the opening quote of a key.  Every call consumes input, so
    [fuel] above the length of the text is never exhausted. *)
Fixpoint scan_once (fuel : nat) (s : pystr) : option (json * pystr) :=
  match fuel with
  | O => None
  | S fuel' =>
    match s with
    | [] => None
    | c :: r =>
      if c =? dquote then
        match scanstring r with
        | Some (str, r') => Some (JStr str, r')
        | None => None
        end
      else if c =? ch "{" then
        match skip_ws r with
        | c1 :: r1 =>
          if c1 =? ch "}" then Some (JDict [], r1)
          else if c1 =? dquote then
            match object_pairs fuel' r1 with
            | Some (pairs, r') => Some (JDict (dict_of_pairs pairs), r')
            | None => None
            end
          else None
        | [] => None
        end
      else if c =? ch "[" then
        match skip_ws r with
        | c1 :: r1 =>
          if c1 =? ch "]" then Some (JList [], r1)
          else
            match array_values fuel' (c1 :: r1) with
            | Some (values, r') => Some (JList values, r')
            | None => None
            end
        | [] => None
        end
      else
        match strip_prefix (py "null") s, strip_prefix (py "true") s,
              strip_prefix (py "false") s with
        | Some r', _, _ => Some (JNull, r')
        | _, Some r', _ => Some (JBool true, r')
        | _, _, Some r' => Some (JBool false, r')
        | None, None, None =>
          match match_number s with
          | Some res => Some res
          | None =>
            match strip_prefix (py "NaN") s, strip_prefix (py "Infinity") s,
                  strip_prefix (py "-Infinity") s with
            | Some r', _, _ => Some (JFloat (float_of_literal (py "NaN")), r')
            | _, Some r', _ =>
              Some (JFloat (float_of_literal (py "Infinity")), r')
            | _, _, Some r' =>
              Some (JFloat (float_of_literal (py "-Infinity")), r')
            | None, None, None => None
            end
          end
        end
    end
  end
with array_values (fuel : nat) (s : pystr) : option (list json * pystr) :=
  match fuel with
  | O => None
  | S fuel' =>
    match scan_once fuel' s with
    | None => None
    | Some (v, r) =>
      match skip_ws r with
      | c :: r1 =>
        if c =? ch "]" then Some ([v], r1)
        else if c =? ch "," then
          match array_values fuel' (skip_ws r1) with
          | Some (vs, r') => Some (v :: vs, r')
          | None => None
          end
        else None
      | [] => None
      end
    end
  end
with object_pairs (fuel : nat) (s : pystr)
  : option (list (pystr * json) * pystr) :=
  match fuel with
  | O => None
  | S fuel' =>
    match scanstring s with
    | None => None
    | Some (k, r) =>
      match skip_ws r with
      | c :: r1 =>
        if c =? ch ":" then
          match scan_once fuel' (skip_ws r1) with
          | None => None
          | Some (v, r2) =>
            match skip_ws r2 with
            | c2 :: r3 =>
              if c2 =? ch "}" then Some ([(k, v)], r3)
              else if c2 =? ch "," then
                match skip_ws r3 with
                | q :: r4 =>
                  if q =? dquote then
                    match object_pairs fuel' r4 with
                    | Some (ps, r') => Some ((k, v) :: ps, r')
                    | None => None
                    end
                  else None
                | [] => None
                end
              else None
            | [] => None
            end
          end
        else None
      | [] => None
      end
    end
  end.

(** [json.loads(text)]: [None] is JSONDecodeError. *)
Definition loads (s : pystr) : option json :=
  match scan_once (S (length s)) (skip_ws s) with
  | Some (v, r) => match skip_ws r with [] => Some v | _ :: _ => None end
  | None => None
  end.

(** ** Exceptions *)

(** The exception classes the bridge tells apart in its [except] clauses. *)
Inductive exn_kind :=
| TimeoutError
| ConnectionError
| JSONDecodeError
| OtherException.

Record exn := { exn_kind_of : exn_kind; exn_str : pystr }.

(** Errors raised by the Python runtime itself; the text of their messages
    depends on the interpreter and stays abstract. *)
Inductive runtime_error :=
| NoGetAttribute (v : json)
| UnhashableKey (v : json)
| BadKeywordArguments (method : string) (params : json)
| BadUTF8 (data : pybytes).

Variable str_of_runtime_error : runtime_error -> pystr.

Definition runtime_exn (e : runtime_error) : exn :=
  {| exn_kind_of := OtherException; exn_str := str_of_runtime_error e |}.

(** ** Wire encoding *)

(** [json.dumps(v).encode("utf-8")]. *)
Definition dumps_bytes (v : json) : option pybytes := utf8_encode (dumps v).

Inductive parse_result :=
| Parsed (v : json)
| NotJSON
| NotUTF8.

(** [json.loads(data.decode("utf-8"))]: a document, JSONDecodeError or
    UnicodeDecodeError. *)
Definition loads_bytes (data : pybytes) : parse_result :=
  match utf8_decode data with
  | None => NotUTF8
  | Some text =>
    match loads text with
    | Some v => Parsed v
    | None => NotJSON
    end
  end.

(** ** Host application state ([bpy]) *)

Record scene_object := {
  obj_name : pystr;
  obj_type : pystr;
  obj_location : pyfloat * pyfloat * pyfloat
}.

Record blender := {
  scene_name : pystr;
  scene_objects : list scene_object;
  data_materials : list pystr;
  blenderforge_use_polyhaven : bool;
  blenderforge_use_hyper3d : bool;
  blenderforge_use_sketchfab : bool;
  blenderforge_use_hunyuan3d : bool
}.

(** The host together with the log of handler invocations (method name
    and keyword arguments), kept to count calls. *)
Record world := {
  bpy : blender;
  calls : list (string * pydict)
}.

(** ** Handlers defined by the listener *)

Definition obj_info (obj : scene_object) : json :=
  let '(x, y, z) := obj_location obj in
  JDict [(py "name", JStr (obj_name obj));
         (py "type", JStr (obj_type obj));
         (py "location",
          JList [JFloat (round2 x); JFloat (round2 y); JFloat (round2 z)])].

(** The loop of [get_scene_info] over [enumerate(scene.objects)]. *)
Fixpoint collect_objects (i : nat) (objs : list scene_object)
    (acc : list json) : list json :=
  match objs with
  | [] => acc
  | obj :: rest =>
    if (10 <=? i)%nat then acc
    else collect_objects (S i) rest (acc ++ [obj_info obj])
  end.

(** [get_scene_info]; reading the scene cannot raise here, so the
    [except] branch that returns an ["error"] mapping is not reached. *)
Definition get_scene_info (b : blender) : json :=
  JDict [(py "name", JStr (scene_name b));
         (py "object_count", JInt (Z.of_nat (length (scene_objects b))));
         (py "objects", JList (collect_objects 0 (scene_objects b) []));
         (py "materials_count",
          JInt (Z.of_nat (length (data_materials b))))].

Definition polyhaven_enabled_message : pystr :=
  py "PolyHaven integration is enabled and ready to use.".

Definition polyhaven_disabled_message : pystr :=
  py "PolyHaven integration is currently disabled. To enable it:
                            1. In the 3D Viewport, find the BlenderForge panel in the sidebar (press N if hidden)
                            2. Check the 'Use assets from Poly Haven' checkbox
                            3. Restart the connection to Claude".

Definition get_polyhaven_status (b : blender) : json :=
  if blenderforge_use_polyhaven b then
    JDict [(py "enabled", JBool true);
           (py "message", JStr polyhaven_enabled_message)]
  else
    JDict [(py "enabled", JBool false);
           (py "message", JStr polyhaven_disabled_message)].

(** Every other handler calls into the host: its result (a returned value
    or a raised exception) and its effect on the host are arbitrary. *)
Variable host_method : string -> pydict -> blender -> (exn + json) * blender.

(** [method( **kwargs)] for a bound method of the listener. *)
Definition call_method (method : string) (kwargs : pydict) (b : blender)
  : (exn + json) * blender :=
  if decide (method = "get_scene_info"%string) then
    match kwargs with
    | [] => (inr (get_scene_info b), b)
    | _ :: _ =>
      (inl (runtime_exn (BadKeywordArguments method (JDict kwargs))), b)
    end
  else if decide (method = "get_polyhaven_status"%string) then
    match kwargs with
    | [] => (inr (get_polyhaven_status b), b)
    | _ :: _ =>
      (inl (runtime_exn (BadKeywordArguments method (JDict kwargs))), b)
    end
  else host_method method kwargs b.

(** ** Dispatch table *)

(** A table maps a command type to the bound method of that very name; a
    group is listed by its names, in the order of the source. *)
Definition handler_group (names : list string) : gmap pystr string :=
  list_to_map ((fun n => (py n, n)) <$> names).

Definition base_handlers : list string :=
  ["get_scene_info"; "get_object_info"; "get_viewport_screenshot";
   "execute_code"; "get_telemetry_consent"; "get_polyhaven_status";
   "get_hyper3d_status"; "get_sketchfab_status"; "get_hunyuan3d_status"].

Definition polyhaven_handlers : list string :=
  ["get_polyhaven_categories"; "search_polyhaven_assets";
   "download_polyhaven_asset"; "set_texture"].

Definition hyper3d_handlers : list string :=
  ["create_rodin_job"; "poll_rodin_job_status"; "import_generated_asset"].

Definition sketchfab_handlers : list string :=
  ["search_sketchfab_models"; "get_sketchfab_model_preview";
   "download_sketchfab_model"].

Definition hunyuan_handlers : list string :=
  ["create_hunyuan_job"; "poll_hunyuan_job_status";
   "import_generated_asset_hunyuan"].

Definition ai_handlers : list string :=
  ["generate_material_text"; "generate_material_image";
   "list_material_presets"; "nlp_create"; "nlp_modify";
   "analyze_scene_composition"; "get_improvement_suggestions";
   "auto_optimize_lighting"; "auto_rig"; "auto_weight_paint";
   "add_ik_controls"].

Definition advanced_handlers : list string :=
  ["add_modifier"; "configure_modifier"; "apply_modifier";
   "boolean_operation"; "create_array"; "add_bevel"; "mirror_object";
   "subdivide_smooth"; "extrude_faces"; "inset_faces"; "loop_cut";
   "merge_vertices"; "separate_by_loose"; "join_objects"; "insert_keyframe";
   "set_animation_range"; "create_turntable"; "add_shape_key";
   "animate_shape_key"; "animate_path"; "bake_animation"; "add_rigid_body";
   "add_cloth_simulation"; "add_collision"; "create_force_field";
   "bake_physics"; "add_particle_system"; "create_camera";
   "set_active_camera"; "configure_camera"; "camera_look_at";
   "set_render_settings"; "render_image"; "render_animation";
   "setup_studio_render"; "create_bezier_curve"; "create_text_object";
   "curve_to_mesh"; "create_pipe"; "add_constraint"; "create_empty";
   "parent_objects"; "create_collection"; "move_to_collection";
   "set_collection_visibility"; "duplicate_linked"; "purge_unused";
   "save_blend"; "export_scene"; "scatter_on_surface";
   "create_procedural_terrain"].

(** [handlers.update(group)]. *)
Definition update (group : list string) (handlers : gmap pystr string)
  : gmap pystr string :=
  handler_group group ∪ handlers.

(** The table as [_execute_command_internal] builds it on each call. *)
Definition build_handlers (b : blender) : gmap pystr string :=
  let handlers := handler_group base_handlers in
  let handlers :=
    if blenderforge_use_polyhaven b then update polyhaven_handlers handlers
    else handlers in
  let handlers :=
    if blenderforge_use_hyper3d b then update hyper3d_handlers handlers
    else handlers in
  let handlers :=
    if blenderforge_use_sketchfab b then update sketchfab_handlers handlers
    else handlers in
  let handlers :=
    if blenderforge_use_hunyuan3d b then update hunyuan_handlers handlers
    else handlers in
  let handlers := update ai_handlers handlers in
  update advanced_handlers handlers.

(** ** Auth gate and dispatcher ([BlenderForgeServer]) *)

(** [bool(f)] for a float. *)
Variable float_truthy : pyfloat -> bool.
(** [str(f)] for a float. *)
Variable float_str : pyfloat -> pystr.

(** Python truth value. *)
Definition truthy (v : json) : bool :=
  match v with
  | JNull => false
  | JBool b => b
  | JInt z => negb (z =? 0)%Z
  | JFloat f => float_truthy f
  | JStr s => negb (bool_decide (s = []))
  | JList l => negb (bool_decide (length l = 0%nat))
  | JDict d => negb (bool_decide (length d = 0%nat))
  end.

(** [v == s] for a [str] [s]. *)
Definition str_eq (v : json) (s : pystr) : bool :=
  match v with
  | JStr s' => bool_decide (s' = s)
  | _ => false
  end.

(** [command.get(key)]. *)
Definition get (key : string) (command : pydict) : json :=
  match dict_lookup (py key) command with
  | Some v => v
  | None => JNull
  end.

(** [command.get(key, default)]. *)
Definition get_default (key : string) (default : json) (command : pydict)
  : json :=
  match dict_lookup (py key) command with
  | Some v => v
  | None => default
  end.

(** [handlers.get(cmd_type)]: a [list] or [dict] key is unhashable. *)
Definition handlers_get (handlers : gmap pystr string) (cmd_type : json)
  : runtime_error + option string :=
  match cmd_type with
  | JStr s => inr (handlers !! s)
  | JList _ | JDict _ => inl (UnhashableKey cmd_type)
  | _ => inr None
  end.

(** The text an f-string puts for [{cmd_type}]. *)
Definition format_value (v : json) : pystr :=
  match v with
  | JStr s => s
  | JNull => py "None"
  | JBool true => py "True"
  | JBool false => py "False"
  | JInt z => str_of_int z
  | JFloat f => float_str f
  | JList _ | JDict _ => []  (* unhashable: the lookup raises before this *)
  end.

Definition error_response (message : pystr) : json :=
  JDict [(py "status", JStr (py "error")); (py "message", JStr message)].

Definition success_response (result : json) : json :=
  JDict [(py "status", JStr (py "success")); (py "result", result)].

Definition auth_error : json :=
  error_response (py "Invalid authentication token").

Definition unknown_command (cmd_type : json) : json :=
  error_response (py "Unknown command type: " ++ format_value cmd_type).

Definition log_call (method : string) (kwargs : pydict) (w : world) : world :=
  {| bpy := bpy w; calls := calls w ++ [(method, kwargs)] |}.

(** A logged invocation of a bound method. *)
Definition invoke (method : string) (kwargs : pydict) (w : world)
  : (exn + json) * world :=
  let w := log_call method kwargs w in
  let '(r, b) := call_method method kwargs (bpy w) in
  (r, {| bpy := b; calls := calls w |}).

(** The test of the auth gate: a token was provided (it is truthy) and
    differs from the listener's. *)
Definition auth_rejects (auth_token : pystr) (cmd : pydict) : bool :=
  let provided_token := get "auth_token" cmd in
  truthy provided_token && negb (str_eq provided_token auth_token).

(** The [try] block around [handler( **params)]: a raised exception
    becomes an error response, a returned value a success response. *)
Definition run_handler (handler : string) (params : json) (w : world)
  : json * world :=
  match params with
  | JDict kwargs =>
    match invoke handler kwargs w with
    | (inr result, w') => (success_response result, w')
    | (inl e, w') => (error_response (exn_str e), w')
    end
  | _ =>
    (error_response
       (str_of_runtime_error (BadKeywordArguments handler params)), w)
  end.

(** [_execute_command_internal] past the auth gate: the status shortcut,
    the table built from the current flags, the lookup and the call. *)
Definition dispatch (cmd : pydict) (w : world) : (exn + json) * world :=
  let cmd_type := get "type" cmd in
  let params := get_default "params" (JDict []) cmd in
  if str_eq cmd_type (py "get_polyhaven_status") then
    match invoke "get_polyhaven_status" [] w with
    | (inr result, w') => (inr (success_response result), w')
    | (inl e, w') => (inl e, w')
    end
  else
    let handlers := build_handlers (bpy w) in
    match handlers_get handlers cmd_type with
    | inl e => (inl (runtime_exn e), w)
    | inr (Some handler) =>
      let '(response, w') := run_handler handler params w in
      (inr response, w')
    | inr None => (inr (unknown_command cmd_type), w)
    end.

(** [_execute_command_internal]: the response, or the exception that
    escapes the function. *)
Definition _execute_command_internal (auth_token : pystr) (command : json)
    (w : world) : (exn + json) * world :=
  match command with
  | JDict cmd =>
    if auth_rejects auth_token cmd then (inr auth_error, w)
    else dispatch cmd w
  | _ => (inl (runtime_exn (NoGetAttribute command)), w)
  end.

(** [execute_command]: whatever escapes becomes an error response. *)
Definition execute_command (auth_token : pystr) (command : json) (w : world)
  : json * world :=
  match _execute_command_internal auth_token command w with
  | (inr response, w') => (response, w')
  | (inl e, w') => (error_response (exn_str e), w')
  end.

(** ** Listener-side framing ([_handle_client]) *)

(** What one turn of the receive loop observes. *)
Inductive client_event :=
| NotRunning
| Received (data : pybytes)
| RecvRaised (e : exn).

Inductive handler_state :=
| Reading (buffer : pybytes)
| HandlerStopped.

(** The loop of [_handle_client], started with [buffer]: the commands
    handed to the main-thread timer, in order, and where the loop stands
    once the observed events are used up. *)
Fixpoint _handle_client (events : list client_event) (buffer : pybytes)
  : list json * handler_state :=
  match events with
  | [] => ([], Reading buffer)
  | NotRunning :: _ => ([], HandlerStopped)
  | RecvRaised _ :: _ => ([], HandlerStopped)
  | Received data :: events' =>
    match data with
    | [] => ([], HandlerStopped)
    | _ :: _ =>
      let buffer := buffer ++ data in
      match loads_bytes buffer with
      | Parsed command =>
        let '(scheduled, st) := _handle_client events' [] in
        (command :: scheduled, st)
      | NotJSON => _handle_client events' buffer
      | NotUTF8 => ([], HandlerStopped)
      end
    end
  end.


(** ** Client-side framing ([BlenderConnection.receive_full_response]) *)

(** What one [sock.recv] does. *)
Inductive recv_event :=
| RecvData (chunk : pybytes)
| RecvError (e : exn).

Inductive receive_result :=
| Returned (data : pybytes)
| Raised (e : exn)
| Blocked (chunks : list pybytes).

Definition exception (msg : string) : exn :=
  {| exn_kind_of := OtherException; exn_str := py msg |}.

(** The code after the loop: use what has been received. *)
Definition after_receive_loop (chunks : list pybytes) : receive_result :=
  match chunks with
  | _ :: _ =>
    let data := concat chunks in
    match loads_bytes data with
    | Parsed _ => Returned data
    | NotJSON => Raised (exception "Incomplete JSON response received")
    | NotUTF8 => Raised (runtime_exn (BadUTF8 data))
    end
  | [] => Raised (exception "Timeout: No data received")
  end.

(** The receive loop with [chunks] already collected. *)
Fixpoint receive_loop (events : list recv_event) (chunks : list pybytes)
  : receive_result :=
  match events with
  | [] => Blocked chunks
  | RecvData chunk :: events' =>
    match chunk with
    | [] =>
      match chunks with
      | [] => Raised (exception "Connection closed before receiving any data")
      | _ :: _ => after_receive_loop chunks
      end
    | _ :: _ =>
      let chunks := chunks ++ [chunk] in
      let data := concat chunks in
      match loads_bytes data with
      | Parsed _ => Returned data
      | NotJSON => receive_loop events' chunks
      | NotUTF8 => Raised (runtime_exn (BadUTF8 data))
      end
    end
  | RecvError e :: events' =>
    match exn_kind_of e with
    | TimeoutError => after_receive_loop chunks
    | _ => Raised e
    end
  end.

Definition receive_full_response (events : list recv_event) : receive_result :=
  receive_loop events [].

(** ** Connection manager ([BlenderConnection]) *)

Inductive connect_result :=
| Connected
| ConnectTimedOut
| ConnectRefused
| ConnectFailed.

(** The process and network around the client: sockets are numbered as
    they are created, [net_closed] lists the closed ones, [net_connect]
    tells how the connect on each socket ends, [env_token] is the value of
    [BLENDERFORGE_AUTH_TOKEN] in the environment. *)
Record net := {
  net_next : nat;
  net_closed : list nat;
  net_connect : nat -> connect_result;
  env_token : option pystr;
  net_sleeps : nat
}.

Record BlenderConnection := {
  host : pystr;
  port : Z;
  sock : option nat;
  auth_token : option pystr;
  max_retries : Z;
  retry_delay : pyfloat
}.

Definition set_sock (s : option nat) (c : BlenderConnection)
  : BlenderConnection :=
  {| host := host c; port := port c; sock := s; auth_token := auth_token c;
     max_retries := max_retries c; retry_delay := retry_delay c |}.

Definition set_auth_token (t : option pystr) (c : BlenderConnection)
  : BlenderConnection :=
  {| host := host c; port := port c; sock := sock c; auth_token := t;
     max_retries := max_retries c; retry_delay := retry_delay c |}.

Definition new_socket (n : net) : nat * net :=
  (net_next n,
   {| net_next := S (net_next n); net_closed := net_closed n;
      net_connect := net_connect n; env_token := env_token n;
      net_sleeps := net_sleeps n |}).

Definition sleep (n : net) : net :=
  {| net_next := net_next n; net_closed := net_closed n;
     net_connect := net_connect n; env_token := env_token n;
     net_sleeps := S (net_sleeps n) |}.

Definition close (s : nat) (n : net) : net :=
  {| net_next := net_next n; net_closed := s :: net_closed n;
     net_connect := net_connect n; env_token := env_token n;
     net_sleeps := net_sleeps n |}.

(** The attempts [attempt, attempt + 1, ...] of [connect], [remaining] of
    them, out of [max_attempts]. *)
Fixpoint connect_attempts (remaining : nat) (attempt max_attempts : Z)
    (c : BlenderConnection) (n : net) : bool * BlenderConnection * net :=
  match remaining with
  | O => (false, c, n)
  | S remaining' =>
    let '(s, n) := new_socket n in
    let c := set_sock (Some s) c in
    match net_connect n s with
    | Connected =>
      (true, set_auth_token (env_token n) c, n)
    | _ =>
      let c := set_sock None c in
      let n := if (attempt <? max_attempts - 1)%Z then sleep n else n in
      connect_attempts remaining' (attempt + 1)%Z max_attempts c n
    end
  end.

(** [connect(retries)]. *)
Definition connect (retries : option Z) (c : BlenderConnection) (n : net)
  : bool * BlenderConnection * net :=
  match sock c with
  | Some _ => (true, c, n)
  | None =>
    let max_attempts :=
      match retries with Some r => r | None => max_retries c end in
    connect_attempts (Z.to_nat max_attempts) 0%Z max_attempts c n
  end.

(** [disconnect()]: an error raised by [close] is logged and dropped, the
    socket is released either way. *)
Definition disconnect (c : BlenderConnection) (n : net)
  : BlenderConnection * net :=
  match sock c with
  | Some s => (set_sock None c, close s n)
  | None => (c, n)
  end.

(** The groups merged into the table under a flag of the scene, and the
    groups merged unconditionally. *)
Definition gated_groups : list ((blender -> bool) * list string) :=
  [(blenderforge_use_polyhaven, polyhaven_handlers);
   (blenderforge_use_hyper3d, hyper3d_handlers);
   (blenderforge_use_sketchfab, sketchfab_handlers);
   (blenderforge_use_hunyuan3d, hunyuan_handlers)].

Definition always_on : list string :=
  base_handlers ++ ai_handlers ++ advanced_handlers.

(** Every entry of a table leads to the method named like its key. *)
Definition well_keyed (handlers : gmap pystr string) : Prop :=
  forall k m, handlers !! k = Some m -> k = py m.

(** The methods the table offers for a given host state. *)
Definition available (b : blender) (m : string) : Prop :=
  m ∈ base_handlers
  \/ (blenderforge_use_polyhaven b = true /\ m ∈ polyhaven_handlers)
  \/ (blenderforge_use_hyper3d b = true /\ m ∈ hyper3d_handlers)
  \/ (blenderforge_use_sketchfab b = true /\ m ∈ sketchfab_handlers)
  \/ (blenderforge_use_hunyuan3d b = true /\ m ∈ hunyuan_handlers)
  \/ m ∈ ai_handlers
  \/ m ∈ advanced_handlers.

(** No name of a gated group occurs in another group. *)
Definition apart (group : list string) (others : list (list string)) : Prop :=
  Forall (fun m => Forall (fun o => m ∉ o) others) group.

(** ** Documents the codec is proved on *)

(** The text written for the items of a list after the first one, and for
    the pairs of a dict after the first one. *)
Definition dumps_items (l : list json) : pystr :=
  flat_map (fun y => py ", " ++ dumps y) l.

Definition dumps_pair (kv : pystr * json) : pystr :=
  encode_basestring_ascii kv.1 ++ py ": " ++ dumps kv.2.

Definition dumps_pairs (d : pydict) : pystr :=
  flat_map (fun kv => py ", " ++ dumps_pair kv) d.

(** A [str] of Unicode scalar values. *)
Definition valid_str (s : pystr) : bool := forallb scalar s.

(** A document without floats, whose strings hold Unicode scalar values
    and whose dicts have no key twice. *)
Fixpoint valid_json (v : json) : bool :=
  match v with
  | JNull | JBool _ | JInt _ => true
  | JFloat _ => false
  | JStr s => valid_str s
  | JList l => forallb valid_json l
  | JDict d =>
    bool_decide (NoDup d.*1)
    && forallb (fun kv => valid_str kv.1 && valid_json kv.2) d
  end.

(** What may follow a value inside the text of a document: nothing, a
    comma, or a closing bracket or brace. *)
Definition after_value (rest : pystr) : bool :=
  match rest with
  | [] => true
  | c :: _ => (c =? ch ",") || (c =? ch "]") || (c =? ch "}")
  end.

(** [p] is a proper prefix of [t]. *)
Definition proper_prefix (p t : pystr) : Prop :=
  exists q, q <> [] /\ t = p ++ q.

(** The outcome of scanning a text that stops short: a failure, or a
    value that used up the whole text. *)
Definition stuck (r : option (json * pystr)) : Prop :=
  r = None \/ exists v, r = Some (v, []).

Definition ascii_text (t : pystr) : Prop := Forall (fun c => c < 128) t.

(** The run of digits of a number ends before [rest]. *)
Definition not_digit_next (rest : pystr) : Prop :=
  match rest with
  | [] => True
  | c :: _ => is_digit c = false
  end.

(** Scanning the text written for [v], with enough fuel and in front of
    anything that may follow a value, gives [v] back. *)
Definition reads_back (v : json) : Prop :=
  forall fuel rest,
    (length (dumps v) <= fuel)%nat -> after_value rest = true ->
    scan_once fuel (dumps v ++ rest) = Some (v, rest).

(** Scanning a text that stops inside the text written for [v] fails,
    unless [v] is an integer, whose shorter digit run may scan as another
    integer and then leaves nothing behind. *)
Definition cut_fails (v : json) : Prop :=
  forall p q fuel,
    q <> [] -> dumps v = p ++ q ->
    scan_once fuel p = None
    \/ ((exists z, v = JInt z) /\ exists v', scan_once fuel p = Some (v', [])).

(** The command [send_command] builds: [params or {}], and the cached
    token attached when it is truthy. *)
Definition build_command (command_type : pystr) (params : option pydict)
    (token : option pystr) : pydict :=
  let command :=
    [(py "type", JStr command_type);
     (py "params", JDict (match params with Some p => p | None => [] end))] in
  match token with
  | Some (c :: t) => dict_set (py "auth_token") (JStr (c :: t)) command
  | _ => command
  end.

(** ** Sending a command ([BlenderConnection.send_command]) *)

(** The text of [str(v)] for a [list] or a [dict], of a UnicodeEncodeError
    and of a JSONDecodeError is the interpreter's. *)
Variable container_str : json -> pystr.
Variable str_of_encode_error : pystr -> pystr.
Variable str_of_decode_error : pybytes -> pystr.

(** [str(e)] for [e = Exception(v)]. *)
Definition str_of_value (v : json) : pystr :=
  match v with
  | JList _ | JDict _ => container_str v
  | _ => format_value v
  end.

(** One use of the socket by [send_command]: what [sendall], or the
    [settimeout] after it, raises, if anything, and what the reads that
    follow observe. *)
Record exchange := {
  send_error : option exn;
  replies : list recv_event
}.

Inductive command_outcome :=
| CommandReturned (result : json)
| CommandRaised (e : exn)
| CommandBlocked.

(** [Exception(f"{prefix}{detail}")]. *)
Definition exception_about (prefix : string) (detail : pystr) : exn :=
  {| exn_kind_of := OtherException; exn_str := py prefix ++ detail |}.

(** What the body of the [try] does with the parsed response. *)
Definition read_response (response : json) : exn + json :=
  match response with
  | JDict r =>
    if str_eq (get "status" r) (py "error") then
      inl {| exn_kind_of := OtherException;
             exn_str :=
               str_of_value
                 (get_default "message"
                    (JStr (py "Unknown error from Blender")) r) |}
    else inr (get_default "result" (JDict []) r)
  | _ => inl (runtime_exn (NoGetAttribute response))
  end.

(** The body of the [try] of [send_command]: the exception raised in it,
    the value returned, or [None] while the reads have not decided. *)
Definition send_command_try (command : pydict) (x : exchange)
  : exn + option json :=
  match dumps_bytes (JDict command) with
  | None =>
    inl {| exn_kind_of := OtherException;
           exn_str := str_of_encode_error (dumps (JDict command)) |}
  | Some _ =>
    match send_error x with
    | Some e => inl e
    | None =>
      match receive_full_response (replies x) with
      | Blocked _ => inr None
      | Raised e => inl e
      | Returned response_data =>
        match loads_bytes response_data with
        | NotUTF8 => inl (runtime_exn (BadUTF8 response_data))
        | NotJSON =>
          inl {| exn_kind_of := JSONDecodeError;
                 exn_str := str_of_decode_error response_data |}
        | Parsed response =>
          match read_response response with
          | inl e => inl e
          | inr result => inr (Some result)
          end
        end
      end
    end
  end.

(** The [except] clauses of [send_command]: the exception raised in place
    of [e], and the manager, which loses its socket in all clauses but
    that of JSONDecodeError. *)
Definition send_command_except (e : exn) (c : BlenderConnection)
  : exn * BlenderConnection :=
  match exn_kind_of e with
  | TimeoutError =>
    (exception
       "Timeout waiting for Blender response - try simplifying your request",
     set_sock None c)
  | ConnectionError =>
    (exception_about "Connection to Blender lost: " (exn_str e),
     set_sock None c)
  | JSONDecodeError =>
    (exception_about "Invalid response from Blender: " (exn_str e), c)
  | OtherException =>
    (exception_about "Communication error with Blender: " (exn_str e),
     set_sock None c)
  end.

(** [send_command(command_type, params)]. *)
Definition send_command (command_type : pystr) (params : option pydict)
    (x : exchange) (c : BlenderConnection) (n : net)
  : command_outcome * BlenderConnection * net :=
  let '(connected, c, n) :=
    match sock c with
    | Some _ => (true, c, n)
    | None => connect None c n
    end in
  if connected then
    let command := build_command command_type params (auth_token c) in
    match send_command_try command x with
    | inr (Some result) => (CommandReturned result, c, n)
    | inr None => (CommandBlocked, c, n)
    | inl e =>
      let '(e', c') := send_command_except e c in
      (CommandRaised e', c', n)
    end
  else
    (CommandRaised {| exn_kind_of := ConnectionError;
                      exn_str := py "Not connected to Blender" |}, c, n).

(** ** The persistent connection ([get_blender_connection]) *)

(** The module-level variables of the client. *)
Record client_globals := {
  _blender_connection : option BlenderConnection;
  _polyhaven_enabled : json
}.

Inductive connection_outcome :=
| GotConnection (c : BlenderConnection)
| ConnectionRaised (e : exn)
| ConnectionBlocked.

(** The second half of [get_blender_connection], reached with no
    connection: [env_host] is [BLENDER_HOST] or its default, [env_port]
    what [int] makes of [BLENDER_PORT] or its default, a ValueError
    included. *)
Definition new_connection (env_host : pystr) (env_port : exn + Z)
    (enabled : json) (n : net)
  : connection_outcome * client_globals * net :=
  match env_port with
  | inl e =>
    (ConnectionRaised e,
     {| _blender_connection := None; _polyhaven_enabled := enabled |}, n)
  | inr p =>
    let c := {| host := env_host; port := p; sock := None;
                auth_token := None; max_retries := 3;
                retry_delay := float_of_literal (py "1.0") |} in
    match connect None c n with
    | (true, c, n) =>
      (GotConnection c,
       {| _blender_connection := Some c; _polyhaven_enabled := enabled |}, n)
    | (false, _, n) =>
      (ConnectionRaised
         (exception
            "Could not connect to Blender. Make sure the Blender addon is running."),
       {| _blender_connection := None; _polyhaven_enabled := enabled |}, n)
    end
  end.

(** [get_blender_connection()]: [x] is what the socket does during the
    ping of an existing connection. *)
Definition get_blender_connection (env_host : pystr) (env_port : exn + Z)
    (x : exchange) (g : client_globals) (n : net)
  : connection_outcome * client_globals * net :=
  match _blender_connection g with
  | Some c =>
    match send_command (py "get_polyhaven_status") None x c n with
    | (CommandReturned (JDict result), c, n) =>
      (GotConnection c,
       {| _blender_connection := Some c;
          _polyhaven_enabled := get_default "enabled" (JBool false) result |},
       n)
    | (CommandReturned _, c, n) | (CommandRaised _, c, n) =>
      let '(_, n) := disconnect c n in
      new_connection env_host env_port (_polyhaven_enabled g) n
    | (CommandBlocked, c, n) =>
      (ConnectionBlocked,
       {| _blender_connection := Some c;
          _polyhaven_enabled := _polyhaven_enabled g |}, n)
    end
  | None => new_connection env_host env_port (_polyhaven_enabled g) n
  end.

(** ** Starting and stopping the listener ([BlenderForgeServer.start],
    [stop]) *)

(** The file system stays abstract.  [remove_path] is what the [try] of
    [_cleanup_temp_files] does with one path before the [discard]
    ([unlink] of a file, [rmtree] of a directory, nothing otherwise):
    whether it raises, and the file system it leaves. *)
Variable filesystem : Type.
Variable remove_path : pystr -> filesystem -> bool * filesystem.

(** The process the listener lives in: [environ_token] is
    [BLENDERFORGE_AUTH_TOKEN] in [os.environ]; sockets are numbered as
    they are created, [closed_sockets] lists the closed ones. *)
Record process := {
  environ_token : option pystr;
  created_sockets : nat;
  closed_sockets : list nat;
  files : filesystem
}.

(** The fields of a [BlenderForgeServer] that [start] and [stop] touch;
    [server_thread] holds a thread object and whether it was started,
    [server_token] is [self.auth_token], [_temp_files] the tracked paths
    in the order the cleanup visits them. *)
Record server := {
  running : bool;
  socket : option nat;
  server_thread : option bool;
  server_token : pystr;
  _temp_files : list pystr
}.

(** [self._temp_files.add(path)]. *)
Definition _track_temp_file (path : pystr) (s : server) : server :=
  {| running := running s; socket := socket s;
     server_thread := server_thread s; server_token := server_token s;
     _temp_files :=
       if decide (path ∈ _temp_files s) then _temp_files s
       else _temp_files s ++ [path] |}.

(** The loop of [_cleanup_temp_files] over a copy of the tracked paths:
    a path is discarded unless its removal raised. *)
Fixpoint cleanup_paths (paths tracked : list pystr) (f : filesystem)
  : list pystr * filesystem :=
  match paths with
  | [] => (tracked, f)
  | temp_path :: paths' =>
    let '(raised, f) := remove_path temp_path f in
    let tracked :=
      if raised then tracked
      else filter (fun p => p <> temp_path) tracked in
    cleanup_paths paths' tracked f
  end.

Definition _cleanup_temp_files (s : server) (p : process)
  : server * process :=
  let '(tracked, f) := cleanup_paths (_temp_files s) (_temp_files s) (files p) in
  ({| running := running s; socket := socket s;
      server_thread := server_thread s; server_token := server_token s;
      _temp_files := tracked |},
   {| environ_token := environ_token p;
      created_sockets := created_sockets p;
      closed_sockets := closed_sockets p; files := f |}).

(** [stop()]: errors of [close] and [join] are printed and dropped. *)
Definition stop (s : server) (p : process) : server * process :=
  let closed :=
    match socket s with
    | Some k => k :: closed_sockets p
    | None => closed_sockets p
    end in
  let s :=
    {| running := false; socket := None; server_thread := None;
       server_token := server_token s; _temp_files := _temp_files s |} in
  let '(s, p) :=
    _cleanup_temp_files s
      {| environ_token := environ_token p;
         created_sockets := created_sockets p;
         closed_sockets := closed; files := files p |} in
  (s, {| environ_token := None; created_sockets := created_sockets p;
         closed_sockets := closed_sockets p; files := files p |}).

(** Where the [try] of [start] can fail: creating the socket; setting
    it up ([setsockopt], [bind], [listen]); starting the thread. *)
Inductive start_fault :=
| SocketFails
| BindFails
| ThreadFails.

(** [start()]. *)
Definition start (fault : option start_fault) (s : server) (p : process)
  : server * process :=
  if running s then (s, p)
  else
    let k := created_sockets p in
    let p' :=
      {| environ_token := environ_token p; created_sockets := S k;
         closed_sockets := closed_sockets p; files := files p |} in
    match fault with
    | Some SocketFails =>
      stop {| running := true; socket := socket s;
              server_thread := server_thread s;
              server_token := server_token s;
              _temp_files := _temp_files s |} p
    | Some BindFails =>
      stop {| running := true; socket := Some k;
              server_thread := server_thread s;
              server_token := server_token s;
              _temp_files := _temp_files s |} p'
    | Some ThreadFails =>
      stop {| running := true; socket := Some k;
              server_thread := Some false;
              server_token := server_token s;
              _temp_files := _temp_files s |} p'
    | None =>
      ({| running := true; socket := Some k; server_thread := Some true;
          server_token := server_token s; _temp_files := _temp_files s |},
       {| environ_token := Some (server_token s); created_sockets := S k;
          closed_sockets := closed_sockets p; files := files p |})
    end.

(** * Properties *)

(** Propositional reasoning that leaves the parameters of the model alone. *)
Ltac drop_parameters :=
  try clear float_of_literal; try clear floatstr; try clear round2;
  try clear str_of_runtime_error; try clear host_method;
  try clear float_truthy; try clear float_str;
  try clear container_str; try clear str_of_encode_error;
  try clear str_of_decode_error; try clear remove_path.

Ltac prop_tauto := drop_parameters; tauto.


(** ** The dispatch table *)

Lemma py_inj (a b : string) : py a = py b -> a = b.
Proof.
  unfold py. revert b.
  induction a as [|x a IH]; intros [|y b]; simpl; try discriminate; auto.
  intros H. injection H as Hx Hr.
  apply (f_equal ascii_of_N) in Hx. rewrite !ascii_N_embedding in Hx.
  f_equal; auto.
Qed.

Lemma handler_group_lookup (names : list string) (k : pystr) (m : string) :
  handler_group names !! k = Some m <-> k = py m /\ m ∈ names.
Proof.
  unfold handler_group.
  induction names as [|n names IH]; simpl.
  - rewrite lookup_empty. split; [discriminate|]. intros [_ H]. inversion H.
  - rewrite lookup_insert. case_decide as Hk.
    + subst k. split.
      * intros [= ->]. split; [done|]. left.
      * intros [Hm _]. apply py_inj in Hm. by subst.
    + rewrite IH. split.
      * intros [-> Hin]. split; [done|]. by right.
      * intros [-> Hin]. split; [done|].
        apply elem_of_cons in Hin as [->|]; [done|assumption].
Qed.

Lemma handler_group_None (names : list string) (k : pystr) :
  handler_group names !! k = None <-> forall m, m ∈ names -> k <> py m.
Proof.
  split.
  - intros HN m Hin ->.
    assert (handler_group names !! py m = Some m) as E
      by (apply handler_group_lookup; auto).
    congruence.
  - intros H. destruct (handler_group names !! k) as [m|] eqn:E; [|done].
    apply handler_group_lookup in E as [-> Hin]. by destruct (H m Hin).
Qed.

Lemma update_lookup (group : list string) (handlers : gmap pystr string)
    (k : pystr) (m : string) :
  well_keyed handlers ->
  update group handlers !! k = Some m
  <-> (k = py m /\ m ∈ group) \/ handlers !! k = Some m.
Proof.
  intros Hwk. unfold update. rewrite lookup_union_Some_raw.
  rewrite handler_group_lookup. split.
  - intros [H|[_ H]]; auto.
  - intros [H|H]; [by left|].
    destruct (handler_group group !! k) as [m'|] eqn:E; [|by right].
    left. apply handler_group_lookup in E as [-> Hin].
    apply Hwk in H. apply py_inj in H. by subst.
Qed.

Lemma update_well_keyed (group : list string) (handlers : gmap pystr string) :
  well_keyed handlers -> well_keyed (update group handlers).
Proof.
  intros Hwk k m H. apply update_lookup in H as [[-> _]|H]; auto.
Qed.

Lemma handler_group_well_keyed (names : list string) :
  well_keyed (handler_group names).
Proof. intros k m H. by apply handler_group_lookup in H as [-> _]. Qed.

Lemma gated_update_lookup (flag : bool) (group : list string)
    (handlers : gmap pystr string) (k : pystr) (m : string) :
  well_keyed handlers ->
  (if flag then update group handlers else handlers) !! k = Some m
  <-> (flag = true /\ k = py m /\ m ∈ group) \/ handlers !! k = Some m.
Proof.
  intros Hwk. destruct flag.
  - rewrite update_lookup by done.
    split; (intros [H|H]; [left|by right]); [done|by destruct H].
  - split; [by right|]. intros [[? _]|?]; [discriminate|done].
Qed.

Lemma gated_update_well_keyed (flag : bool) (group : list string)
    (handlers : gmap pystr string) :
  well_keyed handlers ->
  well_keyed (if flag then update group handlers else handlers).
Proof. destruct flag; auto using update_well_keyed. Qed.

Lemma build_handlers_lookup (b : blender) (k : pystr) (m : string) :
  build_handlers b !! k = Some m <-> k = py m /\ available b m.
Proof.
  unfold build_handlers, available.
  pose proof (handler_group_well_keyed base_handlers) as H0.
  pose proof (gated_update_well_keyed (blenderforge_use_polyhaven b)
                polyhaven_handlers _ H0) as H1.
  pose proof (gated_update_well_keyed (blenderforge_use_hyper3d b)
                hyper3d_handlers _ H1) as H2.
  pose proof (gated_update_well_keyed (blenderforge_use_sketchfab b)
                sketchfab_handlers _ H2) as H3.
  pose proof (gated_update_well_keyed (blenderforge_use_hunyuan3d b)
                hunyuan_handlers _ H3) as H4.
  pose proof (update_well_keyed ai_handlers _ H4) as H5.
  rewrite update_lookup by done.
  rewrite update_lookup by done.
  rewrite gated_update_lookup by done.
  rewrite gated_update_lookup by done.
  rewrite gated_update_lookup by done.
  rewrite gated_update_lookup by done.
  rewrite handler_group_lookup.
  prop_tauto.
Qed.

Lemma build_handlers_None (b : blender) (k : pystr) :
  build_handlers b !! k = None <-> forall m, available b m -> k <> py m.
Proof.
  split.
  - intros HN m Hav ->.
    assert (build_handlers b !! py m = Some m) as E
      by (apply build_handlers_lookup; auto).
    congruence.
  - intros H. destruct (build_handlers b !! k) as [m|] eqn:E; [|done].
    apply build_handlers_lookup in E as [-> Hav]. by destruct (H m Hav).
Qed.

Lemma always_on_available (b : blender) (m : string) :
  m ∈ always_on -> available b m.
Proof.
  unfold always_on, available. rewrite !elem_of_app. prop_tauto.
Qed.

Lemma apart_elim (group : list string) (others : list (list string))
    (m : string) (o : list string) :
  apart group others -> m ∈ group -> o ∈ others -> m ∉ o.
Proof.
  unfold apart. rewrite Forall_forall. intros H Hm Ho.
  specialize (H m Hm). rewrite Forall_forall in H. auto.
Qed.

Lemma polyhaven_apart :
  apart polyhaven_handlers
    [base_handlers; hyper3d_handlers; sketchfab_handlers; hunyuan_handlers;
     ai_handlers; advanced_handlers].
Proof. apply (bool_decide_unpack _). vm_compute. exact I. Qed.

Lemma hyper3d_apart :
  apart hyper3d_handlers
    [base_handlers; polyhaven_handlers; sketchfab_handlers; hunyuan_handlers;
     ai_handlers; advanced_handlers].
Proof. apply (bool_decide_unpack _). vm_compute. exact I. Qed.

Lemma sketchfab_apart :
  apart sketchfab_handlers
    [base_handlers; polyhaven_handlers; hyper3d_handlers; hunyuan_handlers;
     ai_handlers; advanced_handlers].
Proof. apply (bool_decide_unpack _). vm_compute. exact I. Qed.

Lemma hunyuan_apart :
  apart hunyuan_handlers
    [base_handlers; polyhaven_handlers; hyper3d_handlers; sketchfab_handlers;
     ai_handlers; advanced_handlers].
Proof. apply (bool_decide_unpack _). vm_compute. exact I. Qed.

Ltac use_apart H Hm :=
  pose proof (fun o => apart_elim _ _ _ o H Hm) as Hap;
  repeat match type of Hap with
  | forall o, o ∈ ?x :: ?l -> _ =>
    let Hx := fresh "Hnot" in
    pose proof (Hap x ltac:(left)) as Hx;
    assert (forall o, o ∈ l -> _) by (intros o Ho; apply (Hap o); by right);
    clear Hap;
    match goal with Hn : forall o, o ∈ l -> _ |- _ => rename Hn into Hap end
  end;
  clear Hap.

Lemma gated_flag_decides (b : blender) (flag : blender -> bool)
    (group : list string) (m : string) :
  (flag, group) ∈ gated_groups -> m ∈ group ->
  available b m <-> flag b = true.
Proof.
  intros Hg Hm. unfold gated_groups in Hg. unfold available.
  apply elem_of_cons in Hg as [Hg|Hg].
  { injection Hg as -> ->. use_apart polyhaven_apart Hm. prop_tauto. }
  apply elem_of_cons in Hg as [Hg|Hg].
  { injection Hg as -> ->. use_apart hyper3d_apart Hm. prop_tauto. }
  apply elem_of_cons in Hg as [Hg|Hg].
  { injection Hg as -> ->. use_apart sketchfab_apart Hm. prop_tauto. }
  apply elem_of_cons in Hg as [Hg|Hg].
  { injection Hg as -> ->. use_apart hunyuan_apart Hm. prop_tauto. }
  inversion Hg.
Qed.

(** ** The call log *)

Lemma invoke_spec (m : string) (kwargs : pydict) (w : world) :
  invoke m kwargs w
  = ((call_method m kwargs (bpy w)).1,
     {| bpy := (call_method m kwargs (bpy w)).2;
        calls := calls w ++ [(m, kwargs)] |}).
Proof. unfold invoke, log_call. simpl. by destruct (call_method _ _ _). Qed.

Lemma run_handler_calls (m : string) (kwargs : pydict) (w : world) :
  calls (run_handler m (JDict kwargs) w).2 = calls w ++ [(m, kwargs)].
Proof.
  unfold run_handler. rewrite invoke_spec.
  by destruct (call_method _ _ _) as [[e|r] b].
Qed.

Lemma dispatch_table_hit (cmd : pydict) (s : pystr) (m : string) (w : world) :
  get "type" cmd = JStr s ->
  s <> py "get_polyhaven_status" ->
  build_handlers (bpy w) !! s = Some m ->
  dispatch cmd w
  = (inr (run_handler m (get_default "params" (JDict []) cmd) w).1,
     (run_handler m (get_default "params" (JDict []) cmd) w).2).
Proof.
  intros Ht Hs Hm. unfold dispatch. rewrite Ht. cbn [str_eq handlers_get].
  rewrite bool_decide_false by done. rewrite Hm.
  by destruct (run_handler _ _ _).
Qed.

Lemma dispatch_table_miss (cmd : pydict) (s : pystr) (w : world) :
  get "type" cmd = JStr s ->
  build_handlers (bpy w) !! s = None ->
  dispatch cmd w
  = (inr (error_response (py "Unknown command type: " ++ s)), w).
Proof.
  intros Ht Hm. unfold dispatch. rewrite Ht. cbn [str_eq handlers_get].
  rewrite bool_decide_false.
  - by rewrite Hm.
  - intros ->.
    assert (build_handlers (bpy w) !! py "get_polyhaven_status"
            = Some "get_polyhaven_status"%string) as E.
    { apply build_handlers_lookup. split; [done|]. left.
      apply (bool_decide_unpack _). vm_compute. exact I. }
    congruence.
Qed.

(** ** The auth gate *)

Lemma execute_internal_gate (T : pystr) (cmd : pydict) (w : world) :
  _execute_command_internal T (JDict cmd) w
  = if auth_rejects T cmd then (inr auth_error, w) else dispatch cmd w.
Proof. reflexivity. Qed.

Lemma get_absent (key : string) (cmd : pydict) :
  dict_lookup (py key) cmd = None -> get key cmd = JNull.
Proof. unfold get. by intros ->. Qed.

Lemma get_present (key : string) (cmd : pydict) (v : json) :
  dict_lookup (py key) cmd = Some v -> get key cmd = v.
Proof. unfold get. by intros ->. Qed.

Lemma str_eq_true (v : json) (s : pystr) : str_eq v s = true <-> v = JStr s.
Proof.
  destruct v; cbn [str_eq]; try (split; [discriminate|congruence]).
  rewrite bool_decide_eq_true. split; congruence.
Qed.

Lemma auth_rejects_spec (T : pystr) (cmd : pydict) :
  auth_rejects T cmd = true
  <-> truthy (get "auth_token" cmd) = true /\ get "auth_token" cmd <> JStr T.
Proof.
  unfold auth_rejects. rewrite andb_true_iff, negb_true_iff.
  rewrite <- not_true_iff_false, str_eq_true. prop_tauto.
Qed.

(** C2, as amended: with the listener holding token [T], a command without
    an [auth_token] field and a command whose [auth_token] equals [T] pass
    the gate and are dispatched: when the type names a handler of the
    current table, that handler is invoked once with the command's
    parameters.  A command whose [auth_token] is truthy (a non-empty
    string, for instance) and differs from [T] is answered with the auth
    error before dispatch: the world is unchanged, so no handler has run. *)
Theorem auth_gate_truthy_token (T : pystr) (cmd : pydict) (w : world) :
  T <> [] ->
  (dict_lookup (py "auth_token") cmd = None
   \/ dict_lookup (py "auth_token") cmd = Some (JStr T) ->
   _execute_command_internal T (JDict cmd) w = dispatch cmd w
   /\ forall s m kwargs,
       get "type" cmd = JStr s ->
       s <> py "get_polyhaven_status" ->
       build_handlers (bpy w) !! s = Some m ->
       get_default "params" (JDict []) cmd = JDict kwargs ->
       calls (_execute_command_internal T (JDict cmd) w).2
       = calls w ++ [(m, kwargs)])
  /\ (forall v,
       dict_lookup (py "auth_token") cmd = Some v ->
       truthy v = true -> v <> JStr T ->
       _execute_command_internal T (JDict cmd) w = (inr auth_error, w)).
Proof.
  intros HT. rewrite execute_internal_gate. split.
  - intros Hpass.
    assert (auth_rejects T cmd = false) as ->.
    { apply not_true_iff_false. rewrite auth_rejects_spec.
      destruct Hpass as [H|H].
      - rewrite (get_absent _ _ H). cbn [truthy]. intros [? _]. discriminate.
      - rewrite (get_present _ _ _ H). prop_tauto. }
    split; [done|]. intros s m kwargs Ht Hs Hm Hp.
    rewrite (dispatch_table_hit _ _ _ _ Ht Hs Hm), Hp.
    apply run_handler_calls.
  - intros v Hv Htr Hne.
    assert (auth_rejects T cmd = true) as ->; [|done].
    apply auth_rejects_spec. by rewrite (get_present _ _ _ Hv).
Qed.

(** C10: a command whose [auth_token] field is present and is the empty
    string passes the gate and is dispatched, although the empty string
    differs from the non-empty token of the listener; among string tokens
    the gate rejects exactly those that are non-empty and unequal to it. *)
Theorem empty_token_is_dispatched (T : pystr) (cmd : pydict) (w : world) :
  T <> [] ->
  (dict_lookup (py "auth_token") cmd = Some (JStr []) ->
   JStr [] <> JStr T
   /\ _execute_command_internal T (JDict cmd) w = dispatch cmd w
   /\ forall s m kwargs,
       get "type" cmd = JStr s ->
       s <> py "get_polyhaven_status" ->
       build_handlers (bpy w) !! s = Some m ->
       get_default "params" (JDict []) cmd = JDict kwargs ->
       calls (_execute_command_internal T (JDict cmd) w).2
       = calls w ++ [(m, kwargs)])
  /\ (forall t,
       dict_lookup (py "auth_token") cmd = Some (JStr t) ->
       auth_rejects T cmd = true <-> t <> [] /\ t <> T).
Proof.
  intros HT. rewrite execute_internal_gate. split.
  - intros He.
    assert (auth_rejects T cmd = false) as ->.
    { apply not_true_iff_false. rewrite auth_rejects_spec.
      rewrite (get_present _ _ _ He). cbn [truthy].
      rewrite bool_decide_true by done. intros [? _]. discriminate. }
    split; [congruence|]. split; [done|].
    intros s m kwargs Ht Hs Hm Hp.
    rewrite (dispatch_table_hit _ _ _ _ Ht Hs Hm), Hp.
    apply run_handler_calls.
  - intros t Ht. rewrite auth_rejects_spec, (get_present _ _ _ Ht).
    cbn [truthy]. rewrite negb_true_iff, bool_decide_eq_false.
    split; intros [H1 H2]; (split; [done|congruence]).
Qed.

(** ** Dispatch *)

Lemma execute_command_of_internal (T : pystr) (command : json) (w : world)
    (response : json) (w' : world) :
  _execute_command_internal T command w = (inr response, w') ->
  execute_command T command w = (response, w').
Proof. unfold execute_command. by intros ->. Qed.

(** C6: a command that passes the auth gate and whose type string maps to
    no handler of the table built from the current flags gets exactly the
    response with status "error" and message "Unknown command type: "
    followed by the type; the world is unchanged, so no handler has run,
    and the dispatcher returns this response instead of raising. *)
Theorem unknown_command_type (T : pystr) (cmd : pydict) (s : pystr)
    (w : world) :
  auth_rejects T cmd = false ->
  get "type" cmd = JStr s ->
  build_handlers (bpy w) !! s = None ->
  _execute_command_internal T (JDict cmd) w
  = (inr (JDict [(py "status", JStr (py "error"));
                 (py "message", JStr (py "Unknown command type: " ++ s))]),
     w)
  /\ execute_command T (JDict cmd) w
     = (JDict [(py "status", JStr (py "error"));
               (py "message", JStr (py "Unknown command type: " ++ s))],
        w).
Proof.
  intros Hgate Ht Hm.
  assert (_execute_command_internal T (JDict cmd) w
          = (inr (error_response (py "Unknown command type: " ++ s)), w))
    as E.
  { rewrite execute_internal_gate, Hgate.
    by apply dispatch_table_miss. }
  split; [exact E|]. by apply execute_command_of_internal.
Qed.

(** C4: for a command that passes the gate and is dispatched to handler
    [m] with keyword arguments [kwargs]: if the handler raises exception
    [e], the response has status "error" and message [str(e)]; if it
    returns [result], whatever mapping that is, and be it one with an
    "error" key, the response has status "success" and carries [result]
    unchanged.  The status shortcut always answers with status "success". *)
Theorem handler_failure_channels (T : pystr) (cmd : pydict) (s : pystr)
    (m : string) (kwargs : pydict) (w : world) :
  auth_rejects T cmd = false ->
  get "type" cmd = JStr s ->
  s <> py "get_polyhaven_status" ->
  build_handlers (bpy w) !! s = Some m ->
  get_default "params" (JDict []) cmd = JDict kwargs ->
  (forall e b',
    call_method m kwargs (bpy w) = (inl e, b') ->
    execute_command T (JDict cmd) w
    = (JDict [(py "status", JStr (py "error"));
              (py "message", JStr (exn_str e))],
       {| bpy := b'; calls := calls w ++ [(m, kwargs)] |}))
  /\ (forall result b',
    call_method m kwargs (bpy w) = (inr result, b') ->
    execute_command T (JDict cmd) w
    = (JDict [(py "status", JStr (py "success")); (py "result", result)],
       {| bpy := b'; calls := calls w ++ [(m, kwargs)] |})).
Proof.
  intros Hgate Ht Hs Hm Hp.
  assert (forall r b',
    call_method m kwargs (bpy w) = (r, b') ->
    execute_command T (JDict cmd) w
    = (match r with
       | inl e => error_response (exn_str e)
       | inr result => success_response result
       end,
       {| bpy := b'; calls := calls w ++ [(m, kwargs)] |})) as H.
  { intros r b' Hc. apply execute_command_of_internal.
    rewrite execute_internal_gate, Hgate.
    rewrite (dispatch_table_hit _ _ _ _ Ht Hs Hm), Hp.
    unfold run_handler. rewrite invoke_spec, Hc. by destruct r. }
  split; intros x b' Hc; apply (H _ _ Hc).
Qed.

(** C3, as amended: the four asset-marketplace groups are gated.  For a
    command that passes the gate and whose type is a name of such a group,
    the table built at this dispatch holds the name exactly when the flag
    of the group is set in the host state of this very call: with the
    flag set the command runs the handler of that name, with the flag
    cleared it gets the unknown-command error and the world is unchanged.
    The base, AI and advanced groups are merged unconditionally: their
    names resolve whatever the flags. *)
Theorem feature_gating_at_dispatch (T : pystr) (cmd : pydict) (n : string)
    (w : world) :
  auth_rejects T cmd = false ->
  get "type" cmd = JStr (py n) ->
  (forall flag group,
    (flag, group) ∈ gated_groups -> n ∈ group ->
    (build_handlers (bpy w) !! py n = Some n <-> flag (bpy w) = true)
    /\ (flag (bpy w) = true ->
        _execute_command_internal T (JDict cmd) w
        = (inr (run_handler n (get_default "params" (JDict []) cmd) w).1,
           (run_handler n (get_default "params" (JDict []) cmd) w).2))
    /\ (flag (bpy w) = false ->
        _execute_command_internal T (JDict cmd) w
        = (inr (unknown_command (JStr (py n))), w)))
  /\ (n ∈ always_on -> build_handlers (bpy w) !! py n = Some n).
Proof.
  intros Hgate Ht. split.
  - intros flag group Hg Hn.
    pose proof (gated_flag_decides (bpy w) flag group n Hg Hn) as Hav.
    assert (n <> "get_polyhaven_status"%string) as Hne.
    { intros ->.
      assert (available (bpy w) "get_polyhaven_status"
              <-> flag (bpy w) = true) as H1 by done.
      assert (available
                {| scene_name := []; scene_objects := [];
                   data_materials := [];
                   blenderforge_use_polyhaven := false;
                   blenderforge_use_hyper3d := false;
                   blenderforge_use_sketchfab := false;
                   blenderforge_use_hunyuan3d := false |}
                "get_polyhaven_status") as H2.
      { left. apply (bool_decide_unpack _). vm_compute. exact I. }
      apply (gated_flag_decides _ flag group _ Hg Hn) in H2.
      unfold gated_groups in Hg.
      repeat (apply elem_of_cons in Hg as [Hg|Hg];
              [injection Hg as -> _; discriminate|]).
      inversion Hg. }
    split; [|split].
    + rewrite build_handlers_lookup. prop_tauto.
    + intros Hf. rewrite execute_internal_gate, Hgate.
      apply (dispatch_table_hit _ (py n)); [done| |].
      * intros H. by apply py_inj in H.
      * apply build_handlers_lookup. prop_tauto.
    + intros Hf. rewrite execute_internal_gate, Hgate.
      apply (dispatch_table_miss _ (py n)); [done|].
      apply build_handlers_None. intros m Hm Heq.
      apply py_inj in Heq. subst m. apply Hav in Hm. congruence.
  - intros Hn. apply build_handlers_lookup.
    split; [done|]. by apply always_on_available.
Qed.

(** ** Scene information *)

Lemma collect_objects_take (i : nat) (objs : list scene_object)
    (acc : list json) :
  collect_objects i objs acc = acc ++ (obj_info <$> take (10 - i) objs).
Proof.
  revert i acc.
  induction objs as [|obj objs IH]; intros i acc; cbn [collect_objects].
  - rewrite take_nil. simpl. by rewrite List.app_nil_r.
  - destruct (10 <=? i)%nat eqn:E.
    + apply Nat.leb_le in E. replace (10 - i)%nat with 0%nat by lia.
      rewrite take_0. simpl. by rewrite List.app_nil_r.
    + apply Nat.leb_gt in E. rewrite IH.
      replace (10 - i)%nat with (S (10 - S i)) by lia.
      simpl. by rewrite <- List.app_assoc.
Qed.

(** C7: a command of type "get_scene_info" with empty parameters and an
    [auth_token] equal to the token of the listener, run against a scene
    named "Scene" with no objects and no materials, is answered with
    status "success" and the result mapping name "Scene", object_count 0,
    objects the empty list, materials_count 0. *)
Theorem get_scene_info_empty_scene (T : pystr) (f1 f2 f3 f4 : bool)
    (log : list (string * pydict)) :
  let cmd := JDict [(py "type", JStr (py "get_scene_info"));
                    (py "params", JDict []);
                    (py "auth_token", JStr T)] in
  let b := {| scene_name := py "Scene"; scene_objects := [];
              data_materials := [];
              blenderforge_use_polyhaven := f1;
              blenderforge_use_hyper3d := f2;
              blenderforge_use_sketchfab := f3;
              blenderforge_use_hunyuan3d := f4 |} in
  execute_command T cmd {| bpy := b; calls := log |}
  = (JDict [(py "status", JStr (py "success"));
            (py "result",
             JDict [(py "name", JStr (py "Scene"));
                    (py "object_count", JInt 0);
                    (py "objects", JList []);
                    (py "materials_count", JInt 0)])],
     {| bpy := b; calls := log ++ [("get_scene_info"%string, [])] |}).
Proof.
  intros cmd b. apply execute_command_of_internal.
  unfold cmd. rewrite execute_internal_gate.
  assert (auth_rejects T
            [(py "type", JStr (py "get_scene_info")); (py "params", JDict []);
             (py "auth_token", JStr T)] = false) as ->.
  { apply not_true_iff_false. rewrite auth_rejects_spec.
    assert (get "auth_token"
              [(py "type", JStr (py "get_scene_info"));
               (py "params", JDict []); (py "auth_token", JStr T)]
            = JStr T) as -> by reflexivity.
    prop_tauto. }
  rewrite (dispatch_table_hit _ (py "get_scene_info") "get_scene_info").
  - reflexivity.
  - reflexivity.
  - intros H. by apply py_inj in H.
  - apply build_handlers_lookup. split; [done|]. left.
    apply (bool_decide_unpack _). vm_compute. exact I.
Qed.

(** C9: [get_scene_info] lists the first ten objects of the scene, in
    scene order, each with its name, its type and its location rounded to
    two decimals, so the list has at most ten entries, while
    "object_count" is the number of all objects of the scene. *)
Theorem get_scene_info_truncates (b : blender) :
  get_scene_info b
  = JDict [(py "name", JStr (scene_name b));
           (py "object_count", JInt (Z.of_nat (length (scene_objects b))));
           (py "objects", JList (obj_info <$> take 10 (scene_objects b)));
           (py "materials_count",
            JInt (Z.of_nat (length (data_materials b))))]
  /\ (length (obj_info <$> take 10 (scene_objects b)) <= 10)%nat
  /\ (forall i obj, (i < 10)%nat -> scene_objects b !! i = Some obj ->
        (obj_info <$> take 10 (scene_objects b)) !! i
        = Some (JDict [(py "name", JStr (obj_name obj));
                       (py "type", JStr (obj_type obj));
                       (py "location",
                        JList [JFloat (round2 (obj_location obj).1.1);
                               JFloat (round2 (obj_location obj).1.2);
                               JFloat (round2 (obj_location obj).2)])])).
Proof.
  split; [|split].
  - unfold get_scene_info. by rewrite collect_objects_take.
  - rewrite length_fmap, length_take. lia.
  - intros i obj Hi Hl. rewrite list_lookup_fmap, lookup_take_lt by done.
    rewrite Hl. cbn. unfold obj_info.
    by destruct (obj_location obj) as [[x y] z].
Qed.

(** ** The client-side receive loop *)

Lemma receive_loop_app (events rest : list recv_event)
    (chunks0 chunks : list pybytes) :
  receive_loop events chunks0 = Blocked chunks ->
  receive_loop (events ++ rest) chunks0 = receive_loop rest chunks.
Proof.
  revert chunks0.
  induction events as [|ev events IH]; intros chunks0 H;
    cbn [receive_loop app] in H |- *.
  - by injection H as ->.
  - destruct ev as [[|b chunk]|e].
    + destruct chunks0; [discriminate|].
      unfold after_receive_loop in H.
      destruct (loads_bytes _); discriminate.
    + destruct (loads_bytes _); try discriminate. by apply IH.
    + destruct (exn_kind_of e); try discriminate.
      unfold after_receive_loop in H. destruct chunks0; [discriminate|].
      destruct (loads_bytes _); discriminate.
Qed.

(** While the loop waits, what it has collected is not a JSON document. *)
Lemma receive_loop_blocked (events : list recv_event)
    (chunks0 chunks : list pybytes) :
  receive_loop events chunks0 = Blocked chunks ->
  chunks = chunks0 \/ (chunks <> [] /\ loads_bytes (concat chunks) = NotJSON).
Proof.
  revert chunks0.
  induction events as [|ev events IH]; intros chunks0 H;
    cbn [receive_loop] in H.
  - left. by injection H as ->.
  - destruct ev as [[|b chunk]|e].
    + destruct chunks0; [discriminate|].
      unfold after_receive_loop in H.
      destruct (loads_bytes (concat (_ :: chunks0))); discriminate.
    + destruct (loads_bytes (concat (chunks0 ++ _))) eqn:E;
        try discriminate.
      right. apply IH in H as [->|H]; [|done].
      split; [|done]. by destruct chunks0.
    + destruct (exn_kind_of e); try discriminate.
      unfold after_receive_loop in H. destruct chunks0; [discriminate|].
      destruct (loads_bytes (concat (_ :: chunks0))); discriminate.
Qed.

(** C5: in the client-side receive loop, a read of zero bytes that comes
    while the loop is still waiting for a complete response makes the
    receive operation raise, whatever has been collected so far: with
    nothing received it raises "Connection closed before receiving any
    data", with some bytes received it raises "Incomplete JSON response
    received"; what would have been read afterwards is never looked at. *)
Theorem zero_byte_read_fails (events rest : list recv_event)
    (chunks : list pybytes) :
  receive_full_response events = Blocked chunks ->
  receive_full_response (events ++ RecvData [] :: rest)
  = Raised (exception
              (match chunks with
               | [] => "Connection closed before receiving any data"
               | _ :: _ => "Incomplete JSON response received"
               end)).
Proof.
  unfold receive_full_response. intros H.
  rewrite (receive_loop_app _ _ _ _ H). cbn [receive_loop].
  apply receive_loop_blocked in H as [->|[Hne HN]]; [done|].
  destruct chunks as [|c chunks]; [done|].
  unfold after_receive_loop. by rewrite HN.
Qed.

(** ** The connection manager *)

Lemma connect_attempts_token (remaining : nat) (attempt max_attempts : Z)
    (c c' : BlenderConnection) (n n' : net) :
  connect_attempts remaining attempt max_attempts c n = (true, c', n') ->
  auth_token c' = env_token n /\ sock c' <> None.
Proof.
  revert attempt c n.
  induction remaining as [|remaining IH]; intros attempt c n H; cbn in H.
  - discriminate.
  - destruct (net_connect n (net_next n)).
    + injection H as <- _. done.
    + destruct (attempt <? max_attempts - 1)%Z; apply IH in H; exact H.
    + destruct (attempt <? max_attempts - 1)%Z; apply IH in H; exact H.
    + destruct (attempt <? max_attempts - 1)%Z; apply IH in H; exact H.
Qed.

(** C8, as amended: [disconnect()] closes the socket if one is open and
    leaves the manager without a socket; it is idempotent, and on a
    manager that is already disconnected it changes nothing; it leaves
    the cached auth token as it is.  The token is replaced by the next
    [connect()] that succeeds, which reads it from the environment. *)
Theorem disconnect_closes_and_keeps_token (c : BlenderConnection) (n : net) :
  sock (disconnect c n).1 = None
  /\ (forall s, sock c = Some s -> net_closed (disconnect c n).2
                                   = s :: net_closed n)
  /\ (sock c = None -> disconnect c n = (c, n))
  /\ disconnect (disconnect c n).1 (disconnect c n).2 = disconnect c n
  /\ auth_token (disconnect c n).1 = auth_token c
  /\ (forall retries c' n',
       connect retries (disconnect c n).1 (disconnect c n).2 = (true, c', n')
       -> auth_token c' = env_token n).
Proof.
  unfold disconnect.
  destruct (sock c) as [s|] eqn:E; cbn [fst snd].
  - repeat split; try done.
    + by intros s' [= ->].
    + intros retries c' n' H. unfold connect in H. cbn in H.
      by apply connect_attempts_token in H as [-> _].
  - rewrite E. repeat split; try done.
    intros retries c' n' H. unfold connect in H. rewrite E in H.
    by apply connect_attempts_token in H as [-> _].
Qed.

(** ** The codec: structure of the written text *)

Lemma json_ind' (P : json -> Prop) :
  P JNull -> (forall b, P (JBool b)) -> (forall z, P (JInt z)) ->
  (forall f, P (JFloat f)) -> (forall s, P (JStr s)) ->
  (forall l, Forall P l -> P (JList l)) ->
  (forall d, Forall (fun kv => P kv.2) d -> P (JDict d)) ->
  forall v, P v.
Proof.
  intros HN HB HI HF HS HL HD.
  fix IH 1. intros [|b|z|f|s|l|d].
  - exact HN.
  - apply HB.
  - apply HI.
  - apply HF.
  - apply HS.
  - apply HL. induction l as [|x l IHl]; constructor; [apply IH|exact IHl].
  - apply HD.
    induction d as [|[k x] d IHd]; constructor; [apply IH|exact IHd].
Qed.

Lemma dumps_list_cons (x : json) (l : list json) :
  dumps (JList (x :: l)) = ch "[" :: dumps x ++ dumps_items l ++ [ch "]"].
Proof.
  cbn [dumps]. do 3 f_equal.
Qed.

Lemma dumps_dict_cons (kv : pystr * json) (d : pydict) :
  dumps (JDict (kv :: d))
  = ch "{" :: dumps_pair kv ++ dumps_pairs d ++ [ch "}"].
Proof.
  destruct kv as [k x]. cbn [dumps]. unfold dumps_pair. cbn [fst snd].
  rewrite <- !List.app_assoc. do 4 f_equal.
  induction d as [|[k' y] d IH]; [done|].
  cbn [dumps_pairs flat_map]. unfold dumps_pair at 1. cbn [fst snd].
  rewrite <- !List.app_assoc. by rewrite IH.
Qed.

(** ** The codec: integers *)

Lemma chars_of_uint_digits (d : uint) :
  Forall (fun c => is_digit c = true) (chars_of_uint d).
Proof. induction d; cbn [chars_of_uint]; constructor; done. Qed.

Lemma uint_of_chars_of_uint (d : uint) : uint_of_chars (chars_of_uint d) = d.
Proof.
  induction d; cbn [chars_of_uint uint_of_chars]; [done|..];
    rewrite IHd; reflexivity.
Qed.

Lemma span_digits_app (ds rest : pystr) :
  Forall (fun c => is_digit c = true) ds -> not_digit_next rest ->
  span_digits (ds ++ rest) = (ds, rest).
Proof.
  intros Hds Hrest. induction Hds as [|c ds Hc _ IH]; cbn [app span_digits].
  - destruct rest as [|c rest]; [done|]. cbn [not_digit_next] in Hrest.
    cbn [span_digits]. by rewrite Hrest.
  - by rewrite Hc, IH.
Qed.

Lemma nzhead_not_D0 (d u : uint) : nzhead d <> D0 u.
Proof. induction d; cbn [nzhead]; try discriminate. exact IHd. Qed.

(** The decimal text of a positive number starts with a digit other
    than zero. *)
Lemma to_uint_head (p : positive) :
  exists c r, chars_of_uint (N.to_uint (Npos p)) = c :: r
              /\ is_digit c = true /\ c <> 48.
Proof.
  pose proof (DecimalPos.Unsigned.to_of (Pos.to_uint p)) as H.
  rewrite DecimalPos.Unsigned.of_to in H.
  change (N.to_uint (N.pos p)) with (Pos.to_uint p) in *.
  pose proof (DecimalPos.Unsigned.to_uint_nonzero p) as Hnz.
  unfold unorm in H.
  pose proof (nzhead_not_D0 (Pos.to_uint p)) as Hh.
  destruct (nzhead (Pos.to_uint p)) eqn:E;
    try (rewrite H; cbn [chars_of_uint]; eexists _, _;
         split; [reflexivity|split; [reflexivity|discriminate]]).
  - by destruct Hnz.
  - by destruct (Hh u).
Qed.

Lemma int_of_text_str_of_int (z : Z) : int_of_text (str_of_int z) = z.
Proof.
  destruct z as [|p|p]; cbn [str_of_int].
  - reflexivity.
  - destruct (to_uint_head p) as (c & r & E & Hc & _).
    unfold int_of_text. rewrite E.
    assert ((c =? ch "-") = false) as ->.
    { apply N.eqb_neq. intros ->. discriminate. }
    rewrite <- E, uint_of_chars_of_uint, DecimalN.Unsigned.of_to. done.
  - unfold int_of_text. change (45 =? ch "-") with true. cbv iota.
    rewrite uint_of_chars_of_uint, DecimalN.Unsigned.of_to. done.
Qed.

Lemma after_value_head (c : N) (rest : pystr) :
  after_value (c :: rest) = true -> c = 44 \/ c = 93 \/ c = 125.
Proof.
  unfold after_value. rewrite !orb_true_iff, !N.eqb_eq.
  change (ch ",") with 44. change (ch "]") with 93.
  change (ch "}") with 125. drop_parameters. tauto.
Qed.

Lemma not_digit_after_value (rest : pystr) :
  after_value rest = true -> not_digit_next rest.
Proof.
  destruct rest as [|c rest]; [done|]. intros H.
  apply after_value_head in H. unfold not_digit_next, is_digit.
  apply andb_false_iff. rewrite !N.leb_gt. lia.
Qed.

Lemma lex_frac_after_value (rest : pystr) :
  after_value rest = true -> lex_frac rest = ([], rest).
Proof.
  destruct rest as [|c rest]; [done|]. intros H.
  apply after_value_head in H. unfold lex_frac.
  assert ((c =? ch ".") = false) as ->; [|done].
  apply N.eqb_neq. change (ch ".") with 46. lia.
Qed.

Lemma lex_exp_after_value (rest : pystr) :
  after_value rest = true -> lex_exp rest = ([], rest).
Proof.
  destruct rest as [|c rest]; [done|]. intros H.
  apply after_value_head in H. unfold lex_exp.
  assert ((c =? ch "e") = false) as ->
    by (apply N.eqb_neq; change (ch "e") with 101; lia).
  assert ((c =? ch "E") = false) as ->
    by (apply N.eqb_neq; change (ch "E") with 69; lia).
  done.
Qed.

Lemma lex_integer_str_of_int (z : Z) (rest : pystr) :
  not_digit_next rest ->
  lex_integer (str_of_int z ++ rest) = Some (str_of_int z, rest).
Proof.
  intros Hrest.
  assert (forall p sign,
    match chars_of_uint (N.to_uint (N.pos p)) ++ rest with
    | [] => None
    | c :: r' =>
      if c =? 48 then Some (sign ++ [c], r')
      else if is_digit c
      then let '(ds, r'') := span_digits r' in Some (sign ++ c :: ds, r'')
      else None
    end = Some (sign ++ chars_of_uint (N.to_uint (N.pos p)), rest)) as Hpos.
  { intros p sign.
    destruct (to_uint_head p) as (c & r & E & Hc & Hz).
    pose proof (chars_of_uint_digits (N.to_uint (N.pos p))) as Hd.
    rewrite E in Hd |- *. cbn [app].
    apply N.eqb_neq in Hz. rewrite Hz, Hc.
    rewrite span_digits_app; [done| |done]. by inversion Hd. }
  destruct z as [|p|p]; unfold lex_integer; cbn [str_of_int].
  - reflexivity.
  - destruct (to_uint_head p) as (c & r & E & Hc & _).
    specialize (Hpos p []). rewrite E in Hpos |- *. cbn [app] in Hpos |- *.
    assert ((c =? ch "-") = false) as ->.
    { apply N.eqb_neq. intros ->. discriminate. }
    exact Hpos.
  - cbn [app]. change (45 =? ch "-") with true. cbv iota.
    apply (Hpos p [45]).
Qed.

Lemma match_number_str_of_int (z : Z) (rest : pystr) :
  after_value rest = true ->
  match_number (str_of_int z ++ rest) = Some (JInt z, rest).
Proof.
  intros Hrest. unfold match_number.
  rewrite lex_integer_str_of_int by by apply not_digit_after_value.
  rewrite lex_frac_after_value, lex_exp_after_value by done.
  by rewrite int_of_text_str_of_int.
Qed.

(** ** The codec: strings *)

Lemma unhexdigit_hexdigit (k : N) : k < 16 -> unhexdigit (hexdigit k) = Some k.
Proof.
  intros H.
  assert (k = 0 \/ k = 1 \/ k = 2 \/ k = 3 \/ k = 4 \/ k = 5 \/ k = 6
          \/ k = 7 \/ k = 8 \/ k = 9 \/ k = 10 \/ k = 11 \/ k = 12
          \/ k = 13 \/ k = 14 \/ k = 15) as Hk by lia.
  repeat (destruct Hk as [->|Hk]; [reflexivity|]). by subst.
Qed.

Lemma unhex4_hex4 (n : N) :
  n < 65536 ->
  exists a b c d, hex4 n = [a; b; c; d] /\ unhex4 a b c d = Some n.
Proof.
  intros H. unfold hex4. eexists _, _, _, _. split; [reflexivity|].
  unfold unhex4.
  rewrite !unhexdigit_hexdigit.
  - f_equal.
    pose proof (N.div_mod n 16 ltac:(lia)) as E0.
    pose proof (N.div_mod (n / 16) 16 ltac:(lia)) as E1.
    rewrite N.Div0.div_div in E1. change (16 * 16) with 256 in E1.
    pose proof (N.div_mod (n / 256) 16 ltac:(lia)) as E2.
    rewrite N.Div0.div_div in E2. change (256 * 16) with 4096 in E2.
    lia.
  - apply N.mod_lt. lia.
  - apply N.mod_lt. lia.
  - apply N.mod_lt. lia.
  - apply N.Div0.div_lt_upper_bound; lia.
Qed.

Lemma lor_high_low (a b : N) :
  b < 1024 -> N.lor (a * 1024) b = a * 1024 + b.
Proof.
  intros H.
  assert (N.land (a * 2 ^ 10) b = 0) as H0.
  { apply N.bits_inj. intros m. rewrite N.land_spec, N.bits_0.
    destruct (N.lt_ge_cases m 10) as [Hm|Hm].
    - by rewrite N.mul_pow2_bits_low.
    - rewrite <- (N.mod_small b (2 ^ 10)) by (change (2 ^ 10) with 1024; lia).
      rewrite N.mod_pow2_bits_high by done. apply andb_false_r. }
  change (2 ^ 10) with 1024 in H0.
  by rewrite N.add_nocarry_lxor, N.lxor_lor.
Qed.

(** The pair of surrogates written for a code point above the BMP, and
    the code point read back from that pair. *)
Lemma surrogate_pair (c : N) :
  0x10000 <= c < 0x110000 ->
  let n := c - 0x10000 in
  let s1 := N.lor 0xD800 (N.land (N.shiftr n 10) 0x3FF) in
  let s2 := N.lor 0xDC00 (N.land n 0x3FF) in
  s1 < 65536 /\ s2 < 65536 /\ is_high s1 = true /\ is_low s2 = true
  /\ 0x10000 + N.lor (N.shiftl (s1 - 0xD800) 10) (s2 - 0xDC00) = c.
Proof.
  intros Hc n s1 s2.
  assert (n < 1048576) as Hn by (unfold n; lia).
  assert (n / 1024 < 1024) as Hq by (apply N.Div0.div_lt_upper_bound; lia).
  assert (n mod 1024 < 1024) as Hr by (apply N.mod_lt; lia).
  assert (s1 = 0xD800 + n / 1024) as E1.
  { unfold s1. change 0x3FF with (N.ones 10).
    rewrite N.land_ones, N.shiftr_div_pow2. change (2 ^ 10) with 1024.
    rewrite (N.mod_small (n / 1024)) by done.
    change 0xD800 with (54 * 1024). by apply lor_high_low. }
  assert (s2 = 0xDC00 + n mod 1024) as E2.
  { unfold s2. change 0x3FF with (N.ones 10).
    rewrite N.land_ones. change (2 ^ 10) with 1024.
    change 0xDC00 with (55 * 1024). by apply lor_high_low. }
  pose proof (N.div_mod n 1024 ltac:(lia)) as Hdm.
  assert (0x10000 + n = c) as Hnc by (unfold n; lia).
  clearbody s1 s2 n. subst s1 s2.
  generalize dependent (n / 1024). generalize dependent (n mod 1024).
  intros y Hy x Hx Hdm. unfold is_high, is_low.
  rewrite !andb_true_iff, !N.leb_le.
  replace (0xD800 + x - 0xD800) with x by lia.
  replace (0xDC00 + y - 0xDC00) with y by lia.
  rewrite N.shiftl_mul_pow2. change (2 ^ 10) with 1024.
  rewrite lor_high_low by done. lia.
Qed.

Lemma scanstring_plain (c : N) (t : pystr) :
  c <> dquote -> c <> ch "\" -> 32 <= c ->
  scanstring (c :: t)
  = match scanstring t with
    | Some (str, r') => Some (c :: str, r')
    | None => None
    end.
Proof.
  intros H1 H2 H3. cbn [scanstring].
  apply N.eqb_neq in H1, H2. rewrite H1, H2.
  assert ((c <? 32) = false) as -> by (apply N.ltb_ge; lia). done.
Qed.

Lemma scanstring_short (e : N) (t : pystr) :
  e <> ch "u" ->
  scanstring (ch "\" :: e :: t)
  = match unescape e with
    | None => None
    | Some c1 =>
      match scanstring t with
      | Some (str, r') => Some (c1 :: str, r')
      | None => None
      end
    end.
Proof.
  intros H. cbn [scanstring].
  change (ch "\" =? dquote) with false. change (ch "\" =? ch "\") with true.
  apply N.eqb_neq in H. by rewrite H.
Qed.

Lemma scanstring_u_single (a b c d uni : N) (t : pystr) :
  unhex4 a b c d = Some uni -> is_high uni = false ->
  scanstring (ch "\" :: ch "u" :: a :: b :: c :: d :: t)
  = match scanstring t with
    | Some (str, r') => Some (uni :: str, r')
    | None => None
    end.
Proof.
  intros H1 H2. cbn [scanstring].
  change (ch "\" =? dquote) with false. change (ch "\" =? ch "\") with true.
  change (ch "u" =? ch "u") with true. cbv iota.
  by rewrite H1, H2.
Qed.

Lemma scanstring_u_pair (a b c d a2 b2 c2 d2 uni uni2 : N) (t : pystr) :
  unhex4 a b c d = Some uni -> is_high uni = true ->
  unhex4 a2 b2 c2 d2 = Some uni2 -> is_low uni2 = true ->
  scanstring (ch "\" :: ch "u" :: a :: b :: c :: d
              :: ch "\" :: ch "u" :: a2 :: b2 :: c2 :: d2 :: t)
  = match scanstring t with
    | Some (str, r') =>
      Some (0x10000 + N.lor (N.shiftl (uni - 0xD800) 10) (uni2 - 0xDC00)
            :: str, r')
    | None => None
    end.
Proof.
  intros H1 H2 H3 H4. cbn [scanstring].
  change (ch "\" =? dquote) with false. change (ch "\" =? ch "\") with true.
  change (ch "u" =? ch "u") with true. cbv iota.
  rewrite H1, H2. cbn [andb]. by rewrite H3, H4.
Qed.

Lemma is_high_surrogate (c : N) : is_high c = true -> is_surrogate c = true.
Proof.
  unfold is_high, is_surrogate. rewrite !andb_true_iff, !N.leb_le. lia.
Qed.

Ltac short_escape E :=
  apply N.eqb_eq in E; subst; cbn [app py map list_ascii_of_string];
  rewrite scanstring_short by discriminate; reflexivity.

(** Reading back the escape written for one code point. *)
Lemma scanstring_escape_char (c : N) (t : pystr) :
  scalar c = true ->
  scanstring (escape_char c ++ t)
  = match scanstring t with
    | Some (str, r') => Some (c :: str, r')
    | None => None
    end.
Proof.
  intros Hc. unfold scalar in Hc.
  apply andb_true_iff in Hc as [Hlt Hns].
  apply N.ltb_lt in Hlt. apply negb_true_iff in Hns.
  unfold escape_char.
  destruct (c =? dquote) eqn:E1; [short_escape E1|].
  destruct (c =? ch "\") eqn:E2; [short_escape E2|].
  destruct (c =? 10) eqn:E3; [short_escape E3|].
  destruct (c =? 13) eqn:E4; [short_escape E4|].
  destruct (c =? 9) eqn:E5; [short_escape E5|].
  destruct (c =? 8) eqn:E6; [short_escape E6|].
  destruct (c =? 12) eqn:E7; [short_escape E7|].
  apply N.eqb_neq in E1, E2.
  destruct ((32 <=? c) && (c <=? 126)) eqn:E8.
  { apply andb_true_iff in E8 as [E8 _]. apply N.leb_le in E8.
    cbn [app]. by apply scanstring_plain. }
  destruct (c <? 65536) eqn:E9.
  - apply N.ltb_lt in E9.
    destruct (unhex4_hex4 c E9) as (a & b & c' & d & -> & Hu).
    cbn [app py map list_ascii_of_string].
    apply (scanstring_u_single a b c' d c t Hu).
    destruct (is_high c) eqn:Eh; [|done].
    apply is_high_surrogate in Eh. congruence.
  - apply N.ltb_ge in E9.
    destruct (surrogate_pair c ltac:(lia)) as (H1 & H2 & H3 & H4 & H5).
    cbv zeta.
    destruct (unhex4_hex4 _ H1) as (a & b & c' & d & -> & Hu1).
    destruct (unhex4_hex4 _ H2) as (a2 & b2 & c2 & d2 & -> & Hu2).
    cbn [app py map list_ascii_of_string].
    refine (eq_trans
              (scanstring_u_pair a b c' d a2 b2 c2 d2 _ _ t Hu1 H3 Hu2 H4)
              _).
    by rewrite H5.
Qed.

Lemma scanstring_escape_chars (s rest : pystr) :
  valid_str s = true ->
  scanstring (escape_chars s ++ dquote :: rest) = Some (s, rest).
Proof.
  unfold valid_str, escape_chars.
  induction s as [|c s IH]; cbn [forallb flat_map app]; intros H.
  - reflexivity.
  - apply andb_true_iff in H as [Hc Hs].
    rewrite <- List.app_assoc, scanstring_escape_char by done.
    by rewrite IH.
Qed.

(** ** The codec: texts that stop short *)

Lemma app_eq_split {A : Type} (p q a b : list A) :
  p ++ q = a ++ b ->
  (exists a2, a2 <> [] /\ a = p ++ a2 /\ q = a2 ++ b)
  \/ (exists p', p = a ++ p' /\ b = p' ++ q).
Proof.
  intros H. apply List.app_eq_app in H as [l [[-> ->]|[-> ->]]].
  - right. by exists l.
  - destruct l as [|x l].
    + right. exists []. by rewrite !List.app_nil_r.
    + left. by exists (x :: l).
Qed.

Lemma cons_eq_split {A : Type} (p q t : list A) (c : A) :
  p ++ q = c :: t -> p = [] \/ exists p', p = c :: p' /\ p' ++ q = t.
Proof.
  destruct p as [|x p]; [by left|]. intros [= -> <-]. right. by exists p.
Qed.

Ltac cut_prefix H Hq :=
  repeat match type of H with
  | ?p ++ _ = _ :: _ =>
    is_var p; destruct p as [|? p]; [|cbn [app] in H; injection H as -> H]
  | ?p ++ _ = [] =>
    is_var p; destruct p; [by destruct Hq|discriminate H]
  end.

Lemma scanstring_lone_backslash : scanstring [ch "\"] = None.
Proof. reflexivity. Qed.

Lemma scanstring_u_few (r1 : pystr) :
  (length r1 < 4)%nat -> scanstring (ch "\" :: ch "u" :: r1) = None.
Proof.
  intros H. cbn [scanstring].
  change (ch "\" =? dquote) with false. change (ch "\" =? ch "\") with true.
  change (ch "u" =? ch "u") with true. cbv iota.
  destruct r1 as [|a [|b [|c [|d r2]]]]; try reflexivity.
  cbn [length] in H. lia.
Qed.

Lemma scanstring_u_none (a b c d : N) (r2 : pystr) :
  scanstring r2 = None ->
  (forall r3, r2 = ch "\" :: ch "u" :: r3 -> (length r3 < 4)%nat) ->
  scanstring (ch "\" :: ch "u" :: a :: b :: c :: d :: r2) = None.
Proof.
  intros H1 H2. cbn [scanstring].
  change (ch "\" =? dquote) with false. change (ch "\" =? ch "\") with true.
  change (ch "u" =? ch "u") with true. cbv iota.
  destruct (unhex4 a b c d) as [uni|]; [|done].
  rewrite H1. destruct (is_high uni); [|done].
  destruct r2 as [|b1 [|b2 r3]]; try done.
  destruct ((b1 =? ch "\") && (b2 =? ch "u")) eqn:E; [|done].
  apply andb_true_iff in E as [E1 E2]. apply N.eqb_eq in E1, E2. subst.
  specialize (H2 r3 eq_refl).
  destruct r3 as [|a2 [|b3 [|c2 [|d2 r4]]]]; try reflexivity.
  cbn [length] in H2. lia.
Qed.

Ltac cut_done :=
  first
    [ exact eq_refl
    | exact scanstring_lone_backslash
    | apply scanstring_u_few; cbn [length]; lia
    | apply scanstring_u_none;
      [ first [ exact eq_refl
              | exact scanstring_lone_backslash
              | apply scanstring_u_few; cbn [length]; lia ]
      | let r3 := fresh in let E := fresh in
        intros r3 E; first [discriminate E
                            | injection E as <-; cbn [length]; lia] ] ].

Lemma scanstring_cut_short (x : N) (p q : pystr) :
  q <> [] -> [ch "\"; x] = p ++ q -> scanstring p = None.
Proof.
  intros Hq H. symmetry in H.
  apply cons_eq_split in H as [->|(p' & -> & H)]; [done|].
  apply cons_eq_split in H as [->|(p'' & -> & H)]; [done|].
  destruct p''; [by destruct Hq|discriminate].
Qed.

Lemma scanstring_cut_u (a b c d : N) (p q : pystr) :
  q <> [] -> [ch "\"; ch "u"; a; b; c; d] = p ++ q -> scanstring p = None.
Proof.
  intros Hq H. symmetry in H. cut_prefix H Hq; cut_done.
Qed.

Lemma scanstring_cut_pair (a b c d a2 b2 c2 d2 : N) (p q : pystr) :
  q <> [] ->
  [ch "\"; ch "u"; a; b; c; d; ch "\"; ch "u"; a2; b2; c2; d2] = p ++ q ->
  scanstring p = None.
Proof.
  intros Hq H. symmetry in H. cut_prefix H Hq; cut_done.
Qed.

Lemma escape_char_shape (c : N) :
  (exists x, escape_char c = [ch "\"; x])
  \/ escape_char c = [c]
  \/ (exists a b c' d, escape_char c = [ch "\"; ch "u"; a; b; c'; d])
  \/ (exists a b c' d a2 b2 c2 d2,
       escape_char c = [ch "\"; ch "u"; a; b; c'; d;
                        ch "\"; ch "u"; a2; b2; c2; d2]).
Proof.
  unfold escape_char.
  repeat match goal with
  | |- context [if ?x then _ else _] =>
    destruct x; [try (left; eexists; reflexivity)|]
  end.
  - right. by left.
  - right. right. left. unfold hex4. by eexists _, _, _, _.
  - right. right. right. unfold hex4. by eexists _, _, _, _, _, _, _, _.
Qed.

Lemma scanstring_cut_escape (c : N) (p q : pystr) :
  q <> [] -> escape_char c = p ++ q -> scanstring p = None.
Proof.
  intros Hq H.
  destruct (escape_char_shape c)
    as [(x & E)|[E|[(a & b & c' & d & E)|(a & b & c' & d & a2 & b2 & c2
                                         & d2 & E)]]];
    rewrite E in H.
  - by apply (scanstring_cut_short x p q).
  - destruct p as [|y p]; [done|]. injection H as _ H.
    destruct p; [|discriminate]. by destruct Hq.
  - by apply (scanstring_cut_u a b c' d p q).
  - by apply (scanstring_cut_pair a b c' d a2 b2 c2 d2 p q).
Qed.

(** A string text that stops before its closing quote does not scan. *)
Lemma scanstring_cut (s p q : pystr) :
  valid_str s = true -> q <> [] ->
  escape_chars s ++ [dquote] = p ++ q -> scanstring p = None.
Proof.
  unfold valid_str, escape_chars. revert p.
  induction s as [|c s IH]; cbn [forallb flat_map app]; intros p Hs Hq H.
  - symmetry in H. apply cons_eq_split in H as [->|(p' & -> & H)]; [done|].
    destruct p'; [|discriminate]. by destruct Hq.
  - apply andb_true_iff in Hs as [Hc Hs].
    rewrite <- List.app_assoc in H. symmetry in H.
    apply app_eq_split in H as [(a2 & Ha & E & _)|(p' & -> & E)].
    + by apply (scanstring_cut_escape c p a2).
    + rewrite scanstring_escape_char by done.
      by rewrite (IH p' Hs Hq E).
Qed.

(** ** The codec: fuel *)

Ltac mono_step H IH1 IH2 IH3 f' :=
  match type of H with
  | context [scan_once ?f ?x] =>
    let E := fresh "E" in
    destruct (scan_once f x) as [[? ?]|] eqn:E; [|discriminate H];
    rewrite (IH1 _ _ f' E) by lia
  | context [array_values ?f ?x] =>
    let E := fresh "E" in
    destruct (array_values f x) as [[? ?]|] eqn:E; [|discriminate H];
    rewrite (IH2 _ _ f' E) by lia
  | context [object_pairs ?f ?x] =>
    let E := fresh "E" in
    destruct (object_pairs f x) as [[? ?]|] eqn:E; [|discriminate H];
    rewrite (IH3 _ _ f' E) by lia
  | context [match ?x with _ => _ end] =>
    destruct x eqn:?; try discriminate H
  end.

(** More fuel never changes a result. *)
Lemma fuel_mono (f : nat) :
  (forall s r f', scan_once f s = Some r -> (f <= f')%nat ->
                  scan_once f' s = Some r)
  /\ (forall s r f', array_values f s = Some r -> (f <= f')%nat ->
                     array_values f' s = Some r)
  /\ (forall s r f', object_pairs f s = Some r -> (f <= f')%nat ->
                     object_pairs f' s = Some r).
Proof.
  induction f as [|f (IH1 & IH2 & IH3)].
  - repeat split; intros s r f' H; discriminate H.
  - repeat split; intros s r [|f'] H Hle; try lia.
    + cbn [scan_once] in H |- *.
      repeat mono_step H IH1 IH2 IH3 f'; exact H.
    + cbn [array_values] in H |- *.
      repeat mono_step H IH1 IH2 IH3 f'; exact H.
    + cbn [object_pairs] in H |- *.
      repeat mono_step H IH1 IH2 IH3 f'; exact H.
Qed.

(** ** The codec: reading back what was written *)

Lemma skip_ws_head (c : N) (r : pystr) :
  is_ws c = false -> skip_ws (c :: r) = c :: r.
Proof. intros H. cbn [skip_ws]. by rewrite H. Qed.

Lemma is_digit_not_ws (c : N) : is_digit c = true -> is_ws c = false.
Proof.
  unfold is_digit, is_ws. rewrite andb_true_iff, !N.leb_le. intros H.
  rewrite !orb_false_iff, !N.eqb_neq. lia.
Qed.

(** The text of a document starts with a character that is neither white
    space nor a closing bracket. *)
Lemma dumps_head (v : json) :
  valid_json v = true ->
  exists c r, dumps v = c :: r /\ is_ws c = false /\ c <> ch "]".
Proof.
  destruct v as [|[]|[|p|p]|f|s|[|x l]|[|[k x] d]]; intros Hv;
    try discriminate Hv;
    try (eexists _, _; split; [reflexivity|split; [reflexivity|discriminate]]).
  cbn [dumps str_of_int].
  destruct (to_uint_head p) as (c & r & -> & Hc & _).
  exists c, r. split; [done|]. split; [by apply is_digit_not_ws|].
  intros ->. discriminate Hc.
Qed.

Lemma skip_ws_dumps (v : json) (r : pystr) :
  valid_json v = true -> skip_ws (dumps v ++ r) = dumps v ++ r.
Proof.
  intros Hv. destruct (dumps_head v Hv) as (c & t & -> & Hc & _).
  by apply skip_ws_head.
Qed.

Lemma strip_prefix_head_ne (a : N) (lit : pystr) (c : N) (r : pystr) :
  a <> c -> strip_prefix (a :: lit) (c :: r) = None.
Proof. intros H. cbn [strip_prefix]. apply N.eqb_neq in H. by rewrite H. Qed.

(** A text that starts like a number is handed to the number scanner. *)
Lemma scan_once_number (fuel : nat) (c : N) (r : pystr) :
  is_digit c = true \/ c = ch "-" ->
  scan_once (S fuel) (c :: r)
  = match match_number (c :: r) with
    | Some res => Some res
    | None =>
      match strip_prefix (py "-Infinity") (c :: r) with
      | Some r' => Some (JFloat (float_of_literal (py "-Infinity")), r')
      | None => None
      end
    end.
Proof.
  intros Hc.
  assert (c <> dquote /\ c <> ch "{" /\ c <> ch "[" /\ c <> ch "n"
          /\ c <> ch "t" /\ c <> ch "f" /\ c <> ch "N" /\ c <> ch "I")
    as (H1 & H2 & H3 & H4 & H5 & H6 & H7 & H8).
  { destruct Hc as [Hc| ->]; [|repeat split; discriminate].
    unfold is_digit in Hc. rewrite andb_true_iff, !N.leb_le in Hc.
    change dquote with 34. change (ch "{") with 123.
    change (ch "[") with 91. change (ch "n") with 110.
    change (ch "t") with 116. change (ch "f") with 102.
    change (ch "N") with 78. change (ch "I") with 73. lia. }
  cbn [scan_once].
  apply N.eqb_neq in H1, H2, H3. rewrite H1, H2, H3.
  assert (strip_prefix (py "null") (c :: r) = None) as ->
    by (apply (strip_prefix_head_ne (ch "n")); congruence).
  assert (strip_prefix (py "true") (c :: r) = None) as ->
    by (apply (strip_prefix_head_ne (ch "t")); congruence).
  assert (strip_prefix (py "false") (c :: r) = None) as ->
    by (apply (strip_prefix_head_ne (ch "f")); congruence).
  destruct (match_number (c :: r)); [done|].
  assert (strip_prefix (py "NaN") (c :: r) = None) as ->
    by (apply (strip_prefix_head_ne (ch "N")); congruence).
  assert (strip_prefix (py "Infinity") (c :: r) = None) as ->
    by (apply (strip_prefix_head_ne (ch "I")); congruence).
  done.
Qed.

Lemma str_of_int_head (z : Z) :
  exists c r, str_of_int z = c :: r /\ (is_digit c = true \/ c = ch "-").
Proof.
  destruct z as [|p|p]; cbn [str_of_int].
  - eexists _, _. split; [done|]. by left.
  - destruct (to_uint_head p) as (c & r & -> & Hc & _).
    eexists _, _. split; [done|]. by left.
  - eexists _, _. split; [done|]. by right.
Qed.

Lemma scan_once_int (fuel : nat) (z : Z) (rest : pystr) :
  after_value rest = true ->
  scan_once (S fuel) (str_of_int z ++ rest) = Some (JInt z, rest).
Proof.
  intros Hr. pose proof (match_number_str_of_int z rest Hr) as H.
  destruct (str_of_int_head z) as (c & r & E & Hc). rewrite E in H |- *.
  cbn [app] in H |- *. by rewrite scan_once_number, H.
Qed.

Lemma dict_set_fresh (k : pystr) (v : json) (d : pydict) :
  k ∉ d.*1 -> dict_set k v d = d ++ [(k, v)].
Proof.
  induction d as [|[k' v'] d IH]; cbn [dict_set fmap list_fmap fst app];
    intros H; [done|].
  apply not_elem_of_cons in H as [H1 H2].
  rewrite decide_False by done. by rewrite IH.
Qed.

Lemma dict_of_pairs_nodup (d : pydict) : NoDup d.*1 -> dict_of_pairs d = d.
Proof.
  unfold dict_of_pairs.
  assert (forall acc, NoDup (acc ++ d).*1 ->
            fold_left (fun d kv => dict_set kv.1 kv.2 d) d acc = acc ++ d)
    as H; [|apply (H [])].
  induction d as [|[k v] d IH]; intros acc Hnd; cbn [fold_left fst snd].
  - by rewrite List.app_nil_r.
  - rewrite dict_set_fresh.
    + rewrite IH; rewrite <- List.app_assoc; done.
    + rewrite fmap_app in Hnd. apply NoDup_app in Hnd as (_ & Hnd & _).
      intros Hin. apply (Hnd k Hin). cbn. left.
Qed.

Lemma after_value_items (l : list json) (rest : pystr) :
  after_value (dumps_items l ++ ch "]" :: rest) = true.
Proof. by destruct l. Qed.

Lemma after_value_pairs (d : pydict) (rest : pystr) :
  after_value (dumps_pairs d ++ ch "}" :: rest) = true.
Proof. by destruct d. Qed.

Lemma dumps_items_cons (y : json) (l : list json) :
  dumps_items (y :: l) = ch "," :: ch " " :: dumps y ++ dumps_items l.
Proof. reflexivity. Qed.

Lemma dumps_pairs_cons (k : pystr) (y : json) (d : pydict) :
  dumps_pairs ((k, y) :: d)
  = ch "," :: ch " " :: dquote
    :: escape_chars k ++ dquote :: ch ":" :: ch " " :: dumps y
    ++ dumps_pairs d.
Proof.
  unfold dumps_pairs at 1. cbn [flat_map]. fold (dumps_pairs d).
  unfold dumps_pair, encode_basestring_ascii. cbn [fst snd].
  change (py ", ") with [ch ","; ch " "].
  change (py ": ") with [ch ":"; ch " "].
  cbn [app]. by rewrite <- !List.app_assoc.
Qed.

Lemma skip_ws_space (r : pystr) : skip_ws (ch " " :: r) = skip_ws r.
Proof. reflexivity. Qed.

Lemma array_values_dumps (l : list json) :
  Forall (fun y => valid_json y = true /\ reads_back y) l ->
  forall x fuel rest,
    valid_json x = true -> reads_back x ->
    (length (dumps x ++ dumps_items l) < fuel)%nat ->
    array_values fuel (dumps x ++ dumps_items l ++ ch "]" :: rest)
    = Some (x :: l, rest).
Proof.
  induction 1 as [|y l [Hvy Hy] Hl IH]; intros x fuel rest Hvx Hx Hf;
    (destruct fuel as [|fuel]; [lia|]); cbn [array_values];
    rewrite length_app in Hf.
  - rewrite Hx; [|lia|done]. cbn [dumps_items flat_map app].
    by rewrite skip_ws_head.
  - rewrite Hx; [|lia|apply after_value_items].
    rewrite dumps_items_cons in Hf |- *. cbn [app length] in Hf |- *.
    rewrite skip_ws_head by done.
    change (ch "," =? ch "]") with false.
    change (ch "," =? ch ",") with true. cbv iota.
    rewrite skip_ws_space, <- List.app_assoc, skip_ws_dumps by done.
    rewrite (IH y fuel rest); [done..|]. lia.
Qed.

Lemma object_pairs_dumps (d : pydict) :
  Forall (fun kv => valid_str kv.1 = true /\ valid_json kv.2 = true
                    /\ reads_back kv.2) d ->
  forall k x fuel rest,
    valid_str k = true -> valid_json x = true -> reads_back x ->
    (length (escape_chars k ++ dquote :: ch ":" :: ch " " :: dumps x
             ++ dumps_pairs d) < fuel)%nat ->
    object_pairs fuel
      (escape_chars k ++ dquote :: ch ":" :: ch " " :: dumps x
         ++ dumps_pairs d ++ ch "}" :: rest)
    = Some ((k, x) :: d, rest).
Proof.
  induction 1 as [|[k' y] d (Hvk' & Hvy & Hy) Hd IH];
    intros k x fuel rest Hvk Hvx Hx Hf;
    (destruct fuel as [|fuel]; [lia|]); cbn [object_pairs];
    rewrite scanstring_escape_chars by done;
    rewrite (skip_ws_head (ch ":")) by done;
    change (ch ":" =? ch ":") with true; cbv iota;
    rewrite skip_ws_space, skip_ws_dumps by done;
    rewrite length_app in Hf; cbn [length] in Hf; rewrite length_app in Hf.
  - rewrite Hx; [|lia|done]. cbn [dumps_pairs flat_map app].
    by rewrite skip_ws_head.
  - rewrite Hx; [|lia|apply after_value_pairs].
    rewrite dumps_pairs_cons in Hf |- *. cbn [app length] in Hf |- *.
    rewrite skip_ws_head by done.
    change (ch "," =? ch "}") with false.
    change (ch "," =? ch ",") with true. cbv iota.
    rewrite skip_ws_space, (skip_ws_head dquote) by done.
    change (dquote =? dquote) with true. cbv iota.
    rewrite <- !List.app_assoc. cbn [app]. rewrite <- !List.app_assoc.
    rewrite (IH k' y fuel rest); [done..|]. lia.
Qed.

Lemma valid_list_items (l : list json) :
  forallb valid_json l = true ->
  Forall (fun y => valid_json y = true -> reads_back y) l ->
  Forall (fun y => valid_json y = true /\ reads_back y) l.
Proof.
  induction l as [|y l IH]; cbn [forallb]; intros Hv HF; [constructor|].
  apply andb_true_iff in Hv as [Hy Hl]. inversion HF; subst.
  constructor; auto.
Qed.

Lemma valid_dict_pairs (d : pydict) :
  forallb (fun kv => valid_str kv.1 && valid_json kv.2) d = true ->
  Forall (fun kv => valid_json kv.2 = true -> reads_back kv.2) d ->
  Forall (fun kv => valid_str kv.1 = true /\ valid_json kv.2 = true
                    /\ reads_back kv.2) d.
Proof.
  induction d as [|kv d IH]; cbn [forallb]; intros Hv HF; [constructor|].
  apply andb_true_iff in Hv as [Hkv Hd].
  apply andb_true_iff in Hkv as [Hk Hy]. inversion HF; subst.
  constructor; auto.
Qed.

(** Every valid document is read back from its text. *)
Lemma scan_once_dumps (v : json) : valid_json v = true -> reads_back v.
Proof.
  induction v as [|b|z|f|s|l IH|d IH] using json_ind'; intros Hv fuel rest Hf Hr.
  - destruct fuel; [cbn in Hf; lia|]. reflexivity.
  - destruct fuel; [destruct b; cbn in Hf; lia|]. by destruct b.
  - destruct fuel.
    + destruct (str_of_int_head z) as (c & r & E & _).
      cbn [dumps] in Hf. rewrite E in Hf. cbn in Hf. lia.
    + by apply scan_once_int.
  - discriminate Hv.
  - destruct fuel; [cbn in Hf; lia|].
    cbn [dumps valid_json] in Hv |- *. unfold encode_basestring_ascii.
    cbn [app scan_once]. change (dquote =? dquote) with true. cbv iota.
    rewrite <- List.app_assoc. cbn [app].
    by rewrite scanstring_escape_chars.
  - cbn [valid_json] in Hv. destruct l as [|x l].
    + destruct fuel; [cbn in Hf; lia|]. reflexivity.
    + apply valid_list_items in IH; [|done]. inversion IH as [|? ? [Hvx Hx] Hl].
      subst. rewrite dumps_list_cons in Hf |- *.
      destruct fuel as [|fuel]; [cbn in Hf; lia|].
      cbn [app scan_once length] in Hf |- *.
      change (ch "[" =? dquote) with false.
      change (ch "[" =? ch "{") with false.
      change (ch "[" =? ch "[") with true. cbv iota.
      rewrite <- !List.app_assoc. cbn [app].
      rewrite skip_ws_dumps by done.
      destruct (dumps_head x Hvx) as (c & r & E & _ & Hc).
      pose proof (array_values_dumps l Hl x fuel rest Hvx Hx) as HA.
      rewrite E in HA |- *. cbn [app] in HA |- *.
      apply N.eqb_neq in Hc. rewrite Hc, HA; [done|].
      rewrite E in Hf. cbn [app length] in Hf |- *.
      rewrite !length_app in Hf. rewrite length_app. cbn [length] in Hf.
      lia.
  - cbn [valid_json] in Hv. apply andb_true_iff in Hv as [Hnd Hv].
    apply bool_decide_eq_true in Hnd. destruct d as [|[k x] d].
    + destruct fuel; [cbn in Hf; lia|]. reflexivity.
    + apply valid_dict_pairs in IH; [|done].
      inversion IH as [|? ? (Hvk & Hvx & Hx) Hd]. subst.
      cbn [fst snd] in Hvk, Hvx, Hx.
      rewrite dumps_dict_cons in Hf |- *.
      destruct fuel as [|fuel]; [cbn in Hf; lia|].
      unfold dumps_pair, encode_basestring_ascii in Hf |- *.
      cbn [fst snd] in Hf |- *.
      change (py ": ") with [ch ":"; ch " "] in Hf |- *.
      cbn [app scan_once length] in Hf |- *.
      change (ch "{" =? dquote) with false.
      change (ch "{" =? ch "{") with true. cbv iota.
      rewrite <- !List.app_assoc. cbn [app]. rewrite <- ?List.app_assoc.
      rewrite (skip_ws_head dquote) by done.
      change (dquote =? ch "}") with false.
      change (dquote =? dquote) with true. cbv iota.
      rewrite (object_pairs_dumps d Hd k x fuel rest Hvk Hvx Hx).
      * by rewrite dict_of_pairs_nodup.
      * repeat first [ rewrite length_app in Hf | rewrite length_app
                       | progress cbn [length] in Hf |- * ].
        lia.
Qed.

(** [loads] inverts [dumps] on valid documents. *)
Lemma loads_dumps (v : json) : valid_json v = true -> loads (dumps v) = Some v.
Proof.
  intros Hv. unfold loads.
  pose proof (skip_ws_dumps v [] Hv) as H1.
  pose proof (scan_once_dumps v Hv (S (length (dumps v))) []
                ltac:(lia) eq_refl) as H2.
  rewrite List.app_nil_r in H1, H2. by rewrite H1, H2.
Qed.

(** ** The codec: a document that stops short does not parse *)

Lemma scan_once_any (v : json) (rest : pystr) (fuel : nat) :
  valid_json v = true -> after_value rest = true ->
  scan_once fuel (dumps v ++ rest) = None
  \/ scan_once fuel (dumps v ++ rest) = Some (v, rest).
Proof.
  intros Hv Hr.
  destruct (scan_once fuel (dumps v ++ rest)) as [r|] eqn:E; [right|by left].
  pose proof (proj1 (fuel_mono fuel) _ _ (fuel + length (dumps v))%nat E
                ltac:(lia)) as E'.
  rewrite (scan_once_dumps v Hv) in E' by (done || lia). congruence.
Qed.

Lemma scan_once_nil (fuel : nat) : scan_once fuel [] = None.
Proof. by destruct fuel. Qed.

Lemma array_values_nil (fuel : nat) : array_values fuel [] = None.
Proof. destruct fuel; [done|]. cbn [array_values]. by rewrite scan_once_nil. Qed.

Lemma object_pairs_nil (fuel : nat) : object_pairs fuel [] = None.
Proof. by destruct fuel. Qed.

(** A beginning of the text of a document starts with no white space. *)
Lemma skip_ws_cut (v : json) (p q rest : pystr) :
  valid_json v = true -> p ++ q = dumps v ++ rest -> skip_ws p = p.
Proof.
  intros Hv H. destruct (dumps_head v Hv) as (c & r & E & Hc & _).
  rewrite E in H. cbn [app] in H.
  apply cons_eq_split in H as [->|(p' & -> & _)]; [done|].
  by apply skip_ws_head.
Qed.

Lemma stuck_value_fails (fuel : nat) (p : pystr) (v : json) :
  cut_fails v -> forall q, q <> [] -> dumps v = p ++ q ->
  match scan_once fuel p with
  | Some (_, r) => skip_ws r = []
  | None => True
  end.
Proof.
  intros Hc q Hq E. destruct (Hc p q fuel Hq E) as [->|[_ [v' ->]]]; done.
Qed.

Lemma array_values_cut (l : list json) :
  Forall (fun y => valid_json y = true /\ cut_fails y) l ->
  forall x p q fuel,
    valid_json x = true -> cut_fails x -> q <> [] ->
    dumps x ++ dumps_items l ++ [ch "]"] = p ++ q ->
    array_values fuel p = None.
Proof.
  induction 1 as [|y l [Hvy Hy] Hl IH]; intros x p q fuel Hvx Hx Hq H;
    (destruct fuel as [|fuel]; [done|]); cbn [array_values]; symmetry in H;
    apply app_eq_split in H as [(a2 & Ha & E & _)|(p' & -> & E)].
  - pose proof (stuck_value_fails fuel p x Hx a2 Ha E) as Hs.
    destruct (scan_once fuel p) as [[v' r]|]; [|done]. by rewrite Hs.
  - cbn [dumps_items flat_map app] in E. symmetry in E.
    apply cons_eq_split in E as [->|(p'' & -> & E)].
    + destruct (scan_once_any x [] fuel Hvx eq_refl) as [-> | ->]; done.
    + destruct p''; [by destruct Hq|discriminate].
  - pose proof (stuck_value_fails fuel p x Hx a2 Ha E) as Hs.
    destruct (scan_once fuel p) as [[v' r]|]; [|done]. by rewrite Hs.
  - rewrite dumps_items_cons in E. cbn [app] in E. symmetry in E.
    apply cons_eq_split in E as [->|(p2 & -> & E)].
    { destruct (scan_once_any x [] fuel Hvx eq_refl) as [-> | ->]; done. }
    destruct (scan_once_any x (ch "," :: p2) fuel Hvx eq_refl) as [-> | ->];
      [done|].
    rewrite skip_ws_head by done.
    change (ch "," =? ch "]") with false.
    change (ch "," =? ch ",") with true. cbv iota.
    apply cons_eq_split in E as [->|(p3 & -> & E)].
    { cbn [skip_ws]. by rewrite array_values_nil. }
    rewrite skip_ws_space. rewrite <- List.app_assoc in E.
    rewrite (skip_ws_cut y p3 q _ Hvy E).
    by rewrite (IH y p3 q fuel Hvy Hy Hq (eq_sym E)).
Qed.

Lemma object_pairs_cut (d : pydict) :
  Forall (fun kv => valid_str kv.1 = true /\ valid_json kv.2 = true
                    /\ cut_fails kv.2) d ->
  forall k x p q fuel,
    valid_str k = true -> valid_json x = true -> cut_fails x -> q <> [] ->
    escape_chars k ++ dquote :: ch ":" :: ch " " :: dumps x
      ++ dumps_pairs d ++ [ch "}"] = p ++ q ->
    object_pairs fuel p = None.
Proof.
  induction 1 as [|[k' y] d (Hvk' & Hvy & Hy) Hd IH];
    intros k x p q fuel Hvk Hvx Hx Hq H;
    (destruct fuel as [|fuel]; [done|]); cbn [object_pairs];
    change (escape_chars k ++ dquote :: ch ":" :: ch " " :: dumps x
              ++ ?t)
      with (escape_chars k ++ [dquote] ++ ch ":" :: ch " " :: dumps x ++ t)
      in H;
    rewrite List.app_assoc in H; symmetry in H;
    apply app_eq_split in H as [(a2 & Ha & E & _)|(p1 & -> & E)];
    try (by rewrite (scanstring_cut k p a2 Hvk Ha E));
    rewrite <- List.app_assoc; cbn [app];
    rewrite scanstring_escape_chars by done;
    symmetry in E;
    (apply cons_eq_split in E as [->|(p2 & -> & E)]; [done|]);
    rewrite (skip_ws_head (ch ":")) by done;
    change (ch ":" =? ch ":") with true; cbv iota;
    (apply cons_eq_split in E as [->|(p3 & -> & E)];
       [by rewrite scan_once_nil|]);
    rewrite skip_ws_space, (skip_ws_cut x p3 q _ Hvx E);
    apply app_eq_split in E as [(a3 & Ha3 & E3 & _)|(p4 & -> & E)];
    try (pose proof (stuck_value_fails fuel p3 x Hx a3 Ha3 E3) as Hs;
         destruct (scan_once fuel p3) as [[v' r]|]; [|done]; by rewrite Hs).
  - cbn [dumps_pairs flat_map app] in E. symmetry in E.
    apply cons_eq_split in E as [->|(p5 & -> & E)].
    + destruct (scan_once_any x [] fuel Hvx eq_refl) as [-> | ->]; done.
    + destruct p5; [by destruct Hq|discriminate].
  - rewrite dumps_pairs_cons in E. cbn [app] in E. symmetry in E.
    apply cons_eq_split in E as [->|(p5 & -> & E)].
    { destruct (scan_once_any x [] fuel Hvx eq_refl) as [-> | ->]; done. }
    destruct (scan_once_any x (ch "," :: p5) fuel Hvx eq_refl) as [-> | ->];
      [done|].
    rewrite skip_ws_head by done.
    change (ch "," =? ch "}") with false.
    change (ch "," =? ch ",") with true. cbv iota.
    apply cons_eq_split in E as [->|(p6 & -> & E)]; [done|].
    rewrite skip_ws_space.
    apply cons_eq_split in E as [->|(p7 & -> & E)]; [done|].
    rewrite (skip_ws_head dquote) by done.
    change (dquote =? dquote) with true. cbv iota.
    rewrite <- !List.app_assoc in E. cbn [app] in E.
    rewrite <- ?List.app_assoc in E.
    by rewrite (IH k' y p7 q fuel Hvk' Hvy Hy Hq (eq_sym E)).
Qed.

Lemma match_number_digits (sign : bool) (c : N) (ds : pystr) :
  is_digit c = true -> c <> 48 ->
  Forall (fun c => is_digit c = true) ds ->
  exists z,
    match_number ((if sign then [ch "-"] else []) ++ c :: ds)
    = Some (JInt z, []).
Proof.
  intros Hc Hz Hds. unfold match_number, lex_integer.
  assert ((c =? ch "-") = false) as Hm.
  { apply N.eqb_neq. intros ->. discriminate Hc. }
  apply N.eqb_neq in Hz.
  pose proof (span_digits_app ds [] Hds I) as Hsp.
  rewrite List.app_nil_r in Hsp.
  destruct sign; cbn [app].
  - change (ch "-" =? ch "-") with true. cbv iota.
    rewrite Hz, Hc, Hsp. cbn [lex_frac lex_exp]. by eexists.
  - rewrite Hm, Hz, Hc, Hsp. cbn [lex_frac lex_exp]. by eexists.
Qed.

Lemma scan_once_int_cut (z : Z) : cut_fails (JInt z).
Proof.
  intros p q fuel Hq H. cbn [dumps] in H.
  destruct fuel as [|fuel]; [by left|].
  destruct p as [|c p]; [by left|].
  assert (forall p0 (sign : bool) p',
    chars_of_uint (N.to_uint (N.pos p0)) = p' ++ q -> p' <> [] ->
    exists z', match_number ((if sign then [ch "-"] else []) ++ p')
               = Some (JInt z', [])) as Hpos.
  { intros p0 sign p' E Hp'.
    destruct (to_uint_head p0) as (c0 & r0 & E0 & Hc0 & Hz0).
    pose proof (chars_of_uint_digits (N.to_uint (N.pos p0))) as Hd.
    rewrite E in Hd. apply Forall_app in Hd as [Hd _].
    rewrite E0 in E. destruct p' as [|c1 p']; [done|].
    injection E as -> _. inversion Hd; subst.
    by apply match_number_digits. }
  destruct z as [|p0|p0]; cbn [str_of_int] in H.
  - injection H as _ H. destruct p; [|discriminate].
    cbn [app] in H. by destruct Hq.
  - destruct (Hpos p0 false (c :: p) H ltac:(discriminate)) as [z' Hz'].
    cbn [app] in Hz'.
    destruct (to_uint_head p0) as (c0 & r0 & E0 & Hc0 & _).
    rewrite E0 in H. injection H as <- _.
    right. split; [by eexists|]. exists (JInt z').
    rewrite scan_once_number by by left. by rewrite Hz'.
  - injection H as <- H.
    destruct p as [|c1 p].
    + left. reflexivity.
    + destruct (Hpos p0 true (c1 :: p) H ltac:(discriminate)) as [z' Hz'].
      cbn [app] in Hz'.
      right. split; [by eexists|]. exists (JInt z').
      change 45 with (ch "-").
      rewrite scan_once_number by by right. by rewrite Hz'.
Qed.

Ltac cut_literal H Hq :=
  cbn [py map list_ascii_of_string] in H;
  symmetry in H; cut_prefix H Hq; left;
  match goal with |- scan_once ?fuel _ = None => by destruct fuel end.

Lemma valid_list_cut (l : list json) :
  forallb valid_json l = true ->
  Forall (fun y => valid_json y = true -> cut_fails y) l ->
  Forall (fun y => valid_json y = true /\ cut_fails y) l.
Proof.
  induction l as [|y l IH]; cbn [forallb]; intros Hv HF; [constructor|].
  apply andb_true_iff in Hv as [Hy Hl]. inversion HF; subst.
  constructor; auto.
Qed.

Lemma valid_dict_cut (d : pydict) :
  forallb (fun kv => valid_str kv.1 && valid_json kv.2) d = true ->
  Forall (fun kv => valid_json kv.2 = true -> cut_fails kv.2) d ->
  Forall (fun kv => valid_str kv.1 = true /\ valid_json kv.2 = true
                    /\ cut_fails kv.2) d.
Proof.
  induction d as [|kv d IH]; cbn [forallb]; intros Hv HF; [constructor|].
  apply andb_true_iff in Hv as [Hkv Hd].
  apply andb_true_iff in Hkv as [Hk Hy]. inversion HF; subst.
  constructor; auto.
Qed.

(** No text that stops inside the text of a valid document scans as a
    whole, integers apart. *)
Lemma scan_once_cut (v : json) : valid_json v = true -> cut_fails v.
Proof.
  induction v as [|b|z|f|s|l IH|d IH] using json_ind'; intros Hv.
  - intros p q fuel Hq H. cbn [dumps] in H. cut_literal H Hq.
  - intros p q fuel Hq H. destruct b; cbn [dumps] in H; cut_literal H Hq.
  - apply scan_once_int_cut.
  - discriminate Hv.
  - intros p q fuel Hq H. left. cbn [dumps valid_json] in H, Hv.
    unfold encode_basestring_ascii in H. symmetry in H.
    apply cons_eq_split in H as [->|(p' & -> & H)];
      [apply scan_once_nil|].
    destruct fuel as [|fuel]; [done|]. cbn [scan_once].
    change (dquote =? dquote) with true. cbv iota.
    by rewrite (scanstring_cut s p' q Hv Hq (eq_sym H)).
  - intros p q fuel Hq H. left. cbn [valid_json] in Hv.
    destruct l as [|x l].
    + cbn [dumps py map list_ascii_of_string] in H. symmetry in H.
      cut_prefix H Hq; by destruct fuel.
    + apply valid_list_cut in IH; [|done].
      inversion IH as [|? ? [Hvx Hx] Hl]. subst.
      rewrite dumps_list_cons in H. symmetry in H.
      apply cons_eq_split in H as [->|(p1 & -> & H)];
        [apply scan_once_nil|].
      destruct fuel as [|fuel]; [done|]. cbn [scan_once].
      change (ch "[" =? dquote) with false.
      change (ch "[" =? ch "{") with false.
      change (ch "[" =? ch "[") with true. cbv iota.
      rewrite (skip_ws_cut x p1 q _ Hvx H).
      destruct p1 as [|c1 r1]; [done|].
      destruct (dumps_head x Hvx) as (c & r & E & _ & Hc).
      assert (c1 = c) as ->.
      { rewrite E in H. by injection H. }
      apply N.eqb_neq in Hc. rewrite Hc.
      by rewrite (array_values_cut l Hl x (c :: r1) q fuel Hvx Hx Hq
                    (eq_sym H)).
  - intros p q fuel Hq H. left. cbn [valid_json] in Hv.
    apply andb_true_iff in Hv as [_ Hv].
    destruct d as [|[k x] d].
    + cbn [dumps py map list_ascii_of_string] in H. symmetry in H.
      cut_prefix H Hq; by destruct fuel.
    + apply valid_dict_cut in IH; [|done].
      inversion IH as [|? ? (Hvk & Hvx & Hx) Hd]. subst.
      cbn [fst snd] in Hvk, Hvx, Hx.
      rewrite dumps_dict_cons in H.
      unfold dumps_pair, encode_basestring_ascii in H. cbn [fst snd] in H.
      change (py ": ") with [ch ":"; ch " "] in H.
      rewrite <- !List.app_assoc in H. cbn [app] in H.
      rewrite <- ?List.app_assoc in H. symmetry in H.
      apply cons_eq_split in H as [->|(p1 & -> & H)];
        [apply scan_once_nil|].
      destruct fuel as [|fuel]; [done|]. cbn [scan_once].
      change (ch "{" =? dquote) with false.
      change (ch "{" =? ch "{") with true. cbv iota.
      apply cons_eq_split in H as [->|(p2 & -> & H)]; [done|].
      rewrite (skip_ws_head dquote) by done.
      change (dquote =? ch "}") with false.
      change (dquote =? dquote) with true. cbv iota.
      by rewrite (object_pairs_cut d Hd k x p2 q fuel Hvk Hvx Hx Hq
                    (eq_sym H)).
Qed.

(** [loads] fails on every text that stops inside the text written for a
    valid dict: before its closing brace the document is incomplete. *)
Lemma loads_cut (d : pydict) (p q : pystr) :
  valid_json (JDict d) = true -> q <> [] -> dumps (JDict d) = p ++ q ->
  loads p = None.
Proof.
  intros Hv Hq H. unfold loads.
  assert (skip_ws p = p) as ->.
  { apply (skip_ws_cut (JDict d) p q []); [done|].
    by rewrite List.app_nil_r. }
  destruct (scan_once_cut (JDict d) Hv p q (S (length p)) Hq H)
    as [->|[[z Hz] _]]; [done|discriminate Hz].
Qed.

(** ** The codec: bytes on the wire *)

Lemma byte_of_to_N (c : N) : c < 256 -> Byte.to_N (byte_of c) = c.
Proof.
  intros H. unfold byte_of.
  destruct (Byte.of_N c) as [b|] eqn:E.
  - by apply Byte.to_of_N.
  - apply Byte.of_N_None_iff in E. lia.
Qed.

Lemma utf8_encode_ascii (t : pystr) :
  ascii_text t -> utf8_encode t = Some (byte_of <$> t).
Proof.
  induction 1 as [|c t Hc _ IH]; [done|].
  cbn [utf8_encode]. unfold utf8_encode_char.
  apply N.ltb_lt in Hc. by rewrite Hc, IH.
Qed.

Lemma utf8_decode_ascii (t : pystr) :
  ascii_text t -> utf8_decode (byte_of <$> t) = Some t.
Proof.
  unfold utf8_decode.
  induction 1 as [|c t Hc _ IH]; [done|].
  cbn [fmap list_fmap map utf8_decode_N].
  rewrite byte_of_to_N by lia.
  apply N.ltb_lt in Hc. rewrite Hc.
  change (map Byte.to_N (list_fmap N byte byte_of t))
    with (map Byte.to_N (byte_of <$> t)).
  by rewrite IH.
Qed.

Lemma hexdigit_ascii (n : N) : n < 16 -> hexdigit n < 128.
Proof. unfold hexdigit. destruct (n <? 10); lia. Qed.

Lemma hex4_ascii (n : N) : n < 65536 -> ascii_text (hex4 n).
Proof.
  intros H. unfold hex4.
  repeat constructor; apply hexdigit_ascii;
    try (apply N.mod_lt; lia).
  apply N.Div0.div_lt_upper_bound. lia.
Qed.

Lemma escape_char_ascii (c : N) : scalar c = true -> ascii_text (escape_char c).
Proof.
  intros Hc. unfold scalar in Hc.
  apply andb_true_iff in Hc as [Hlt _]. apply N.ltb_lt in Hlt.
  unfold escape_char.
  repeat match goal with
  | |- ascii_text (if ?x then _ else _) =>
    destruct x eqn:?; [by repeat constructor|]
  end.
  destruct ((32 <=? c) && (c <=? 126)) eqn:E.
  { apply andb_true_iff in E as [_ E]. apply N.leb_le in E.
    constructor; [lia|constructor]. }
  destruct (c <? 65536) eqn:E9.
  - apply N.ltb_lt in E9. apply Forall_app. split; [by repeat constructor|].
    by apply hex4_ascii.
  - apply N.ltb_ge in E9.
    destruct (surrogate_pair c ltac:(lia)) as (H1 & H2 & _).
    cbv zeta. repeat (apply Forall_app; split);
      try (by repeat constructor); by apply hex4_ascii.
Qed.

Lemma encode_basestring_ascii_ascii (s : pystr) :
  valid_str s = true -> ascii_text (encode_basestring_ascii s).
Proof.
  intros Hs. unfold encode_basestring_ascii.
  constructor; [done|]. apply Forall_app. split; [|by repeat constructor].
  unfold escape_chars, valid_str in *.
  induction s as [|c s IH]; [constructor|].
  cbn [forallb flat_map] in Hs |- *. apply andb_true_iff in Hs as [Hc Hs].
  apply Forall_app. split; [by apply escape_char_ascii|by apply IH].
Qed.

Lemma str_of_int_ascii (z : Z) : ascii_text (str_of_int z).
Proof.
  assert (forall d, ascii_text (chars_of_uint d)) as H.
  { intros d. pose proof (chars_of_uint_digits d) as Hd.
    unfold ascii_text. eapply Forall_impl; [exact Hd|].
    intros c Hc. unfold is_digit in Hc.
    rewrite andb_true_iff, !N.leb_le in Hc. lia. }
  destruct z; cbn [str_of_int]; [by repeat constructor|apply H|].
  constructor; [done|apply H].
Qed.

(** [dumps] writes ASCII only (the default [ensure_ascii]). *)
Lemma dumps_ascii (v : json) : valid_json v = true -> ascii_text (dumps v).
Proof.
  induction v as [|b|z|f|s|l IH|d IH] using json_ind'; intros Hv.
  - by repeat constructor.
  - destruct b; by repeat constructor.
  - apply str_of_int_ascii.
  - discriminate Hv.
  - by apply encode_basestring_ascii_ascii.
  - cbn [valid_json] in Hv. destruct l as [|x l]; [by repeat constructor|].
    rewrite dumps_list_cons. cbn [forallb] in Hv.
    apply andb_true_iff in Hv as [Hx Hl]. inversion IH as [|? ? IHx IHl]; subst.
    constructor; [done|]. apply Forall_app. split; [by apply IHx|].
    apply Forall_app. split; [|by repeat constructor].
    clear -Hl IHl. induction l as [|y l IH]; [constructor|].
    cbn [forallb] in Hl. apply andb_true_iff in Hl as [Hy Hl].
    inversion IHl; subst. rewrite dumps_items_cons.
    constructor; [done|]. constructor; [done|].
    apply Forall_app. split; [by apply H1|by apply IH].
  - cbn [valid_json] in Hv. apply andb_true_iff in Hv as [_ Hv].
    destruct d as [|[k x] d]; [by repeat constructor|].
    rewrite dumps_dict_cons. cbn [forallb fst snd] in Hv.
    apply andb_true_iff in Hv as [Hkx Hd].
    apply andb_true_iff in Hkx as [Hk Hx].
    inversion IH as [|? ? IHx IHd]; subst. cbn [snd] in IHx.
    constructor; [done|]. apply Forall_app. split.
    { unfold dumps_pair. cbn [fst snd]. apply Forall_app. split;
        [by apply encode_basestring_ascii_ascii|].
      apply Forall_app. split; [by repeat constructor|by apply IHx]. }
    apply Forall_app. split; [|by repeat constructor].
    clear -Hd IHd. induction d as [|[k' y] d IH]; [constructor|].
    cbn [forallb fst snd] in Hd. apply andb_true_iff in Hd as [Hky Hd].
    apply andb_true_iff in Hky as [Hk' Hy].
    inversion IHd; subst. rewrite dumps_pairs_cons.
    repeat (constructor; [done|]).
    apply Forall_app. split.
    { pose proof (encode_basestring_ascii_ascii k' Hk') as He.
      unfold encode_basestring_ascii in He. inversion He as [|? ? _ He'].
      apply Forall_app in He' as [He' _]. exact He'. }
    repeat (constructor; [done|]).
    apply Forall_app. split; [by apply H1|by apply IH].
Qed.

(** Encoding a valid document succeeds; the bytes are its ASCII text. *)
Lemma dumps_bytes_valid (v : json) :
  valid_json v = true -> dumps_bytes v = Some (byte_of <$> dumps v).
Proof. intros Hv. apply utf8_encode_ascii. by apply dumps_ascii. Qed.

Lemma loads_bytes_dumps (v : json) (data : pybytes) :
  valid_json v = true -> dumps_bytes v = Some data ->
  loads_bytes data = Parsed v.
Proof.
  intros Hv Hd. rewrite dumps_bytes_valid in Hd by done.
  assert (data = byte_of <$> dumps v) as -> by congruence.
  unfold loads_bytes.
  rewrite utf8_decode_ascii by by apply dumps_ascii.
  by rewrite loads_dumps.
Qed.

Lemma loads_bytes_cut (d : pydict) (data front back : pybytes) :
  valid_json (JDict d) = true -> dumps_bytes (JDict d) = Some data ->
  data = front ++ back -> back <> [] ->
  loads_bytes front = NotJSON.
Proof.
  intros Hv Hd -> Hb. rewrite dumps_bytes_valid in Hd by done.
  assert (byte_of <$> dumps (JDict d) = front ++ back) as Hd'
    by congruence.
  clear Hd. apply fmap_app_inv in Hd' as (p & q & -> & -> & Ht).
  pose proof (dumps_ascii _ Hv) as Ha. rewrite Ht in Ha.
  apply Forall_app in Ha as [Hp _].
  unfold loads_bytes. rewrite utf8_decode_ascii by done.
  rewrite (loads_cut d p q Hv); [done| |done].
  intros ->. by destruct Hb.
Qed.

(** ** Framing over chunks *)

Lemma concat_nonempty (chunks : list pybytes) :
  chunks <> [] -> Forall (fun chunk => chunk <> []) chunks ->
  concat chunks <> [].
Proof.
  destruct chunks as [|[|b c] chunks]; intros Hne HF; [done|..].
  - inversion HF; subst. done.
  - discriminate.
Qed.


(** The client-side receiver, fed the same pieces, returns the bytes of
    the whole message. *)
Lemma receive_loop_frames (v : json) (data : pybytes) :
  (forall front back, data = front ++ back -> back <> [] ->
                      loads_bytes front = NotJSON) ->
  loads_bytes data = Parsed v ->
  forall chunks collected,
    chunks <> [] -> Forall (fun chunk => chunk <> []) chunks ->
    concat collected ++ concat chunks = data ->
    receive_loop (RecvData <$> chunks) collected = Returned data.
Proof.
  intros Hcut Hall chunks.
  induction chunks as [|chunk chunks IH]; intros collected Hne HF Hd; [done|].
  inversion HF as [|? ? Hc HF']; subst.
  cbn [fmap list_fmap receive_loop].
  destruct chunk as [|b chunk]; [done|]. unfold pybytes in *.
  assert (concat (collected ++ [b :: chunk]) = concat collected ++ b :: chunk)
    as Ecat.
  { rewrite concat_app. cbn [concat]. by rewrite List.app_nil_r. }
  rewrite Ecat.
  destruct chunks as [|chunk2 chunks].
  - cbn [concat] in Hall |- *. rewrite List.app_nil_r in Hall |- *.
    by rewrite Hall.
  - rewrite (Hcut (concat collected ++ b :: chunk)
               (concat (chunk2 :: chunks))).
    + apply IH; [done|done|]. rewrite Ecat. cbn [concat].
      by rewrite <- List.app_assoc.
    + cbn [concat]. by rewrite <- List.app_assoc.
    + by apply concat_nonempty.
Qed.


(** ** The dispatcher: responses and invocations *)

(** X1: whatever the command, be it not even a mapping, [execute_command]
    answers with a mapping of one of two shapes: status "error" with a
    message, or status "success" with a result. *)
Theorem response_carries_status (T : pystr) (command : json) (w : world) :
  (exists message,
     (execute_command T command w).1
     = JDict [(py "status", JStr (py "error")); (py "message", JStr message)])
  \/ (exists result,
     (execute_command T command w).1
     = JDict [(py "status", JStr (py "success")); (py "result", result)]).
Proof.
  unfold execute_command, _execute_command_internal.
  destruct command as [| | | | | |cmd]; try (left; eexists; reflexivity).
  destruct (auth_rejects T cmd); [left; eexists; reflexivity|].
  unfold dispatch.
  destruct (str_eq _ _).
  - destruct (invoke _ _ _) as [[e|r] w']; [left|right]; eexists; reflexivity.
  - destruct (handlers_get _ _) as [e|[h|]].
    + left; eexists; reflexivity.
    + unfold run_handler.
      destruct (get_default _ _ _); try (left; eexists; reflexivity).
      destruct (invoke _ _ _) as [[e|r] w']; [left|right]; eexists;
        reflexivity.
    + left. eexists. reflexivity.
Qed.

(** X2: a command changes the world by at most one handler invocation,
    and the handler invoked is the one whose name is the type of the
    command, taken from a group that is enabled in the host state of this
    call; otherwise the world is exactly as before. *)
Theorem one_enabled_handler_per_command (T : pystr) (command : json)
    (w : world) :
  (execute_command T command w).2 = w
  \/ exists cmd m kwargs,
       command = JDict cmd
       /\ auth_rejects T cmd = false
       /\ get "type" cmd = JStr (py m)
       /\ available (bpy w) m
       /\ (execute_command T command w).2
          = {| bpy := (call_method m kwargs (bpy w)).2;
               calls := calls w ++ [(m, kwargs)] |}.
Proof.
  unfold execute_command, _execute_command_internal.
  destruct command as [| | | | | |cmd]; try (by left).
  destruct (auth_rejects T cmd) eqn:Hgate; [by left|].
  unfold dispatch.
  destruct (str_eq _ _) eqn:Hs.
  - right. apply str_eq_true in Hs.
    exists cmd, "get_polyhaven_status"%string, [].
    split; [done|]. split; [done|]. split; [done|]. split.
    { left. apply (bool_decide_unpack _). vm_compute. exact I. }
    rewrite invoke_spec. by destruct (call_method _ _ _) as [[e|r] b].
  - destruct (get "type" cmd) as [| | | |s| |] eqn:Ht;
      cbn [handlers_get]; try (by left).
    destruct (build_handlers (bpy w) !! s) as [m|] eqn:Hm; [|by left].
    apply build_handlers_lookup in Hm as [-> Hav].
    unfold run_handler.
    destruct (get_default _ _ _) as [| | | | | |kwargs]; try (by left).
    right. exists cmd, m, kwargs. repeat (split; [done|]).
    rewrite invoke_spec. by destruct (call_method _ _ _) as [[e|r] b].
Qed.

(** X3: the status shortcut looks at nothing but the type: a command of
    type "get_polyhaven_status" that passes the gate is answered with
    status "success" and the current PolyHaven flag whatever its
    parameters are, a list or unexpected keywords included, and the host
    is left as it was. *)
Theorem polyhaven_status_ignores_params (T : pystr) (cmd : pydict)
    (w : world) :
  auth_rejects T cmd = false ->
  get "type" cmd = JStr (py "get_polyhaven_status") ->
  execute_command T (JDict cmd) w
  = (JDict [(py "status", JStr (py "success"));
            (py "result",
             JDict [(py "enabled",
                     JBool (blenderforge_use_polyhaven (bpy w)));
                    (py "message",
                     JStr (if blenderforge_use_polyhaven (bpy w)
                           then polyhaven_enabled_message
                           else polyhaven_disabled_message))])],
     {| bpy := bpy w;
        calls := calls w ++ [("get_polyhaven_status"%string, [])] |}).
Proof.
  intros Hgate Ht. apply execute_command_of_internal.
  rewrite execute_internal_gate, Hgate. unfold dispatch.
  rewrite Ht. cbn [str_eq]. rewrite bool_decide_true by done.
  rewrite invoke_spec. unfold call_method.
  rewrite decide_False by done. rewrite decide_True by done.
  cbn [fst snd]. unfold get_polyhaven_status, success_response.
  by destruct (blenderforge_use_polyhaven (bpy w)).
Qed.

(** X4: the parameters of a dispatched command must be a mapping.  When
    the "params" field is absent the handler is invoked with no argument;
    when it is present and is not a mapping (null, a list, a number) the
    call fails before the handler runs: the answer is an error and the
    world is unchanged. *)
Theorem params_must_be_a_mapping (T : pystr) (cmd : pydict) (s : pystr)
    (m : string) (w : world) :
  auth_rejects T cmd = false ->
  get "type" cmd = JStr s ->
  s <> py "get_polyhaven_status" ->
  build_handlers (bpy w) !! s = Some m ->
  (dict_lookup (py "params") cmd = None ->
   (execute_command T (JDict cmd) w).2
   = {| bpy := (call_method m [] (bpy w)).2;
        calls := calls w ++ [(m, [])] |})
  /\ (forall v,
       dict_lookup (py "params") cmd = Some v ->
       (forall kwargs, v <> JDict kwargs) ->
       execute_command T (JDict cmd) w
       = (JDict [(py "status", JStr (py "error"));
                 (py "message",
                  JStr (str_of_runtime_error (BadKeywordArguments m v)))],
          w)).
Proof.
  intros Hgate Ht Hs Hm. split.
  - intros Hp. unfold execute_command.
    rewrite execute_internal_gate, Hgate.
    rewrite (dispatch_table_hit _ _ _ _ Ht Hs Hm).
    unfold get_default. rewrite Hp. unfold run_handler.
    rewrite invoke_spec. by destruct (call_method _ _ _) as [[e|r] b].
  - intros v Hp Hv. apply execute_command_of_internal.
    rewrite execute_internal_gate, Hgate.
    rewrite (dispatch_table_hit _ _ _ _ Ht Hs Hm).
    unfold get_default. rewrite Hp. unfold run_handler.
    destruct v as [| | | | | |kwargs]; try reflexivity.
    by destruct (Hv kwargs).
Qed.

(** X5: a command whose type is not a string runs no handler.  A missing
    type reads as [None]; [None], a boolean or a number is looked up in
    the table, is not found, and is reported as unknown; a list or a
    mapping cannot be looked up at all, and the error of the lookup is
    reported.  The world is unchanged in every case. *)
Theorem non_string_type_runs_nothing (T : pystr) (cmd : pydict) (w : world) :
  auth_rejects T cmd = false ->
  (forall s, get "type" cmd <> JStr s) ->
  (execute_command T (JDict cmd) w).2 = w
  /\ (dict_lookup (py "type") cmd = None ->
      (execute_command T (JDict cmd) w).1
      = JDict [(py "status", JStr (py "error"));
               (py "message", JStr (py "Unknown command type: None"))])
  /\ (forall z, get "type" cmd = JInt z ->
      (execute_command T (JDict cmd) w).1
      = JDict [(py "status", JStr (py "error"));
               (py "message",
                JStr (py "Unknown command type: " ++ str_of_int z))])
  /\ ((exists l, get "type" cmd = JList l)
      \/ (exists d, get "type" cmd = JDict d) ->
      (execute_command T (JDict cmd) w).1
      = JDict [(py "status", JStr (py "error"));
               (py "message",
                JStr (str_of_runtime_error
                        (UnhashableKey (get "type" cmd))))]).
Proof.
  intros Hgate Hns. unfold execute_command.
  rewrite execute_internal_gate, Hgate. unfold dispatch.
  assert (dict_lookup (py "type") cmd = None -> get "type" cmd = JNull)
    as Habsent by apply get_absent.
  destruct (get "type" cmd) as [|b|z0|f|s|l0|d0];
    try (by destruct (Hns s)); cbn [str_eq handlers_get fst snd];
    (split; [done|]);
    (split; [intros Hn; try (specialize (Habsent Hn); discriminate Habsent)|]);
    try reflexivity;
    (split; [intros z Hz; try discriminate Hz|]);
    try (by intros [[l Hl]|[d Hd]]; discriminate).
  - by injection Hz as ->.
  - by intros _.
  - by intros _.
Qed.

(** ** The listener-side loop over several messages *)






(** ** The codec: what follows a document *)

(** The text of a mapping ends at its closing brace, whatever follows. *)
Lemma scan_once_dict_rest (d : pydict) (fuel : nat) (rest : pystr) :
  valid_json (JDict d) = true ->
  (length (dumps (JDict d)) <= fuel)%nat ->
  scan_once fuel (dumps (JDict d) ++ rest) = Some (JDict d, rest).
Proof.
  intros Hv Hf. cbn [valid_json] in Hv. apply andb_true_iff in Hv as [Hnd Hv].
  apply bool_decide_eq_true in Hnd. destruct d as [|[k x] d].
  - destruct fuel; [cbn in Hf; lia|]. reflexivity.
  - assert (Forall (fun kv => valid_json kv.2 = true -> reads_back kv.2)
              ((k, x) :: d)) as IH.
    { apply Forall_forall. intros kv _. apply scan_once_dumps. }
    apply valid_dict_pairs in IH; [|done].
    inversion IH as [|? ? (Hvk & Hvx & Hx) Hd]. subst.
    cbn [fst snd] in Hvk, Hvx, Hx.
    rewrite dumps_dict_cons in Hf |- *.
    destruct fuel as [|fuel]; [cbn in Hf; lia|].
    unfold dumps_pair, encode_basestring_ascii in Hf |- *.
    cbn [fst snd] in Hf |- *.
    change (py ": ") with [ch ":"; ch " "] in Hf |- *.
    cbn [app scan_once length] in Hf |- *.
    change (ch "{" =? dquote) with false.
    change (ch "{" =? ch "{") with true. cbv iota.
    rewrite <- !List.app_assoc. cbn [app]. rewrite <- ?List.app_assoc.
    rewrite (skip_ws_head dquote) by done.
    change (dquote =? ch "}") with false.
    change (dquote =? dquote) with true. cbv iota.
    rewrite (object_pairs_dumps d Hd k x fuel rest Hvk Hvx Hx).
    + by rewrite dict_of_pairs_nodup.
    + repeat first [ rewrite length_app in Hf | rewrite length_app
                     | progress cbn [length] in Hf |- * ].
      lia.
Qed.

(** "Extra data": a mapping followed by anything but white space. *)
Lemma loads_extra_data (d : pydict) (c : N) (r : pystr) :
  valid_json (JDict d) = true -> is_ws c = false ->
  loads (dumps (JDict d) ++ c :: r) = None.
Proof.
  intros Hv Hc. unfold loads. rewrite skip_ws_dumps by done.
  rewrite scan_once_dict_rest; [|done|rewrite length_app; lia].
  by rewrite skip_ws_head.
Qed.

Lemma skip_ws_app_ws (ws s : pystr) :
  forallb is_ws ws = true -> skip_ws (ws ++ s) = skip_ws s.
Proof.
  induction ws as [|c ws IH]; cbn [forallb app skip_ws]; [done|].
  intros H. apply andb_true_iff in H as [Hc Hws]. rewrite Hc. by apply IH.
Qed.

Lemma ws_ascii (ws : pystr) : forallb is_ws ws = true -> ascii_text ws.
Proof.
  intros H. apply Forall_forall. intros c Hc.
  rewrite forallb_forall in H. specialize (H c).
  rewrite <- list_elem_of_In in H. specialize (H Hc).
  unfold is_ws in H. rewrite !orb_true_iff, !N.eqb_eq in H. lia.
Qed.

Lemma utf8_decode_ascii_app (t : pystr) (bs : pybytes) :
  ascii_text t ->
  utf8_decode ((byte_of <$> t) ++ bs) = (fun r => t ++ r) <$> utf8_decode bs.
Proof.
  unfold utf8_decode.
  induction 1 as [|c t Hc _ IH].
  - cbn [fmap list_fmap app]. by destruct (utf8_decode_N _).
  - cbn [fmap list_fmap app map utf8_decode_N].
    rewrite byte_of_to_N by lia.
    apply N.ltb_lt in Hc. rewrite Hc.
    change (list_fmap N byte byte_of t) with (byte_of <$> t).
    rewrite IH. by destruct (utf8_decode_N (map Byte.to_N bs)).
Qed.

Lemma loads_bytes_extra_data (d : pydict) (data : pybytes) (c : N)
    (more : pybytes) (v : json) :
  valid_json (JDict d) = true -> dumps_bytes (JDict d) = Some data ->
  c < 128 -> is_ws c = false ->
  loads_bytes (data ++ byte_of c :: more) <> Parsed v.
Proof.
  intros Hv Hd Hc Hws. rewrite dumps_bytes_valid in Hd by done.
  assert (data = byte_of <$> dumps (JDict d)) as -> by congruence.
  unfold loads_bytes. rewrite utf8_decode_ascii_app by by apply dumps_ascii.
  change (byte_of c :: more) with ((byte_of <$> [c]) ++ more).
  rewrite utf8_decode_ascii_app by (by repeat constructor).
  destruct (utf8_decode more) as [t|]; cbn [fmap option_fmap option_map];
    [|done].
  cbn [app]. by rewrite loads_extra_data.
Qed.

Lemma handle_client_stalled (d : pydict) (data : pybytes) (c : N) :
  valid_json (JDict d) = true -> dumps_bytes (JDict d) = Some data ->
  c < 128 -> is_ws c = false ->
  forall events more,
    (_handle_client events (data ++ byte_of c :: more)).1 = [].
Proof.
  intros Hv Hd Hc Hws.
  induction events as [|ev events IH]; intros more; cbn [_handle_client];
    [done|].
  destruct ev as [|[|b chunk]|e]; try done.
  rewrite <- List.app_assoc. cbn [app].
  destruct (loads_bytes _) eqn:E.
  - by apply (loads_bytes_extra_data d) in E.
  - apply IH.
  - done.
Qed.

(** X8: the listener never splits a read.  When the read that completes
    a valid command also brings the first bytes of the next one, be it
    the whole next command or a single byte of it, the buffer never
    parses again: neither of the two commands is scheduled, nor is
    anything that arrives later, whatever it is. *)
Theorem coalesced_commands_never_run (cmd1 cmd2 : pydict)
    (d1 d2 front back buffer chunk : pybytes) (later : list client_event) :
  valid_json (JDict cmd1) = true -> valid_json (JDict cmd2) = true ->
  dumps_bytes (JDict cmd1) = Some d1 -> dumps_bytes (JDict cmd2) = Some d2 ->
  d2 = front ++ back -> front <> [] ->
  chunk <> [] -> buffer ++ chunk = d1 ++ front ->
  (_handle_client (Received chunk :: later) buffer).1 = [].
Proof.
  intros Hv1 Hv2 Hd1 Hd2 Hsplit Hfront Hchunk Hcat.
  rewrite dumps_bytes_valid in Hd2 by done.
  destruct (dumps_head _ Hv2) as (c & r & E & Hws & _).
  pose proof (dumps_ascii _ Hv2) as Ha. rewrite E in Hd2, Ha.
  inversion Ha as [|? ? Hc _]; subst.
  destruct front as [|b front]; [done|].
  assert (b = byte_of c) as ->.
  { cbn [fmap list_fmap app] in Hd2. congruence. }
  destruct chunk as [|b0 chunk]; [done|].
  cbn [_handle_client]. rewrite Hcat.
  destruct (loads_bytes _) eqn:EL.
  - by apply (loads_bytes_extra_data cmd1) in EL.
  - by apply (handle_client_stalled cmd1).
  - done.
Qed.

(** X9: blanks around a command do no harm.  A valid command that
    arrives in one read with spaces, tabs or line ends before and after
    it, a trailing newline for instance, is scheduled, and the buffer is
    left empty. *)
Theorem blanks_around_a_command (cmd : pydict) (data : pybytes)
    (ws1 ws2 : pystr) :
  valid_json (JDict cmd) = true -> dumps_bytes (JDict cmd) = Some data ->
  forallb is_ws ws1 = true -> forallb is_ws ws2 = true ->
  _handle_client
    [Received ((byte_of <$> ws1) ++ data ++ (byte_of <$> ws2))] []
  = ([JDict cmd], Reading []).
Proof.
  intros Hv Hd H1 H2. rewrite dumps_bytes_valid in Hd by done.
  assert (data = byte_of <$> dumps (JDict cmd)) as -> by congruence.
  assert (loads_bytes
            ((byte_of <$> ws1) ++ (byte_of <$> dumps (JDict cmd))
               ++ (byte_of <$> ws2))
          = Parsed (JDict cmd)) as HL.
  { rewrite <- !fmap_app. unfold loads_bytes.
    rewrite utf8_decode_ascii.
    - unfold loads. rewrite skip_ws_app_ws, skip_ws_dumps by done.
      rewrite scan_once_dict_rest; [|done|rewrite !length_app; lia].
      rewrite <- (List.app_nil_r ws2), skip_ws_app_ws by done. done.
    - apply Forall_app. split; [by apply ws_ascii|].
      apply Forall_app. split; [by apply dumps_ascii|by apply ws_ascii]. }
  destruct (dumps_head _ Hv) as (c & r & E & _).
  destruct ((byte_of <$> ws1) ++ (byte_of <$> dumps (JDict cmd))
              ++ (byte_of <$> ws2)) as [|b bytes] eqn:Eb.
  - apply (f_equal length) in Eb. rewrite !length_app, !length_fmap, E in Eb.
    cbn [length] in Eb. lia.
  - cbn [_handle_client app]. by rewrite HL.
Qed.

(** ** The client-side receive loop: what it returns and what it raises *)

Lemma receive_loop_returned (events : list recv_event)
    (collected : list pybytes) (data : pybytes) :
  collected = [] \/ loads_bytes (concat collected) = NotJSON ->
  receive_loop events collected = Returned data ->
  exists chunks rest,
    events = (RecvData <$> chunks) ++ rest
    /\ chunks <> []
    /\ Forall (fun chunk => chunk <> []) chunks
    /\ data = concat (collected ++ chunks)
    /\ (exists v, loads_bytes data = Parsed v)
    /\ forall k, (k < length chunks)%nat ->
         collected ++ take k chunks <> [] ->
         loads_bytes (concat (collected ++ take k chunks)) = NotJSON.
Proof.
  revert collected.
  induction events as [|ev events IH]; intros collected Hinv H;
    cbn [receive_loop] in H; [discriminate H|].
  assert (after_receive_loop collected <> Returned data) as Hafter.
  { unfold after_receive_loop. destruct collected as [|c0 collected]; [done|].
    destruct Hinv as [Hinv|Hinv]; [done|]. by rewrite Hinv. }
  destruct ev as [[|b chunk]|e].
  - destruct collected; [discriminate H|by destruct Hafter].
  - destruct (loads_bytes (concat (collected ++ _))) as [v| |] eqn:E;
      [| |discriminate H].
    + injection H as <-. exists [b :: chunk], events.
      split; [done|]. split; [done|]. split; [by repeat constructor|].
      split; [done|]. split; [by exists v|].
      intros k Hk Hne. cbn [length] in Hk.
      assert (k = 0)%nat as -> by lia. rewrite take_0 in Hne |- *.
      rewrite List.app_nil_r in Hne |- *.
      by destruct Hinv.
    + apply IH in H as (chunks & rest & -> & _ & HF & -> & Hv & Hmin);
        [|by right].
      exists ((b :: chunk) :: chunks), rest.
      assert (forall r : list pybytes,
                (collected ++ [b :: chunk]) ++ r
                = collected ++ (b :: chunk) :: r) as Hsnoc.
      { intros r. by rewrite <- List.app_assoc. }
      rewrite Hsnoc in Hv |- *.
      split; [done|]. split; [done|]. split; [by constructor|].
      split; [done|]. split; [done|].
      intros [|k] Hk Hne.
      * rewrite take_0 in Hne |- *. rewrite List.app_nil_r in Hne |- *.
        by destruct Hinv.
      * cbn [take length] in Hk |- *. rewrite <- Hsnoc.
        apply Hmin; [lia|]. by destruct collected.
  - destruct (exn_kind_of e); try discriminate H. by destruct Hafter.
Qed.

Lemma receive_never_times_out (events : list recv_event)
    (collected : list pybytes) (e : exn) :
  receive_loop events collected = Raised e -> exn_kind_of e <> TimeoutError.
Proof.
  assert (forall chunks, after_receive_loop chunks = Raised e ->
            exn_kind_of e <> TimeoutError) as Hafter.
  { intros chunks H. unfold after_receive_loop in H.
    destruct chunks; [by injection H as <-|].
    destruct (loads_bytes _); try discriminate H; by injection H as <-. }
  revert collected.
  induction events as [|ev events IH]; intros collected H;
    cbn [receive_loop] in H; [discriminate H|].
  destruct ev as [[|b chunk]|e0].
  - destruct collected; [by injection H as <-|by apply Hafter in H].
  - destruct (loads_bytes _); try discriminate H.
    + by apply IH in H.
    + by injection H as <-.
  - destruct (exn_kind_of e0) eqn:E; try (injection H as <-; congruence).
    by apply Hafter in H.
Qed.


(** X11: a read that fails while the receiver is still waiting ends the
    receive operation with an exception.  A timeout is not passed on as
    such: with nothing received it becomes "Timeout: No data received",
    with some bytes received "Incomplete JSON response received".  Any
    other error of the read is raised again as it is. *)
Theorem receive_error_while_waiting (events rest : list recv_event)
    (chunks : list pybytes) (e : exn) :
  receive_full_response events = Blocked chunks ->
  receive_full_response (events ++ RecvError e :: rest)
  = Raised (match exn_kind_of e with
            | TimeoutError =>
              exception (match chunks with
                         | [] => "Timeout: No data received"
                         | _ :: _ => "Incomplete JSON response received"
                         end)
            | _ => e
            end).
Proof.
  unfold receive_full_response. intros H.
  rewrite (receive_loop_app _ _ _ _ H). cbn [receive_loop].
  destruct (exn_kind_of e); try done.
  apply receive_loop_blocked in H as [->|[Hne HN]]; [done|].
  destruct chunks as [|c chunks]; [done|].
  unfold after_receive_loop. by rewrite HN.
Qed.

(** ** The connection manager: retries *)

Lemma set_sock_None_id (s : option nat) (c : BlenderConnection) :
  sock c = None -> set_sock None (set_sock s c) = c.
Proof. destruct c. cbn. by intros ->. Qed.

Lemma connect_attempts_fail (remaining : nat) (attempt max_attempts : Z)
    (c : BlenderConnection) (n : net) :
  sock c = None ->
  (attempt + Z.of_nat remaining = max_attempts)%Z ->
  (forall i, (i < remaining)%nat ->
             net_connect n (net_next n + i)%nat <> Connected) ->
  connect_attempts remaining attempt max_attempts c n
  = (false, c,
     {| net_next := (net_next n + remaining)%nat;
        net_closed := net_closed n;
        net_connect := net_connect n;
        env_token := env_token n;
        net_sleeps :=
          (net_sleeps n + Z.to_nat (max_attempts - 1 - attempt))%nat |}).
Proof.
  revert attempt c n.
  induction remaining as [|remaining IH]; intros attempt c n Hc Hmax Hfail;
    cbn [connect_attempts new_socket].
  - destruct n. cbn. do 2 f_equal; lia.
  - cbn [net_connect].
    pose proof (Hfail 0%nat ltac:(lia)) as H0. rewrite Nat.add_0_r in H0.
    assert (connect_attempts remaining (attempt + 1) max_attempts
              (set_sock None (set_sock (Some (net_next n)) c))
              (if (attempt <? max_attempts - 1)%Z
               then sleep {| net_next := S (net_next n);
                             net_closed := net_closed n;
                             net_connect := net_connect n;
                             env_token := env_token n;
                             net_sleeps := net_sleeps n |}
               else {| net_next := S (net_next n);
                       net_closed := net_closed n;
                       net_connect := net_connect n;
                       env_token := env_token n;
                       net_sleeps := net_sleeps n |})
            = (false, c,
               {| net_next := (net_next n + S remaining)%nat;
                  net_closed := net_closed n;
                  net_connect := net_connect n;
                  env_token := env_token n;
                  net_sleeps :=
                    (net_sleeps n
                     + Z.to_nat (max_attempts - 1 - attempt))%nat |}))
      as Hrest.
    { rewrite IH.
      - rewrite set_sock_None_id by done.
        destruct (attempt <? max_attempts - 1)%Z eqn:E; cbn;
          [apply Z.ltb_lt in E|apply Z.ltb_ge in E]; do 2 f_equal; lia.
      - done.
      - lia.
      - intros i Hi. specialize (Hfail (S i) ltac:(lia)).
        replace (net_next n + S i)%nat with (S (net_next n) + i)%nat
          in Hfail by lia.
        by destruct (attempt <? max_attempts - 1)%Z. }
    destruct (net_connect n (net_next n)); [done|exact Hrest..].
Qed.

Lemma connect_attempts_succeed (k remaining : nat) (attempt max_attempts : Z)
    (c : BlenderConnection) (n : net) :
  (k < remaining)%nat ->
  (attempt + Z.of_nat remaining = max_attempts)%Z ->
  (forall i, (i < k)%nat ->
             net_connect n (net_next n + i)%nat <> Connected) ->
  net_connect n (net_next n + k)%nat = Connected ->
  connect_attempts remaining attempt max_attempts c n
  = (true,
     set_auth_token (env_token n) (set_sock (Some (net_next n + k)%nat) c),
     {| net_next := (net_next n + S k)%nat;
        net_closed := net_closed n;
        net_connect := net_connect n;
        env_token := env_token n;
        net_sleeps := (net_sleeps n + k)%nat |}).
Proof.
  revert remaining attempt c n.
  induction k as [|k IH]; intros remaining attempt c n Hk Hmax Hfail Hok;
    (destruct remaining as [|remaining]; [lia|]);
    cbn [connect_attempts new_socket net_connect].
  - rewrite Nat.add_0_r in Hok. rewrite Hok. cbn [env_token].
    rewrite !Nat.add_0_r. do 2 f_equal. lia.
  - pose proof (Hfail 0%nat ltac:(lia)) as H0. rewrite Nat.add_0_r in H0.
    assert ((attempt <? max_attempts - 1)%Z = true) as ->
      by (apply Z.ltb_lt; lia).
    assert (connect_attempts remaining (attempt + 1) max_attempts
              (set_sock None (set_sock (Some (net_next n)) c))
              (sleep {| net_next := S (net_next n);
                        net_closed := net_closed n;
                        net_connect := net_connect n;
                        env_token := env_token n;
                        net_sleeps := net_sleeps n |})
            = (true,
               set_auth_token (env_token n)
                 (set_sock (Some (net_next n + S k)%nat) c),
               {| net_next := (net_next n + S (S k))%nat;
                  net_closed := net_closed n;
                  net_connect := net_connect n;
                  env_token := env_token n;
                  net_sleeps := (net_sleeps n + S k)%nat |}))
      as Hrest.
    { rewrite IH.
      - cbn. rewrite <- !Nat.add_succ_r. reflexivity.
      - lia.
      - lia.
      - intros i Hi. specialize (Hfail (S i) ltac:(lia)).
        by replace (net_next n + S i)%nat with (S (net_next n) + i)%nat
          in Hfail by lia.
      - cbn. by replace (S (net_next n + k))%nat
          with (net_next n + S k)%nat by lia. }
    destruct (net_connect n (net_next n)); [done|exact Hrest..].
Qed.

Lemma connect_attempts_false (remaining : nat) (attempt max_attempts : Z)
    (c c' : BlenderConnection) (n n' : net) :
  sock c = None ->
  connect_attempts remaining attempt max_attempts c n = (false, c', n') ->
  sock c' = None.
Proof.
  revert attempt c n.
  induction remaining as [|remaining IH]; intros attempt c n Hc H;
    cbn [connect_attempts new_socket] in H.
  - by injection H as <- _.
  - destruct (net_connect _ _); [discriminate H|..];
      by apply IH in H.
Qed.

(** X12: [connect] tells the truth about the socket: it returns [True]
    exactly when the manager holds a socket afterwards, whatever the
    manager and the network were before. *)
Theorem connect_true_iff_socket (retries : option Z) (c : BlenderConnection)
    (n : net) :
  (connect retries c n).1.1 = true
  <-> sock (connect retries c n).1.2 <> None.
Proof.
  unfold connect. destruct (sock c) as [s|] eqn:Hs; cbn [fst snd].
  - rewrite Hs. split; done.
  - destruct (connect_attempts _ _ _ _ _) as [[ok c'] n'] eqn:E.
    cbn [fst snd]. destruct ok.
    + apply connect_attempts_token in E as [_ E]. split; done.
    + apply connect_attempts_false in E; [|done]. rewrite E. split; done.
Qed.

(** X13: a manager without a socket whose attempts all fail gives up
    after exactly [max_attempts] of them: [connect] returns [False], the
    manager is as it was (no socket, the cached token untouched), one
    socket was created per attempt and none was closed, and it slept
    between the attempts but not after the last one.  With
    [max_attempts] zero or negative nothing is attempted at all. *)
Theorem connect_gives_up (retries : option Z) (c : BlenderConnection)
    (n : net) :
  let max_attempts :=
    match retries with Some r => r | None => max_retries c end in
  sock c = None ->
  (forall i, (i < Z.to_nat max_attempts)%nat ->
             net_connect n (net_next n + i)%nat <> Connected) ->
  connect retries c n
  = (false, c,
     {| net_next := (net_next n + Z.to_nat max_attempts)%nat;
        net_closed := net_closed n;
        net_connect := net_connect n;
        env_token := env_token n;
        net_sleeps := (net_sleeps n + Z.to_nat (max_attempts - 1))%nat |}).
Proof.
  intros max_attempts Hc Hfail. unfold connect. rewrite Hc.
  fold max_attempts.
  destruct (Z.le_gt_cases max_attempts 0) as [Hle|Hgt].
  - replace (Z.to_nat max_attempts) with 0%nat by lia.
    replace (Z.to_nat (max_attempts - 1)) with 0%nat by lia.
    cbn [connect_attempts]. destruct n. cbn. do 2 f_equal; lia.
  - rewrite connect_attempts_fail; [|done|lia|done].
    by rewrite Z.sub_0_r.
Qed.

(** X14: a manager without a socket retries until an attempt succeeds.
    When the first [k] attempts fail and attempt [k], still within
    [max_attempts], connects, [connect] returns [True], keeps the socket
    of that attempt, caches the token found in the environment, has slept
    once after each failed attempt, and has closed none of the sockets of
    the failed attempts. *)
Theorem connect_retries_until_success (retries : option Z)
    (c : BlenderConnection) (n : net) (k : nat) :
  let max_attempts :=
    match retries with Some r => r | None => max_retries c end in
  sock c = None ->
  (k < Z.to_nat max_attempts)%nat ->
  (forall i, (i < k)%nat ->
             net_connect n (net_next n + i)%nat <> Connected) ->
  net_connect n (net_next n + k)%nat = Connected ->
  connect retries c n
  = (true,
     set_auth_token (env_token n) (set_sock (Some (net_next n + k)%nat) c),
     {| net_next := (net_next n + S k)%nat;
        net_closed := net_closed n;
        net_connect := net_connect n;
        env_token := env_token n;
        net_sleeps := (net_sleeps n + k)%nat |}).
Proof.
  intros max_attempts Hc Hk Hfail Hok. unfold connect. rewrite Hc.
  fold max_attempts.
  apply connect_attempts_succeed; [done|lia|done|done].
Qed.

(** ** Sending a command *)

Lemma receive_message (d : pydict) (chunks : list pybytes) :
  valid_json (JDict d) = true ->
  Forall (fun chunk => chunk <> []) chunks ->
  dumps_bytes (JDict d) = Some (concat chunks) ->
  receive_full_response (RecvData <$> chunks) = Returned (concat chunks).
Proof.
  intros Hv HF Hd.
  apply (receive_loop_frames (JDict d) (concat chunks)).
  - intros front back. by apply (loads_bytes_cut d).
  - by apply loads_bytes_dumps.
  - intros ->. rewrite dumps_bytes_valid in Hd by done.
    destruct (dumps_head _ Hv) as (c & r & E & _). rewrite E in Hd.
    discriminate Hd.
  - done.
  - done.
Qed.

Lemma send_command_connected (command_type : pystr) (params : option pydict)
    (x : exchange) (c : BlenderConnection) (n : net) (s : nat) :
  sock c = Some s ->
  send_command command_type params x c n
  = match send_command_try
            (build_command command_type params (auth_token c)) x with
    | inr (Some result) => (CommandReturned result, c, n)
    | inr None => (CommandBlocked, c, n)
    | inl e =>
      (CommandRaised (send_command_except e c).1,
       (send_command_except e c).2, n)
    end.
Proof.
  intros Hs. unfold send_command. rewrite Hs.
  destruct (send_command_try _ _) as [e|[r|]]; try done.
  by destruct (send_command_except e c).
Qed.

Lemma send_command_try_reply (command : pydict) (x : exchange)
    (sent data : pybytes) (v : json) :
  dumps_bytes (JDict command) = Some sent -> send_error x = None ->
  receive_full_response (replies x) = Returned data ->
  loads_bytes data = Parsed v ->
  send_command_try command x
  = match read_response v with
    | inl e => inl e
    | inr result => inr (Some result)
    end.
Proof.
  intros Hd Hs Hr Hl. unfold send_command_try. by rewrite Hd, Hs, Hr, Hl.
Qed.


Lemma connect_attempts_closed (remaining : nat) (attempt max_attempts : Z)
    (c : BlenderConnection) (n : net) :
  net_closed (connect_attempts remaining attempt max_attempts c n).2
  = net_closed n.
Proof.
  revert attempt c n.
  induction remaining as [|remaining IH]; intros attempt c n;
    cbn [connect_attempts new_socket]; [done|].
  destruct (net_connect _ _); [done|..]; rewrite IH;
    by destruct (attempt <? max_attempts - 1)%Z.
Qed.

Lemma connect_outcome (retries : option Z) (c c' : BlenderConnection)
    (n n' : net) (ok : bool) :
  connect retries c n = (ok, c', n') ->
  net_closed n' = net_closed n
  /\ (ok = true -> sock c' <> None)
  /\ (ok = false -> sock c' = None).
Proof.
  unfold connect. destruct (sock c) as [s|] eqn:Hs.
  - intros [= <- <- <-]. rewrite Hs. done.
  - intros H. split; [|split].
    + pose proof (connect_attempts_closed
                    (Z.to_nat match retries with
                              | Some r => r
                              | None => max_retries c
                              end) 0
                    match retries with
                    | Some r => r
                    | None => max_retries c
                    end c n) as Hc.
      by rewrite H in Hc.
    + intros ->. by apply connect_attempts_token in H as [_ H].
    + intros ->. by apply connect_attempts_false in H.
Qed.

Lemma receive_raised_kind (events : list recv_event)
    (collected : list pybytes) (e : exn) :
  receive_loop events collected = Raised e ->
  exn_kind_of e = OtherException \/ RecvError e ∈ events.
Proof.
  assert (forall chunks, after_receive_loop chunks = Raised e ->
            exn_kind_of e = OtherException) as Hafter.
  { intros chunks H. unfold after_receive_loop in H.
    destruct chunks; [by injection H as <-|].
    destruct (loads_bytes _); try discriminate H; by injection H as <-. }
  revert collected.
  induction events as [|ev events IH]; intros collected H;
    cbn [receive_loop] in H; [discriminate H|].
  destruct ev as [[|b chunk]|e0].
  - left. destruct collected; [by injection H as <-|by apply Hafter in H].
  - destruct (loads_bytes _); try discriminate H.
    + apply IH in H as [H|H]; [by left|right]. by right.
    + left. by injection H as <-.
  - destruct (exn_kind_of e0) eqn:E;
      try (injection H as <-; right; left).
    left. by apply Hafter in H.
Qed.

Lemma read_response_kind (response : json) (e : exn) :
  read_response response = inl e -> exn_kind_of e = OtherException.
Proof.
  unfold read_response.
  destruct response as [| | | | | |r]; try (by intros [= <-]).
  destruct (str_eq _ _); [by intros [= <-]|discriminate].
Qed.

(** A JSONDecodeError in the body of [send_command] can only be one
    that the socket itself raised: the bytes that [receive_full_response]
    returns always parse. *)
Lemma send_command_try_kind (command : pydict) (x : exchange) (e : exn) :
  send_command_try command x = inl e ->
  exn_kind_of e = JSONDecodeError ->
  send_error x = Some e \/ RecvError e ∈ replies x.
Proof.
  unfold send_command_try. intros H Hk.
  destruct (dumps_bytes _); [|injection H as <-; discriminate Hk].
  destruct (send_error x) as [e0|]; [left; congruence|].
  destruct (receive_full_response (replies x)) as [data|e0|] eqn:Hr;
    [| |discriminate H].
  - apply receive_loop_returned in Hr
      as (chunks & rest & _ & _ & _ & _ & [v Hv] & _); [|by left].
    rewrite Hv in H.
    destruct (read_response v) as [e0|r] eqn:Hrr; [|discriminate H].
    injection H as ->. apply read_response_kind in Hrr. congruence.
  - injection H as ->. apply receive_raised_kind in Hr as [Hr|Hr];
      [congruence|by right].
Qed.

Lemma send_command_except_drops (e : exn) (c : BlenderConnection) :
  exn_kind_of e <> JSONDecodeError ->
  sock (send_command_except e c).2 = None.
Proof. unfold send_command_except. by destruct (exn_kind_of e). Qed.

Lemma send_command_raised (command_type : pystr) (params : option pydict)
    (x : exchange) (c c' : BlenderConnection) (n n' : net) (e : exn) :
  (forall e0, send_error x = Some e0 -> exn_kind_of e0 <> JSONDecodeError) ->
  (forall e0, RecvError e0 ∈ replies x ->
              exn_kind_of e0 <> JSONDecodeError) ->
  send_command command_type params x c n = (CommandRaised e, c', n') ->
  sock c' = None /\ net_closed n' = net_closed n.
Proof.
  intros Hsend Hrecv.
  assert (forall c1 n1,
            match send_command_try
                    (build_command command_type params (auth_token c1)) x with
            | inr (Some result) => (CommandReturned result, c1, n1)
            | inr None => (CommandBlocked, c1, n1)
            | inl e0 =>
              let '(e', c2) := send_command_except e0 c1 in
              (CommandRaised e', c2, n1)
            end = (CommandRaised e, c', n') ->
            sock c' = None /\ n' = n1) as Htry.
  { intros c1 n1 H.
    destruct (send_command_try _ _) as [e0|[r|]] eqn:Et; try discriminate H.
    pose proof (send_command_except_drops e0 c1) as Hd.
    destruct (send_command_except e0 c1) as [e' c2].
    injection H as _ <- <-. split; [|done]. apply Hd.
    intros Hk. destruct (send_command_try_kind _ _ _ Et Hk) as [H|H].
    - by apply Hsend in H.
    - by apply Hrecv in H. }
  unfold send_command. destruct (sock c) as [s|] eqn:Hs.
  - intros H. apply Htry in H as [H ->]. done.
  - destruct (connect None c n) as [[ok c1] n1] eqn:Ec.
    apply connect_outcome in Ec as (Hcl & _ & Hfalse).
    destruct ok.
    + intros H. apply Htry in H as [H ->]. done.
    + intros [= _ <- <-]. split; [by apply Hfalse|done].
Qed.

(** X16: every failure of [send_command] leaves the manager without a
    socket, and none is ever closed on the way: the socket in use is
    dropped, not closed, so the next call has to connect again.  The
    only failure that would keep the socket is a JSONDecodeError raised
    by the socket calls themselves; the response can never cause one,
    since the receiver only returns bytes that parse. *)
Theorem send_command_failure_drops_socket (command_type : pystr)
    (params : option pydict) (x : exchange) (c c' : BlenderConnection)
    (n n' : net) (e : exn) :
  (forall e0, send_error x = Some e0 -> exn_kind_of e0 <> JSONDecodeError) ->
  (forall e0, RecvError e0 ∈ replies x ->
              exn_kind_of e0 <> JSONDecodeError) ->
  send_command command_type params x c n = (CommandRaised e, c', n') ->
  sock c' = None /\ net_closed n' = net_closed n.
Proof. apply send_command_raised. Qed.

(** X17: what the gate of the listener makes of the command a client
    builds.  The command is turned away exactly when the client holds a
    non-empty cached token that differs from the token of the listener;
    a client that found no token in its environment, or an empty one,
    attaches none and is let through whatever the listener's token is. *)
Theorem client_token_at_the_gate (T command_type : pystr)
    (params : option pydict) (token : option pystr) :
  auth_rejects T (build_command command_type params token) = true
  <-> exists t, token = Some t /\ t <> [] /\ t <> T.
Proof.
  rewrite auth_rejects_spec.
  destruct token as [[|a t]|];
    match goal with
    | |- context [get "auth_token" ?b] =>
      match b with
      | context [a :: t] =>
        assert (get "auth_token" b = JStr (a :: t)) as -> by reflexivity
      | _ => assert (get "auth_token" b = JNull) as -> by reflexivity
      end
    end; cbn [truthy].
  - split; [by intros [? _]|]. by intros (t & [= <-] & ? & _).
  - split.
    + intros [_ H]. exists (a :: t). split; [done|]. split; [done|].
      congruence.
    + intros (t' & [= <-] & _ & H). split; [done|]. congruence.
  - split; [by intros [? _]|]. by intros (t & ? & _).
Qed.

(** X18: the two timeouts of [send_command] are reported differently.
    A timeout while sending raises "Timeout waiting for Blender response
    - try simplifying your request".  A timeout of a read while the
    response is awaited never does: the receiver has already turned it
    into an ordinary exception, and what is raised is "Communication
    error with Blender: " followed by "Timeout: No data received" or,
    with part of a response received, "Incomplete JSON response
    received".  The manager loses its socket in both cases. *)
Theorem reply_timeout_is_a_communication_error (command_type : pystr)
    (params : option pydict) (x : exchange) (c : BlenderConnection)
    (n : net) (s : nat) (sent : pybytes) (e : exn) :
  sock c = Some s ->
  dumps_bytes (JDict (build_command command_type params (auth_token c)))
  = Some sent ->
  exn_kind_of e = TimeoutError ->
  (send_error x = Some e ->
   send_command command_type params x c n
   = (CommandRaised
        (exception
           "Timeout waiting for Blender response - try simplifying your request"),
      set_sock None c, n))
  /\ (forall events rest chunks,
       send_error x = None ->
       replies x = events ++ RecvError e :: rest ->
       receive_full_response events = Blocked chunks ->
       send_command command_type params x c n
       = (CommandRaised
            (exception_about "Communication error with Blender: "
               (py match chunks with
                   | [] => "Timeout: No data received"
                   | _ :: _ => "Incomplete JSON response received"
                   end)),
          set_sock None c, n)).
Proof.
  intros Hs Hd Hk. split.
  - intros Hse. rewrite (send_command_connected _ _ _ _ _ _ Hs).
    unfold send_command_try. rewrite Hd, Hse.
    unfold send_command_except. by rewrite Hk.
  - intros events rest chunks Hse Hr Hb.
    rewrite (send_command_connected _ _ _ _ _ _ Hs).
    unfold send_command_try. rewrite Hd, Hse, Hr.
    unfold receive_full_response in Hb |- *.
    rewrite (receive_loop_app _ _ _ _ Hb). cbn [receive_loop]. rewrite Hk.
    apply receive_loop_blocked in Hb as [->|[Hne HN]]; [done|].
    destruct chunks as [|c0 chunks]; [done|].
    unfold after_receive_loop. by rewrite HN.
Qed.

(** ** The persistent connection *)

Lemma send_command_returned (command_type : pystr) (params : option pydict)
    (x : exchange) (c c' : BlenderConnection) (n n' : net) (result : json) :
  send_command command_type params x c n = (CommandReturned result, c', n') ->
  sock c' <> None.
Proof.
  unfold send_command. destruct (sock c) as [s|] eqn:Hs.
  - destruct (send_command_try _ _) as [e|[r|]]; try discriminate.
    + by destruct (send_command_except e c).
    + intros [= _ <- _]. by rewrite Hs.
  - destruct (connect None c n) as [[ok c1] n1] eqn:Ec.
    apply connect_outcome in Ec as (_ & Htrue & _).
    destruct ok; [|discriminate].
    destruct (send_command_try _ _) as [e|[r|]]; try discriminate.
    + by destruct (send_command_except e c1).
    + intros [= _ <- _]. by apply Htrue.
Qed.

Lemma new_connection_outcome (env_host : pystr) (env_port : exn + Z)
    (enabled : json) (n : net) :
  match (new_connection env_host env_port enabled n).1.1 with
  | GotConnection c =>
    sock c <> None
    /\ _blender_connection (new_connection env_host env_port enabled n).1.2
       = Some c
  | ConnectionRaised e =>
    _blender_connection (new_connection env_host env_port enabled n).1.2
    = None
    /\ (env_port = inl e
        \/ e = exception
                 "Could not connect to Blender. Make sure the Blender addon is running.")
  | ConnectionBlocked => False
  end
  /\ net_closed (new_connection env_host env_port enabled n).2 = net_closed n.
Proof.
  unfold new_connection. destruct env_port as [e|p]; cbn [fst snd].
  - split; [|done]. split; [done|by left].
  - destruct (connect _ _ _) as [[ok c] n'] eqn:Ec.
    apply connect_outcome in Ec as (Hcl & Htrue & _).
    destruct ok; cbn [fst snd].
    + split; [|done]. split; [by apply Htrue|done].
    + split; [|done]. split; [done|by right].
Qed.

(** X19: what [get_blender_connection] hands out is connected.  When it
    returns a manager, that manager holds a socket and is the one kept in
    the module variable; when it raises, the module variable is empty, so
    the next call starts afresh, and the exception is either the one of
    reading the port or "Could not connect to Blender. Make sure the
    Blender addon is running."; it can only be left waiting by the ping
    of an existing connection. *)
Theorem persistent_connection_outcome (env_host : pystr)
    (env_port : exn + Z) (x : exchange) (g : client_globals) (n : net) :
  match (get_blender_connection env_host env_port x g n).1.1 with
  | GotConnection c =>
    sock c <> None
    /\ _blender_connection
         (get_blender_connection env_host env_port x g n).1.2 = Some c
  | ConnectionRaised e =>
    _blender_connection
      (get_blender_connection env_host env_port x g n).1.2 = None
    /\ (env_port = inl e
        \/ e = exception
                 "Could not connect to Blender. Make sure the Blender addon is running.")
  | ConnectionBlocked => _blender_connection g <> None
  end.
Proof.
  assert (forall n1,
    match (new_connection env_host env_port (_polyhaven_enabled g) n1).1.1
    with
    | GotConnection c =>
      sock c <> None
      /\ _blender_connection
           (new_connection env_host env_port (_polyhaven_enabled g) n1).1.2
         = Some c
    | ConnectionRaised e =>
      _blender_connection
        (new_connection env_host env_port (_polyhaven_enabled g) n1).1.2
      = None
      /\ (env_port = inl e
          \/ e = exception
                   "Could not connect to Blender. Make sure the Blender addon is running.")
    | ConnectionBlocked => _blender_connection g <> None
    end) as Hnew.
  { intros n1.
    destruct (new_connection_outcome env_host env_port
                (_polyhaven_enabled g) n1) as [H _].
    by destruct (new_connection _ _ _ _).1.1. }
  unfold get_blender_connection.
  destruct (_blender_connection g) as [c|]; [|apply Hnew].
  destruct (send_command _ _ _ _ _) as [[[r|e|] c1] n1] eqn:Es.
  - apply send_command_returned in Es.
    destruct r; try (destruct (disconnect c1 n1); apply Hnew).
    done.
  - destruct (disconnect c1 n1). apply Hnew.
  - done.
Qed.

(** X20: a connection whose ping fails is replaced, and its socket is
    never closed.  [send_command] has already dropped the socket when
    the failure reaches [get_blender_connection], so the [disconnect]
    there finds nothing to close: the call goes on as if there had been
    no connection, and no socket is closed by the whole call. *)
Theorem stale_socket_is_dropped_not_closed (env_host : pystr)
    (env_port : exn + Z) (x : exchange) (g : client_globals) (n : net)
    (c c1 : BlenderConnection) (n1 : net) (e : exn) :
  _blender_connection g = Some c ->
  (forall e0, send_error x = Some e0 -> exn_kind_of e0 <> JSONDecodeError) ->
  (forall e0, RecvError e0 ∈ replies x ->
              exn_kind_of e0 <> JSONDecodeError) ->
  send_command (py "get_polyhaven_status") None x c n
  = (CommandRaised e, c1, n1) ->
  get_blender_connection env_host env_port x g n
  = new_connection env_host env_port (_polyhaven_enabled g) n1
  /\ net_closed (get_blender_connection env_host env_port x g n).2
     = net_closed n.
Proof.
  intros Hg Hsend Hrecv Hs.
  destruct (send_command_raised _ _ _ _ _ _ _ _ Hsend Hrecv Hs) as [Hc Hn].
  assert (get_blender_connection env_host env_port x g n
          = new_connection env_host env_port (_polyhaven_enabled g) n1) as E.
  { unfold get_blender_connection. rewrite Hg, Hs.
    unfold disconnect. by rewrite Hc. }
  split; [done|]. rewrite E.
  destruct (new_connection_outcome env_host env_port
              (_polyhaven_enabled g) n1) as [_ H].
  congruence.
Qed.

(** X21: the ping keeps the client's view of the PolyHaven flag up to
    date.  When the manager kept in the module variable is connected and
    the listener answers its "get_polyhaven_status" command, whatever
    the chunks of the response, [get_blender_connection] returns that
    same manager and records the flag of the listener's scene as it is
    at this call. *)
Theorem ping_mirrors_polyhaven_flag (T : pystr) (w : world)
    (env_host : pystr) (env_port : exn + Z) (g : client_globals) (n : net)
    (c : BlenderConnection) (s : nat) (received : list pybytes) :
  let cmd := build_command (py "get_polyhaven_status") None (auth_token c) in
  let response := (execute_command T (JDict cmd) w).1 in
  let x := {| send_error := None; replies := RecvData <$> received |} in
  _blender_connection g = Some c ->
  sock c = Some s ->
  valid_json (JDict cmd) = true ->
  auth_rejects T cmd = false ->
  Forall (fun chunk => chunk <> []) received ->
  dumps_bytes response = Some (concat received) ->
  get_blender_connection env_host env_port x g n
  = (GotConnection c,
     {| _blender_connection := Some c;
        _polyhaven_enabled := JBool (blenderforge_use_polyhaven (bpy w)) |},
     n).
Proof.
  intros cmd response x Hg Hs Hvc Hgate HF Hd.
  assert (get "type" cmd = JStr (py "get_polyhaven_status")) as Ht.
  { subst cmd. by destruct (auth_token c) as [[|a t]|]. }
  assert (response
          = JDict [(py "status", JStr (py "success"));
                   (py "result",
                    JDict [(py "enabled",
                            JBool (blenderforge_use_polyhaven (bpy w)));
                           (py "message",
                            JStr (if blenderforge_use_polyhaven (bpy w)
                                  then polyhaven_enabled_message
                                  else polyhaven_disabled_message))])])
    as Hr.
  { subst response. unfold execute_command.
    rewrite execute_internal_gate, Hgate. unfold dispatch.
    rewrite Ht. cbn [str_eq]. rewrite bool_decide_true by done.
    rewrite invoke_spec. unfold call_method.
    rewrite decide_False by done. rewrite decide_True by done.
    cbn [fst snd]. unfold get_polyhaven_status, success_response.
    by destruct (blenderforge_use_polyhaven (bpy w)). }
  assert (valid_json response = true) as Hvr.
  { rewrite Hr. destruct (blenderforge_use_polyhaven (bpy w));
      vm_compute; reflexivity. }
  destruct (dumps_bytes (JDict cmd)) as [sent|] eqn:Hsent.
  2:{ rewrite dumps_bytes_valid in Hsent by done. discriminate Hsent. }
  unfold get_blender_connection. rewrite Hg.
  rewrite (send_command_connected _ _ _ _ _ _ Hs). fold cmd.
  rewrite Hr in Hvr, Hd.
  rewrite (send_command_try_reply cmd x sent (concat received) response);
    [rewrite Hr; reflexivity|done|done| |].
  - by apply (receive_message _ _ Hvr).
  - rewrite Hr. by apply loads_bytes_dumps.
Qed.

(** ** The codec: UTF-8 *)

Ltac decide_tests :=
  repeat match goal with
  | |- context [N.ltb ?a ?b] =>
    first [ replace (N.ltb a b) with true by (symmetry; apply N.ltb_lt; lia)
          | replace (N.ltb a b) with false
              by (symmetry; apply N.ltb_ge; lia) ]
  | |- context [N.leb ?a ?b] =>
    first [ replace (N.leb a b) with true by (symmetry; apply N.leb_le; lia)
          | replace (N.leb a b) with false
              by (symmetry; apply N.leb_gt; lia) ]
  | |- context [N.eqb ?a ?b] =>
    first [ replace (N.eqb a b) with true by (symmetry; apply N.eqb_eq; lia)
          | replace (N.eqb a b) with false
              by (symmetry; apply N.eqb_neq; lia) ]
  end.

Ltac split_tests :=
  repeat (decide_tests;
          try match goal with
              | |- context [N.eqb ?a ?b] => destruct (N.eqb_spec a b)
              end).

Lemma utf8_decode_encode_char (c : N) (bs : pybytes) (r : list N) :
  utf8_encode_char c = Some bs ->
  utf8_decode_N (map Byte.to_N bs ++ r) = cons c <$> utf8_decode_N r.
Proof.
  unfold utf8_encode_char.
  pose proof (N.div_mod c 64 ltac:(lia)) as D1.
  pose proof (N.mod_lt c 64 ltac:(lia)) as M1.
  pose proof (N.div_mod (c / 64) 64 ltac:(lia)) as D2.
  pose proof (N.mod_lt (c / 64) 64 ltac:(lia)) as M2.
  pose proof (N.div_mod (c / 64 / 64) 64 ltac:(lia)) as D3.
  pose proof (N.mod_lt (c / 64 / 64) 64 ltac:(lia)) as M3.
  replace (c / 4096) with (c / 64 / 64)
    by (rewrite N.Div0.div_div; reflexivity).
  replace (c / 262144) with (c / 64 / 64 / 64)
    by (rewrite !N.Div0.div_div; reflexivity).
  generalize dependent (c / 64 / 64 / 64). intros q3.
  generalize dependent ((c / 64 / 64) mod 64). intros m3.
  generalize dependent (c / 64 / 64). intros q2.
  generalize dependent ((c / 64) mod 64). intros m2.
  generalize dependent (c / 64). intros q1.
  generalize dependent (c mod 64). intros m1.
  intros M1 D1 M2 D2 M3 D3.
  destruct (N.ltb_spec c 0x80) as [H1|H1].
  { intros [= <-]. cbn [map app utf8_decode_N].
    rewrite byte_of_to_N by lia. by decide_tests. }
  destruct (N.ltb_spec c 0x800) as [H2|H2].
  { intros [= <-]. cbn [map app utf8_decode_N].
    rewrite !byte_of_to_N by lia.
    unfold in_range, is_cont. decide_tests. cbn [andb].
    f_equal. f_equal. lia. }
  destruct (N.ltb_spec c 0x10000) as [H3|H3].
  { unfold is_surrogate.
    destruct (N.leb_spec 0xD800 c) as [H4|H4];
      [destruct (N.leb_spec c 0xDFFF) as [H5|H5]|]; cbn [andb];
      [discriminate|..];
      intros [= <-]; cbn [map app utf8_decode_N];
      rewrite !byte_of_to_N by lia;
      unfold in_range, is_cont; split_tests; cbn [andb];
      f_equal; f_equal; lia. }
  destruct (N.ltb_spec c 0x110000) as [H4|H4]; [|discriminate].
  intros [= <-]. cbn [map app utf8_decode_N].
  rewrite !byte_of_to_N by lia.
  unfold in_range, is_cont. split_tests; cbn [andb].
  all: f_equal; f_equal; lia.
Qed.

Lemma utf8_decode_encode (s : pystr) (bs : pybytes) :
  utf8_encode s = Some bs -> utf8_decode bs = Some s.
Proof.
  revert bs. induction s as [|c s IH]; intros bs H; cbn [utf8_encode] in H.
  - by injection H as <-.
  - destruct (utf8_encode_char c) as [b1|] eqn:E1; [|discriminate H].
    destruct (utf8_encode s) as [b2|] eqn:E2; [|discriminate H].
    injection H as <-. unfold utf8_decode. rewrite map_app.
    rewrite (utf8_decode_encode_char _ _ _ E1).
    specialize (IH _ eq_refl). unfold utf8_decode in IH. by rewrite IH.
Qed.

Lemma utf8_encode_char_scalar (c : N) :
  scalar c = true -> exists bs, utf8_encode_char c = Some bs.
Proof.
  unfold scalar, utf8_encode_char. intros H.
  apply andb_true_iff in H as [H1 H2]. apply negb_true_iff in H2.
  rewrite H1, H2.
  destruct (c <? 128); [by eexists|].
  destruct (c <? 2048); [by eexists|].
  destruct (c <? 65536); by eexists.
Qed.

(** X22: the UTF-8 codec of the wire round-trips.  Every string of
    Unicode scalar values can be encoded, and whatever bytes encoding
    yields, one to four per character, the strict decoder of the other
    side gives the string back. *)
Theorem utf8_round_trip (s : pystr) :
  (valid_str s = true -> exists bs, utf8_encode s = Some bs)
  /\ (forall bs, utf8_encode s = Some bs -> utf8_decode bs = Some s).
Proof.
  split; [|apply utf8_decode_encode].
  induction s as [|c s IH]; cbn [valid_str forallb utf8_encode];
    [by eexists|].
  intros H. apply andb_true_iff in H as [Hc Hs].
  destruct (utf8_encode_char_scalar c Hc) as [b1 ->].
  destruct (IH Hs) as [b2 ->]. by eexists.
Qed.

(** ** Starting and stopping the listener *)

Lemma stop_spec (s : server) (p : process) :
  running (stop s p).1 = false
  /\ socket (stop s p).1 = None
  /\ server_thread (stop s p).1 = None
  /\ server_token (stop s p).1 = server_token s
  /\ environ_token (stop s p).2 = None
  /\ created_sockets (stop s p).2 = created_sockets p
  /\ closed_sockets (stop s p).2
     = match socket s with
       | Some k => k :: closed_sockets p
       | None => closed_sockets p
       end.
Proof.
  unfold stop, _cleanup_temp_files. cbn [_temp_files files].
  by destruct (cleanup_paths _ _ _).
Qed.

(** X23: the token is in the environment exactly when a start has
    succeeded.  Started on a stopped server, [start] either ends with
    the server running, its socket open and its token published under
    BLENDERFORGE_AUTH_TOKEN, or, when any step of the setup fails, with
    the server stopped, no socket and no thread kept, the socket it had
    created closed, and the variable removed from the environment, even
    if it was set before.  Started on a running server it changes
    nothing. *)
Theorem start_publishes_or_cleans_up (fault : option start_fault)
    (s : server) (p : process) :
  (running s = true -> start fault s p = (s, p))
  /\ (running s = false ->
      server_token (start fault s p).1 = server_token s
      /\ (running (start fault s p).1 = true
          <-> environ_token (start fault s p).2 = Some (server_token s))
      /\ (fault = None ->
          running (start fault s p).1 = true
          /\ socket (start fault s p).1 = Some (created_sockets p)
          /\ closed_sockets (start fault s p).2 = closed_sockets p)
      /\ (fault <> None ->
          running (start fault s p).1 = false
          /\ socket (start fault s p).1 = None
          /\ server_thread (start fault s p).1 = None
          /\ environ_token (start fault s p).2 = None
          /\ (fault <> Some SocketFails ->
              closed_sockets (start fault s p).2
              = created_sockets p :: closed_sockets p))).
Proof.
  unfold start. split; [by intros ->|]. intros ->.
  destruct fault as [[| |]|];
    match goal with
    | |- context [stop ?s1 ?p1] =>
      destruct (stop_spec s1 p1) as (H1 & H2 & H3 & H4 & H5 & H6 & H7);
      cbn [running socket server_thread server_token closed_sockets
           created_sockets] in H1, H2, H3, H4, H5, H6, H7;
      rewrite ?H1, ?H2, ?H3, ?H4, ?H5, ?H7
    | _ => cbn [fst snd running socket server_thread server_token
                environ_token closed_sockets]
    end;
    (split; [done|]); (split; [split; congruence|]);
    (split; [intros Hf; try discriminate Hf; done|]);
    intros Hf; try done; repeat (split; [done|]); congruence.
Qed.

(** X24: a restart keeps the token.  Stopping a server and starting it
    again publishes the very token it had before, so the command of a
    client that cached the token before the restart still passes the
    auth gate afterwards. *)
Theorem restart_keeps_token (s : server) (p : process)
    (command_type : pystr) (params : option pydict) :
  let stopped := stop s p in
  let restarted := start None stopped.1 stopped.2 in
  running restarted.1 = true
  /\ server_token restarted.1 = server_token s
  /\ environ_token restarted.2 = Some (server_token s)
  /\ auth_rejects (server_token restarted.1)
       (build_command command_type params (Some (server_token s)))
     = false.
Proof.
  intros stopped restarted.
  destruct (stop_spec s p) as (H1 & _ & _ & H4 & _).
  assert (restarted
          = ({| running := true; socket := Some (created_sockets stopped.2);
                server_thread := Some true;
                server_token := server_token stopped.1;
                _temp_files := _temp_files stopped.1 |},
             {| environ_token := Some (server_token stopped.1);
                created_sockets := S (created_sockets stopped.2);
                closed_sockets := closed_sockets stopped.2;
                files := files stopped.2 |})) as ->.
  { subst restarted stopped. unfold start. by rewrite H1. }
  cbn [fst snd running server_token environ_token]. subst stopped.
  rewrite H4. repeat (split; [done|]).
  apply not_true_iff_false. rewrite auth_rejects_spec.
  destruct (server_token s) as [|a t].
  - assert (get "auth_token" (build_command command_type params (Some []))
            = JNull) as E by reflexivity.
    intros [Ht _]. revert Ht.
    match goal with |- truthy ?v = true -> _ => change v with JNull end.
    discriminate.
  - intros [_ Hne]. apply Hne. reflexivity.
Qed.

Lemma cleanup_paths_subset (paths tracked : list pystr) (f : filesystem)
    (path : pystr) :
  path ∈ (cleanup_paths paths tracked f).1 -> path ∈ tracked.
Proof.
  revert tracked f.
  induction paths as [|a paths IH]; intros tracked f; cbn [cleanup_paths];
    [done|].
  destruct (remove_path a f) as [[|] f']; intros H; apply IH in H; [done|].
  by apply list_elem_of_filter in H as [_ H].
Qed.

Lemma cleanup_paths_removed (paths tracked : list pystr) (f : filesystem)
    (path : pystr) :
  (forall q g, (remove_path q g).1 = false) ->
  path ∈ (cleanup_paths paths tracked f).1
  <-> path ∈ tracked /\ path ∉ paths.
Proof.
  intros Hok. revert tracked f.
  induction paths as [|a paths IH]; intros tracked f; cbn [cleanup_paths].
  - split; [|by intros [? _]]. intros H. split; [done|]. apply not_elem_of_nil.
  - pose proof (Hok a f) as Ha.
    destruct (remove_path a f) as [raised f']. cbn [fst] in Ha. subst raised.
    rewrite IH, list_elem_of_filter, not_elem_of_cons. prop_tauto.
Qed.

(** X25: the cleanup of temporary files forgets what it removed.  After
    [_cleanup_temp_files] only paths that were tracked before are still
    tracked, a path just tracked by [_track_temp_file] being one of
    those it visits; when no removal raises, no path is left tracked;
    and the cleanup touches neither the server's state nor the
    environment. *)
Theorem cleanup_untracks_removed_paths (s : server) (p : process) :
  (forall path,
    path ∈ _temp_files (_cleanup_temp_files s p).1 ->
    path ∈ _temp_files s)
  /\ ((forall q g, (remove_path q g).1 = false) ->
      forall path,
        _temp_files (_cleanup_temp_files (_track_temp_file path s) p).1 = [])
  /\ running (_cleanup_temp_files s p).1 = running s
  /\ server_token (_cleanup_temp_files s p).1 = server_token s
  /\ environ_token (_cleanup_temp_files s p).2 = environ_token p
  /\ closed_sockets (_cleanup_temp_files s p).2 = closed_sockets p.
Proof.
  split; [|split].
  - intros path. unfold _cleanup_temp_files.
    pose proof (cleanup_paths_subset (_temp_files s) (_temp_files s)
                  (files p) path) as H.
    by destruct (cleanup_paths _ _ _).
  - intros Hok path. unfold _cleanup_temp_files.
    pose proof (fun q =>
                  cleanup_paths_removed
                    (_temp_files (_track_temp_file path s))
                    (_temp_files (_track_temp_file path s)) (files p) q Hok)
      as H.
    destruct (cleanup_paths _ _ _) as [tracked f]. cbn [fst snd _temp_files] in *.
    apply elem_of_nil_inv. intros q Hq. apply H in Hq as [Hq1 Hq2]. done.
  - unfold _cleanup_temp_files. by destruct (cleanup_paths _ _ _).
Qed.

End Bridge.

Arguments JNull {pyfloat}.
Arguments JBool {pyfloat}.
Arguments JInt {pyfloat}.
Arguments JFloat {pyfloat}.
Arguments JStr {pyfloat}.
Arguments JList {pyfloat}.
Arguments JDict {pyfloat}.
Arguments Build_world {pyfloat}.
Arguments Build_blender {pyfloat}.
Arguments Build_scene_object {pyfloat}.
Arguments Build_BlenderConnection {pyfloat}.
Arguments bpy {pyfloat}.
Arguments calls {pyfloat}.
Arguments sock {pyfloat}.
Arguments auth_token {pyfloat}.
Arguments Parsed {pyfloat}.
Arguments NotJSON {pyfloat}.
Arguments CommandReturned {pyfloat}.
Arguments CommandRaised {pyfloat}.
Arguments CommandBlocked {pyfloat}.
Arguments GotConnection {pyfloat}.
Arguments ConnectionRaised {pyfloat}.
Arguments ConnectionBlocked {pyfloat}.
Arguments Build_client_globals {pyfloat}.
Arguments _blender_connection {pyfloat}.
Arguments _polyhaven_enabled {pyfloat}.

(** * Worked instances

    The parameters are fixed here: floats are counted in hundredths, the
    runtime names its errors by their class, and the host answers
    [get_object_info] with an embedded error, raises in [execute_code] and
    returns an empty mapping everywhere else. *)

Abbreviation stub_round2 := (fun x : Z => x) (only parsing).
Abbreviation stub_literal := (fun _ : pystr => 0%Z) (only parsing).
Abbreviation stub_floatstr := (fun _ : Z => py "0.0") (only parsing).
Abbreviation stub_truthy := (fun x : Z => negb (x =? 0)%Z) (only parsing).
Abbreviation stub_error :=
  (fun e : runtime_error Z =>
     match e with
     | NoGetAttribute _ _ => py "AttributeError"
     | UnhashableKey _ _ => py "TypeError"
     | BadKeywordArguments _ _ _ => py "TypeError"
     | BadUTF8 _ _ => py "UnicodeDecodeError"
     end) (only parsing).
Abbreviation stub_host :=
  (fun (m : string) (_ : pydict Z) (b : blender Z) =>
     if decide (m = "get_object_info"%string)
     then (inr (JDict [(py "error", JStr (py "Object not found"))]), b)
     else if decide (m = "execute_code"%string)
     then (inl (exception "boom"), b)
     else (inr (JDict []), b)) (only parsing).
Abbreviation run :=
  (_execute_command_internal Z stub_round2 stub_error stub_host stub_truthy
     stub_floatstr) (only parsing).
Abbreviation respond :=
  (execute_command Z stub_round2 stub_error stub_host stub_truthy
     stub_floatstr) (only parsing).
Abbreviation scene flags :=
  {| scene_name := py "Scene"; scene_objects := []; data_materials := [];
     blenderforge_use_polyhaven := flags;
     blenderforge_use_hyper3d := flags;
     blenderforge_use_sketchfab := flags;
     blenderforge_use_hunyuan3d := flags |} (only parsing).
Abbreviation fresh flags := {| bpy := scene flags; calls := [] |} (only parsing).
Abbreviation command type params :=
  [(py "type", JStr (py type)); (py "params", JDict params)] (only parsing).
Abbreviation command_with type params token :=
  [(py "type", JStr (py type)); (py "params", JDict params);
   (py "auth_token", JStr (py token))] (only parsing).

(** The client side: the texts left to the interpreter, a manager, the
    network around it and two failures of the socket. *)
Abbreviation stub_container := (fun _ : json Z => py "[...]") (only parsing).
Abbreviation stub_encode_error :=
  (fun _ : pystr => py "UnicodeEncodeError") (only parsing).
Abbreviation stub_decode_error :=
  (fun _ : pybytes => py "JSONDecodeError") (only parsing).
Abbreviation send :=
  (send_command Z stub_literal stub_floatstr stub_error stub_floatstr
     stub_container stub_encode_error stub_decode_error) (only parsing).
Abbreviation persistent :=
  (get_blender_connection Z stub_literal stub_floatstr stub_error
     stub_floatstr stub_container stub_encode_error stub_decode_error)
  (only parsing).
Abbreviation wire v :=
  (default [] (dumps_bytes Z stub_floatstr v)) (only parsing).
Abbreviation manager s t :=
  {| host := py "localhost"; port := 9876%Z; sock := s; auth_token := t;
     max_retries := 3%Z; retry_delay := 100%Z |} (only parsing).
Abbreviation network f :=
  {| net_next := 1; net_closed := []; net_connect := f;
     env_token := Some (py "abc123"); net_sleeps := 0 |} (only parsing).
Abbreviation timed_out :=
  {| exn_kind_of := TimeoutError; exn_str := py "timed out" |} (only parsing).
Abbreviation reset_by_peer :=
  {| exn_kind_of := ConnectionError; exn_str := py "Connection reset by peer" |}
  (only parsing).


(** C2, the claim as stated fails: with listener token "abc123", a command
    whose [auth_token] is the empty string, hence different from the
    token, is not answered with the auth error; its handler runs. *)
Lemma auth_invariant_counterexample :
  ~ (forall (T : pystr) (cmd : pydict Z) (v : json Z) (w : world Z),
      T <> [] ->
      dict_lookup Z (py "auth_token") cmd = Some v ->
      v <> JStr T ->
      run T (JDict cmd) w = (inr (auth_error Z), w)).
Proof.
  intros H.
  specialize (H (py "abc123") (command_with "get_scene_info" [] "")
                (JStr []) (fresh false)).
  assert (calls (run (py "abc123")
                   (JDict (command_with "get_scene_info" [] ""))
                   (fresh false)).2
          = [("get_scene_info"%string, [])]) as E
    by (vm_compute; reflexivity).
  rewrite H in E; [discriminate E|discriminate|reflexivity|discriminate].
Qed.

(** Witness of C2 (amended): token "right"; a command without token and a
    command with token "right" run [get_scene_info]; a command with token
    "wrong" gets the auth error and the call log stays empty. *)
Lemma auth_gate_truthy_token_witness :
  calls (run (py "right") (JDict (command "get_scene_info" []))
           (fresh false)).2 = [("get_scene_info"%string, [])]
  /\ calls (run (py "right")
              (JDict (command_with "get_scene_info" [] "right"))
              (fresh false)).2 = [("get_scene_info"%string, [])]
  /\ run (py "right") (JDict (command_with "get_scene_info" [] "wrong"))
       (fresh false)
     = (inr (auth_error Z), fresh false).
Proof.
  assert (py "right" <> []) as HT by discriminate.
  split; [|split].
  - apply (proj2 (proj1 (auth_gate_truthy_token Z stub_round2 stub_error
                           stub_host stub_truthy stub_floatstr
                           (py "right") (command "get_scene_info" [])
                           (fresh false) HT)
                    (or_introl eq_refl))
             (py "get_scene_info") "get_scene_info"%string []).
    + reflexivity.
    + discriminate.
    + vm_compute; reflexivity.
    + reflexivity.
  - apply (proj2 (proj1 (auth_gate_truthy_token Z stub_round2 stub_error
                           stub_host stub_truthy stub_floatstr
                           (py "right")
                           (command_with "get_scene_info" [] "right")
                           (fresh false) HT)
                    (or_intror eq_refl))
             (py "get_scene_info") "get_scene_info"%string []).
    + reflexivity.
    + discriminate.
    + vm_compute; reflexivity.
    + reflexivity.
  - apply (proj2 (auth_gate_truthy_token Z stub_round2 stub_error
                    stub_host stub_truthy stub_floatstr
                    (py "right")
                    (command_with "get_scene_info" [] "wrong")
                    (fresh false) HT) (JStr (py "wrong"))).
    + reflexivity.
    + reflexivity.
    + discriminate.
Defined.

(** Witness of C10: token "abc123"; the command carries the empty string
    as [auth_token] and still runs [get_scene_info]. *)
Lemma empty_token_is_dispatched_witness :
  calls (run (py "abc123") (JDict (command_with "get_scene_info" [] ""))
           (fresh false)).2 = [("get_scene_info"%string, [])]
  /\ (auth_rejects Z stub_truthy (py "abc123")
        (command_with "get_scene_info" [] "") = true
      <-> ([] : pystr) <> [] /\ [] <> py "abc123").
Proof.
  assert (py "abc123" <> []) as HT by discriminate.
  pose proof (empty_token_is_dispatched Z stub_round2 stub_error stub_host
                stub_truthy stub_floatstr (py "abc123")
                (command_with "get_scene_info" [] "") (fresh false) HT)
    as [H1 H2].
  split.
  - destruct (H1 eq_refl) as (_ & _ & H).
    apply (H (py "get_scene_info") "get_scene_info"%string []).
    + reflexivity.
    + discriminate.
    + vm_compute; reflexivity.
    + reflexivity.
  - apply (H2 []). reflexivity.
Defined.

(** Witness of C6: the type "nonexistent_op" names no handler. *)
Lemma unknown_command_type_witness :
  respond (py "abc123") (JDict (command "nonexistent_op" [])) (fresh true)
  = (JDict [(py "status", JStr (py "error"));
            (py "message",
             JStr (py "Unknown command type: nonexistent_op"))],
     fresh true).
Proof.
  apply (proj2 (unknown_command_type Z stub_round2 stub_error stub_host
                  stub_truthy stub_floatstr (py "abc123")
                  (command "nonexistent_op" []) (py "nonexistent_op")
                  (fresh true) eq_refl eq_refl
                  ltac:(vm_compute; reflexivity))).
Defined.

(** Witness of C4: [execute_code] raises "boom" and is answered with
    status "error"; [get_object_info] returns a mapping with an "error"
    key and is answered with status "success" around that mapping. *)
Lemma handler_failure_channels_witness :
  respond (py "abc123") (JDict (command "execute_code" [])) (fresh false)
  = (JDict [(py "status", JStr (py "error"));
            (py "message", JStr (py "boom"))],
     {| bpy := scene false; calls := [("execute_code"%string, [])] |})
  /\ respond (py "abc123") (JDict (command "get_object_info" []))
       (fresh false)
     = (JDict [(py "status", JStr (py "success"));
               (py "result",
                JDict [(py "error", JStr (py "Object not found"))])],
        {| bpy := scene false; calls := [("get_object_info"%string, [])] |}).
Proof.
  split.
  - apply (proj1 (handler_failure_channels Z stub_round2 stub_error
                    stub_host stub_truthy stub_floatstr (py "abc123")
                    (command "execute_code" []) (py "execute_code")
                    "execute_code"%string [] (fresh false)
                    eq_refl eq_refl ltac:(discriminate)
                    ltac:(vm_compute; reflexivity) eq_refl)
             (exception "boom") (scene false)).
    reflexivity.
  - apply (proj2 (handler_failure_channels Z stub_round2 stub_error
                    stub_host stub_truthy stub_floatstr (py "abc123")
                    (command "get_object_info" []) (py "get_object_info")
                    "get_object_info"%string [] (fresh false)
                    eq_refl eq_refl ltac:(discriminate)
                    ltac:(vm_compute; reflexivity) eq_refl)
             (JDict [(py "error", JStr (py "Object not found"))])
             (scene false)).
    reflexivity.
Defined.

(** C3, the claim as stated fails: "auto_rig" belongs to the AI helpers,
    and with every enablement flag cleared the command is still run by
    its handler instead of getting the unknown-command error. *)
Lemma feature_gating_counterexample :
  "auto_rig"%string ∈ ai_handlers
  /\ ~ (forall (n : string) (w : world Z),
         n ∈ ai_handlers ++ advanced_handlers ->
         blenderforge_use_polyhaven Z (bpy w) = false ->
         blenderforge_use_hyper3d Z (bpy w) = false ->
         blenderforge_use_sketchfab Z (bpy w) = false ->
         blenderforge_use_hunyuan3d Z (bpy w) = false ->
         run (py "abc123") (JDict (command n [])) w
         = (inr (unknown_command Z stub_floatstr (JStr (py n))), w)).
Proof.
  split.
  - apply (bool_decide_unpack _). vm_compute. exact I.
  - intros H.
    specialize (H "auto_rig"%string (fresh false)).
    assert (run (py "abc123") (JDict (command "auto_rig" [])) (fresh false)
            = (inr (success_response Z (JDict [])),
               {| bpy := scene false;
                  calls := [("auto_rig"%string, [])] |})) as E
      by (vm_compute; reflexivity).
    rewrite H in E; try reflexivity; [discriminate E|].
    apply (bool_decide_unpack _). vm_compute. exact I.
Qed.

(** Witness of C3 (amended): "search_polyhaven_assets" is unknown with the
    flags cleared and runs with the flags set; "auto_rig" is in the table
    with the flags cleared. *)
Lemma feature_gating_at_dispatch_witness :
  run (py "abc123") (JDict (command "search_polyhaven_assets" []))
    (fresh false)
  = (inr (unknown_command Z stub_floatstr
            (JStr (py "search_polyhaven_assets"))), fresh false)
  /\ calls (run (py "abc123")
              (JDict (command "search_polyhaven_assets" []))
              (fresh true)).2
     = [("search_polyhaven_assets"%string, [])]
  /\ build_handlers Z (scene false) !! py "auto_rig"
     = Some "auto_rig"%string.
Proof.
  assert ((blenderforge_use_polyhaven Z, polyhaven_handlers)
          ∈ gated_groups Z) as Hg by left.
  assert ("search_polyhaven_assets"%string ∈ polyhaven_handlers) as Hn
    by (apply (bool_decide_unpack _); vm_compute; exact I).
  split; [|split].
  - apply (proj1 (feature_gating_at_dispatch Z stub_round2 stub_error
                    stub_host stub_truthy stub_floatstr (py "abc123")
                    (command "search_polyhaven_assets" [])
                    "search_polyhaven_assets"%string (fresh false)
                    eq_refl eq_refl) _ _ Hg Hn).
    reflexivity.
  - rewrite (proj1 (proj2 (proj1 (feature_gating_at_dispatch Z stub_round2
                    stub_error stub_host stub_truthy stub_floatstr
                    (py "abc123") (command "search_polyhaven_assets" [])
                    "search_polyhaven_assets"%string (fresh true)
                    eq_refl eq_refl) _ _ Hg Hn)) eq_refl).
    reflexivity.
  - apply (proj2 (feature_gating_at_dispatch Z stub_round2 stub_error
                    stub_host stub_truthy stub_floatstr (py "abc123")
                    (command "auto_rig" []) "auto_rig"%string (fresh false)
                    eq_refl eq_refl)).
    apply (bool_decide_unpack _). vm_compute. exact I.
Defined.

(** Witness of C9: a scene of twelve objects reports twelve and lists
    ten. *)
Lemma get_scene_info_truncates_witness :
  let obj := {| obj_name := py "Cube"; obj_type := py "MESH";
                obj_location := (100%Z, 0%Z, 250%Z) |} in
  let b := {| scene_name := py "Scene"; scene_objects := replicate 12 obj;
              data_materials := [];
              blenderforge_use_polyhaven := false;
              blenderforge_use_hyper3d := false;
              blenderforge_use_sketchfab := false;
              blenderforge_use_hunyuan3d := false |} in
  get Z "object_count" (match get_scene_info Z stub_round2 b with
                        | JDict d => d | _ => [] end) = JInt 12
  /\ (obj_info Z stub_round2 <$> take 10 (scene_objects Z b)) !! 9%nat
     = Some (JDict [(py "name", JStr (py "Cube"));
                    (py "type", JStr (py "MESH"));
                    (py "location",
                     JList [JFloat 100%Z; JFloat 0%Z; JFloat 250%Z])])
  /\ (obj_info Z stub_round2 <$> take 10 (scene_objects Z b)) !! 10%nat
     = None.
Proof.
  intros obj b.
  destruct (get_scene_info_truncates Z stub_round2 b) as (H1 & H2 & H3).
  split; [|split].
  - rewrite H1. reflexivity.
  - apply (H3 9%nat obj); [lia|reflexivity].
  - apply lookup_ge_None. exact H2.
Defined.

(** Witness of C5: half a response has arrived when the peer closes. *)
Lemma zero_byte_read_fails_witness :
  receive_full_response Z stub_literal stub_error
    ([RecvData [x7b; x22; x73]] ++ RecvData [] :: [RecvData [x7d]])
  = Raised (exception "Incomplete JSON response received").
Proof.
  apply (zero_byte_read_fails Z stub_literal stub_error
           [RecvData [x7b; x22; x73]] [RecvData [x7d]] [[x7b; x22; x73]]).
  vm_compute. reflexivity.
Defined.

(** C8, the claim as stated fails: after [disconnect()] the cached token
    is still there. *)
Lemma disconnect_counterexample :
  let c := {| host := py "localhost"; port := 9876%Z; sock := Some 0%nat;
              auth_token := Some (py "abc123"); max_retries := 3%Z;
              retry_delay := 100%Z |} in
  let n := {| net_next := 1; net_closed := [];
              net_connect := fun _ => Connected; env_token := None;
              net_sleeps := 0 |} in
  sock (disconnect Z c n).1 = None
  /\ auth_token (disconnect Z c n).1 = Some (py "abc123")
  /\ auth_token (disconnect Z c n).1 <> None.
Proof. repeat split. discriminate. Qed.

(** Witness of C8 (amended): socket 0 is closed, the token "old" stays
    until the next connect reads "new" from the environment. *)
Lemma disconnect_closes_and_keeps_token_witness :
  let c := {| host := py "localhost"; port := 9876%Z; sock := Some 0%nat;
              auth_token := Some (py "old"); max_retries := 3%Z;
              retry_delay := 100%Z |} in
  let n := {| net_next := 1; net_closed := [];
              net_connect := fun s => if (s <? 2)%nat then ConnectRefused
                                      else Connected;
              env_token := Some (py "new"); net_sleeps := 0 |} in
  net_closed (disconnect Z c n).2 = [0%nat]
  /\ auth_token (disconnect Z c n).1 = Some (py "old")
  /\ auth_token (connect Z None (disconnect Z c n).1 (disconnect Z c n).2).1.2
     = Some (py "new").
Proof.
  intros c n.
  destruct (disconnect_closes_and_keeps_token Z c n)
    as (_ & H2 & _ & _ & H5 & H6).
  split; [|split].
  - apply (H2 0%nat). reflexivity.
  - exact H5.
  - apply (H6 None _
             (connect Z None (disconnect Z c n).1 (disconnect Z c n).2).2).
    vm_compute. reflexivity.
Defined.

(** * Worked instances of the further properties *)

(** Witness of X3: the status command with a list for parameters. *)
Lemma polyhaven_status_ignores_params_witness :
  respond (py "abc123")
    (JDict [(py "type", JStr (py "get_polyhaven_status"));
            (py "params", JList [JInt 1])])
    (fresh true)
  = (JDict [(py "status", JStr (py "success"));
            (py "result",
             JDict [(py "enabled", JBool true);
                    (py "message", JStr polyhaven_enabled_message)])],
     {| bpy := scene true;
        calls := [("get_polyhaven_status"%string, [])] |}).
Proof.
  apply (polyhaven_status_ignores_params Z stub_round2 stub_error stub_host
           stub_truthy stub_floatstr (py "abc123")
           [(py "type", JStr (py "get_polyhaven_status"));
            (py "params", JList [JInt 1])]
           (fresh true)); reflexivity.
Defined.

(** Witness of X4: "get_scene_info" without parameters and with null
    for parameters. *)
Lemma params_must_be_a_mapping_witness :
  (respond (py "abc123") (JDict [(py "type", JStr (py "get_scene_info"))])
     (fresh false)).2
  = {| bpy := scene false; calls := [("get_scene_info"%string, [])] |}
  /\ respond (py "abc123")
       (JDict [(py "type", JStr (py "get_scene_info")); (py "params", JNull)])
       (fresh false)
     = (JDict [(py "status", JStr (py "error"));
               (py "message", JStr (py "TypeError"))],
        fresh false).
Proof.
  split.
  - apply (proj1 (params_must_be_a_mapping Z stub_round2 stub_error
                    stub_host stub_truthy stub_floatstr (py "abc123")
                    [(py "type", JStr (py "get_scene_info"))]
                    (py "get_scene_info") "get_scene_info"%string
                    (fresh false)
                    eq_refl eq_refl ltac:(discriminate)
                    ltac:(vm_compute; reflexivity))).
    reflexivity.
  - apply (proj2 (params_must_be_a_mapping Z stub_round2 stub_error
                    stub_host stub_truthy stub_floatstr (py "abc123")
                    [(py "type", JStr (py "get_scene_info"));
                     (py "params", JNull)]
                    (py "get_scene_info") "get_scene_info"%string
                    (fresh false)
                    eq_refl eq_refl ltac:(discriminate)
                    ltac:(vm_compute; reflexivity)) JNull).
    + reflexivity.
    + discriminate.
Defined.

(** Witness of X5: a command without a type and a command whose type is
    the number 7. *)
Lemma non_string_type_runs_nothing_witness :
  respond (py "abc123") (JDict []) (fresh true)
  = (JDict [(py "status", JStr (py "error"));
            (py "message", JStr (py "Unknown command type: None"))],
     fresh true)
  /\ respond (py "abc123") (JDict [(py "type", JInt 7)]) (fresh true)
     = (JDict [(py "status", JStr (py "error"));
               (py "message", JStr (py "Unknown command type: 7"))],
        fresh true).
Proof.
  split.
  - destruct (non_string_type_runs_nothing Z stub_round2 stub_error
                stub_host stub_truthy stub_floatstr (py "abc123") []
                (fresh true) eq_refl ltac:(discriminate))
      as (H1 & H2 & _).
    apply injective_projections; [apply H2; reflexivity|exact H1].
  - destruct (non_string_type_runs_nothing Z stub_round2 stub_error
                stub_host stub_truthy stub_floatstr (py "abc123")
                [(py "type", JInt 7)]
                (fresh true) eq_refl ltac:(discriminate))
      as (H1 & _ & H3 & _).
    apply injective_projections; [apply (H3 7%Z); reflexivity|exact H1].
Defined.


(** Witness of X8: two commands in one read, and a third one later. *)
Lemma coalesced_commands_never_run_witness :
  let cmd := build_command Z (py "get_scene_info") None None in
  (_handle_client Z stub_literal
     [Received (wire (JDict cmd) ++ wire (JDict cmd));
      Received (wire (JDict cmd))] []).1
  = [].
Proof.
  intros cmd.
  apply (coalesced_commands_never_run Z stub_literal stub_floatstr cmd cmd
           (wire (JDict cmd)) (wire (JDict cmd)) (wire (JDict cmd)) [] []
           (wire (JDict cmd) ++ wire (JDict cmd))
           [Received (wire (JDict cmd))]);
    try (vm_compute; reflexivity); vm_compute; discriminate.
Defined.

(** Witness of X9: a command followed by a line end. *)
Lemma blanks_around_a_command_witness :
  let cmd := build_command Z (py "get_scene_info") None None in
  _handle_client Z stub_literal
    [Received ((byte_of <$> []) ++ wire (JDict cmd) ++ (byte_of <$> [10]))] []
  = ([JDict cmd], Reading []).
Proof.
  intros cmd.
  apply (blanks_around_a_command Z stub_literal stub_floatstr cmd
           (wire (JDict cmd)) [] [10]); vm_compute; reflexivity.
Defined.


(** Witness of X11: a timeout after half a response, and a reset. *)
Lemma receive_error_while_waiting_witness :
  receive_full_response Z stub_literal stub_error
    ([RecvData [x7b]] ++ RecvError timed_out :: [])
  = Raised (exception "Incomplete JSON response received")
  /\ receive_full_response Z stub_literal stub_error
       ([RecvData [x7b]] ++ RecvError reset_by_peer :: [])
     = Raised reset_by_peer.
Proof.
  split.
  - apply (receive_error_while_waiting Z stub_literal stub_error
             [RecvData [x7b]] [] [[x7b]] timed_out).
    vm_compute. reflexivity.
  - apply (receive_error_while_waiting Z stub_literal stub_error
             [RecvData [x7b]] [] [[x7b]] reset_by_peer).
    vm_compute. reflexivity.
Defined.

(** Witness of X13: three refused attempts. *)
Lemma connect_gives_up_witness :
  connect Z None (manager None (Some (py "old")))
    (network (fun _ => ConnectRefused))
  = (false, manager None (Some (py "old")),
     {| net_next := 4; net_closed := [];
        net_connect := fun _ => ConnectRefused;
        env_token := Some (py "abc123"); net_sleeps := 2 |}).
Proof.
  apply (connect_gives_up Z None (manager None (Some (py "old")))
           (network (fun _ => ConnectRefused))).
  - reflexivity.
  - discriminate.
Defined.

(** Witness of X14: two refused attempts, then a connection. *)
Lemma connect_retries_until_success_witness :
  connect Z None (manager None (Some (py "old")))
    (network (fun s => if (s <? 3)%nat then ConnectRefused else Connected))
  = (true, manager (Some 3%nat) (Some (py "abc123")),
     {| net_next := 4; net_closed := [];
        net_connect :=
          fun s => if (s <? 3)%nat then ConnectRefused else Connected;
        env_token := Some (py "abc123"); net_sleeps := 2 |}).
Proof.
  apply (connect_retries_until_success Z None
           (manager None (Some (py "old")))
           (network (fun s => if (s <? 3)%nat then ConnectRefused
                              else Connected))
           2%nat).
  - reflexivity.
  - vm_compute. lia.
  - intros i Hi. destruct i as [|[|i]]; [discriminate|discriminate|lia].
  - reflexivity.
Defined.


(** Witness of X16: the peer resets the connection while the command is
    sent. *)
Lemma send_command_failure_drops_socket_witness :
  let c := manager (Some 0%nat) (Some (py "abc123")) in
  let n := network (fun _ => Connected) in
  let x := {| send_error := Some reset_by_peer; replies := [] |} in
  sock (send (py "get_scene_info") None x c n).1.2 = None
  /\ net_closed (send (py "get_scene_info") None x c n).2 = [].
Proof.
  intros c n x.
  apply (send_command_failure_drops_socket Z stub_literal stub_floatstr
           stub_error stub_floatstr stub_container stub_encode_error
           stub_decode_error (py "get_scene_info") None x c
           (send (py "get_scene_info") None x c n).1.2 n
           (send (py "get_scene_info") None x c n).2
           (exception_about "Connection to Blender lost: "
              (py "Connection reset by peer"))).
  - intros e0 [= <-]. discriminate.
  - intros e0 H. by apply elem_of_nil in H.
  - vm_compute. reflexivity.
Defined.

(** Witness of X18: the listener never answers. *)
Lemma reply_timeout_is_a_communication_error_witness :
  let c := manager (Some 0%nat) (Some (py "abc123")) in
  let n := network (fun _ => Connected) in
  send (py "get_scene_info") None
    {| send_error := None; replies := [] ++ RecvError timed_out :: [] |} c n
  = (CommandRaised
       (exception_about "Communication error with Blender: "
          (py "Timeout: No data received")),
     set_sock Z None c, n).
Proof.
  intros c n.
  apply (proj2 (reply_timeout_is_a_communication_error Z stub_literal
                  stub_floatstr stub_error stub_floatstr stub_container
                  stub_encode_error stub_decode_error (py "get_scene_info")
                  None
                  {| send_error := None;
                     replies := [] ++ RecvError timed_out :: [] |}
                  c n 0%nat
                  (wire (JDict (build_command Z (py "get_scene_info") None
                                  (Some (py "abc123")))))
                  timed_out eq_refl ltac:(vm_compute; reflexivity) eq_refl)
           [] [] []); reflexivity.
Defined.

(** Witness of X20: the ping of the kept connection is reset by the
    peer; the next connection uses a new socket. *)
Lemma stale_socket_is_dropped_not_closed_witness :
  let c := manager (Some 0%nat) (Some (py "old")) in
  let g := {| _blender_connection := Some c;
              _polyhaven_enabled := JBool false |} in
  let n := network (fun _ => Connected) in
  let x := {| send_error := Some reset_by_peer; replies := [] |} in
  (persistent (py "localhost") (inr 9876%Z) x g n).1.1
  = GotConnection
      {| host := py "localhost"; port := 9876%Z; sock := Some 1%nat;
         auth_token := Some (py "abc123"); max_retries := 3%Z;
         retry_delay := 0%Z |}
  /\ net_closed (persistent (py "localhost") (inr 9876%Z) x g n).2 = [].
Proof.
  intros c g n x.
  destruct (stale_socket_is_dropped_not_closed Z stub_literal stub_floatstr
              stub_error stub_floatstr stub_container stub_encode_error
              stub_decode_error (py "localhost") (inr 9876%Z) x g n c
              (set_sock Z None c) n
              (exception_about "Connection to Blender lost: "
                 (py "Connection reset by peer")))
    as [H1 H2].
  - reflexivity.
  - intros e0 [= <-]. discriminate.
  - intros e0 H. by apply elem_of_nil in H.
  - vm_compute. reflexivity.
  - split; [|exact H2]. rewrite H1. vm_compute. reflexivity.
Defined.

(** Witness of X21: the ping of a connected manager against a listener
    whose PolyHaven flag is set. *)
Lemma ping_mirrors_polyhaven_flag_witness :
  let c := manager (Some 0%nat) (Some (py "abc123")) in
  let g := {| _blender_connection := Some c;
              _polyhaven_enabled := JBool false |} in
  let n := network (fun _ => Connected) in
  let cmd :=
    build_command Z (py "get_polyhaven_status") None (Some (py "abc123")) in
  let response := (respond (py "abc123") (JDict cmd) (fresh true)).1 in
  persistent (py "localhost") (inr 9876%Z)
    {| send_error := None; replies := RecvData <$> [wire response] |} g n
  = (GotConnection c,
     {| _blender_connection := Some c; _polyhaven_enabled := JBool true |},
     n).
Proof.
  intros c g n cmd response.
  apply (ping_mirrors_polyhaven_flag Z stub_literal stub_floatstr
           stub_round2 stub_error stub_host stub_truthy stub_floatstr
           stub_container stub_encode_error stub_decode_error (py "abc123")
           (fresh true) (py "localhost") (inr 9876%Z) g n c 0%nat
           [wire response]).
  - reflexivity.
  - reflexivity.
  - vm_compute. reflexivity.
  - vm_compute. reflexivity.
  - repeat constructor. vm_compute. discriminate.
  - vm_compute. reflexivity.
Defined.
